(** * Relay ingestion core: token/market registry, fork ordering, ABI event handlers

    A shallow embedding of
    - [market/util/marketutil.go] (package [util]): the process-wide token and
      market tables, market identifiers, price calculation;
    - the extractor's ABI processor (the second unit of
      [ordermanager/fork_test.go]): the per-event and per-method
      decode-and-publish handlers, the processor's address tables, the
      filling in of an event or a method from its transaction;
    - the fork event key ordering exercised by [TestInnerForkEventList_Sort].

    Go values are modelled as follows.  A Go [string] is a sequence of bytes
    ([string] of 8-bit [ascii]); a Go [map[string]T] is a [gmap string T].  Go leaves
    the order of a [range] over a map unspecified and does not keep it from
    one loop to the next: [rangeValues] and [rangeEntries] visit a map in the
    order of [map_to_list], and where a statement depends on the order the
    loop takes its order as a parameter ([InitializeIn], [AddressToAliasIn],
    [getContractVersionIn]) and the statement is about every order; [*big.Int]
    is [Z]; [int64] is [Z] with its wrap-around written out; [float64] is the
    IEEE binary64 format of the standard library's [SpecFloat].  Functions of
    packages that are not part of the sources (Go's [strings] Unicode tables,
    [math/big] text parsing, go-ethereum's [common], the [dao], [ethaccessor]
    and [eventemitter] packages) are taken as class parameters. *)

From Stdlib Require Import ZArith List String Ascii Bool Lia Permutation Sorted.
From Stdlib Require Import Floats.SpecFloat.
From stdpp Require Import base option list gmap strings.

Local Open Scope string_scope.

(** ** Package [strings] *)

Module GoStrings.

(** The Unicode tails of [strings.ToLower] and [strings.TrimSpace]: what the
    library computes on a string that holds a byte [>= utf8.RuneSelf]. *)
Class Unicode := {
  unicode_ToLower : string -> string;
  unicode_TrimSpace : string -> string
}.

Definition RuneSelf : N := 128.

Definition isASCIIByte (c : ascii) : bool := (N_of_ascii c <? RuneSelf)%N.

Fixpoint isASCII (s : string) : bool :=
  match s with
  | EmptyString => true
  | String c s' => isASCIIByte c && isASCII s'
  end.

Definition isUpperByte (c : ascii) : bool :=
  (65 <=? N_of_ascii c)%N && (N_of_ascii c <=? 90)%N.

(** [c += 'a' - 'A'] for ['A' <= c <= 'Z']. *)
Definition lowerByte (c : ascii) : ascii :=
  if isUpperByte c then ascii_of_N (N_of_ascii c + 32) else c.

Fixpoint mapBytes (f : ascii -> ascii) (s : string) : string :=
  match s with
  | EmptyString => EmptyString
  | String c s' => String (f c) (mapBytes f s')
  end.

(** [strings.ToLower]: byte-wise on ASCII-only strings, the Unicode mapping
    otherwise. *)
Definition ToLower `{Unicode} (s : string) : string :=
  if isASCII s then mapBytes lowerByte s else unicode_ToLower s.

(** The [asciiSpace] table: tab, newline, vertical tab, form feed, carriage
    return, space. *)
Definition asciiSpace (c : ascii) : bool :=
  match N_of_ascii c with
  | 9%N | 10%N | 11%N | 12%N | 13%N | 32%N => true
  | _ => false
  end.

Fixpoint trimLeftSpace (s : string) : string :=
  match s with
  | EmptyString => EmptyString
  | String c s' => if asciiSpace c then trimLeftSpace s' else s
  end.

Fixpoint trimRightSpace (s : string) : string :=
  match s with
  | EmptyString => EmptyString
  | String c s' =>
      match trimRightSpace s' with
      | EmptyString => if asciiSpace c then EmptyString else String c EmptyString
      | t => String c t
      end
  end.

(** [strings.TrimSpace]: leading and trailing ASCII white space on ASCII-only
    strings, [TrimFunc(s, unicode.IsSpace)] otherwise. *)
Definition TrimSpace `{Unicode} (s : string) : string :=
  if isASCII s then trimRightSpace (trimLeftSpace s) else unicode_TrimSpace s.

(** [strings.Split(s, sep)] for a one-byte separator, the only form the
    sources use: the pieces between the separators, one more than there are
    separators. *)
Fixpoint Split (s : string) (sep : ascii) : list string :=
  match s with
  | EmptyString => [EmptyString]
  | String c s' =>
      if Ascii.eqb c sep then EmptyString :: Split s' sep
      else match Split s' sep with
           | piece :: rest => String c piece :: rest
           | [] => [String c EmptyString]
           end
  end.

(** [strings.HasPrefix]. *)
Definition HasPrefix (s pre : string) : bool := String.prefix pre s.

(** Number of occurrences of a byte. *)
Fixpoint countByte (sep : ascii) (s : string) : nat :=
  match s with
  | EmptyString => 0
  | String c s' => (if Ascii.eqb c sep then 1 else 0) + countByte sep s'
  end.

Definition hyphen : ascii := "-"%char.

End GoStrings.

(** ** Package [common] of go-ethereum *)

Module EthCommon.

(** [common.Address], [common.Hash] and the conversions the sources call. *)
Class Common := {
  Address : Type;
  Hash : Type;
  HexToAddress : string -> Address;
  Address_Hex : Address -> string;
  HexToHash : string -> Hash;
  Hash_Hex : Hash -> string
}.

(** The values an ABI unpack leaves in an event struct and that the handlers
    pass on untouched (amounts, indices, cutoff times, ...). *)
Class Abi := { Data : Type }.

(** The zero values of [common.Address] and [common.Hash]: what the field of a
    zero struct reads, such as the [Protocol] of the [Token] a missing map key
    gives. *)
Class Zeros `{Common} := {
  Address_zero : Address;
  Hash_zero : Hash
}.

End EthCommon.

(** Go's [error] values, by their message. *)
Definition error : Type := string.

(** ** Package [math/big] *)

Module GoBig.

(** [UnmarshalText] of [big.Int]: the integer left in the receiver (the sources
    drop the returned error). *)
Class BigText := { UnmarshalText : string -> Z }.

(** [int64(u)] for a [uint64] [u], and the wrap-around of [int64] arithmetic. *)
Definition wrapInt64 (z : Z) : Z := ((z + 2 ^ 63) mod 2 ^ 64 - 2 ^ 63)%Z.

(** [x.Int64()]: [v := int64(low64(x.abs)); if x.neg { v = -v }]. *)
Definition Int64 (x : Z) : Z :=
  let v := wrapInt64 (Z.abs x mod 2 ^ 64) in
  if (x <? 0)%Z then wrapInt64 (- v) else v.

(** [MarshalText] of [big.Int]: the text of an integer (the sources drop the
    returned error). *)
Class BigPrint := { MarshalText : Z -> string }.

End GoBig.

(** ** [float64] *)

Module Float64.

Definition float64 : Type := spec_float.
Definition prec : Z := 53.
Definition emax : Z := 1024.

(** [float64(i)] for an [int64] [i]: round to nearest, ties to even. *)
Definition ofInt (i : Z) : float64 := binary_normalize prec emax i 0 false.

Definition div (x y : float64) : float64 := SFdiv prec emax x y.
Definition eqb (x y : float64) : bool := SFeqb x y.
Definition ltb (x y : float64) : bool := SFltb x y.
Definition zero : float64 := S754_zero false.

(** The last step of rounding: the number with mantissa [m] and exponent
    [e], or an infinity when [e] is beyond the largest exponent. *)
Definition finite_or_infinity (s : bool) (m : positive) (e : Z) : float64 :=
  if (e <=? 971)%Z then S754_finite s m e else S754_infinity s.

(** 1e18 is 7812500000000000 * 2^7. *)
Definition weiMantissa : positive := 7812500000000000.

Definition mul (x y : float64) : float64 := SFmul prec emax x y.

(** The integer part of a finite number: the fraction is discarded. *)
Definition truncate (x : float64) : option Z :=
  match x with
  | S754_zero _ => Some 0%Z
  | S754_finite s m e =>
      let magnitude := Z.shiftl (Zpos m) e in
      Some (if s then (- magnitude)%Z else magnitude)
  | _ => None
  end.

(** What [int64(x)] gives where the language leaves the result to the
    implementation: [x] a NaN, an infinity, or a number whose integer part
    does not fit. *)
Class Platform := { int64_unrepresentable : float64 -> Z }.

(** [int64(x)] for a [float64] [x]. *)
Definition toInt64 `{Platform} (x : float64) : Z :=
  match truncate x with
  | Some z => if ((- 2 ^ 63 <=? z) && (z <? 2 ^ 63))%Z then z else int64_unrepresentable x
  | None => int64_unrepresentable x
  end.

End Float64.

(** ** Package [types] *)

Module Types.
Import EthCommon.

Section Types.
Context `{Common}.

(** [types.Token], with the fields the sources read. *)
Record Token := { Symbol : string; Protocol : Address }.

(** [types.TxInfo], as [setTxInfo] and [FullFilled] fill it. *)
Record TxInfo := {
  tx_Protocol : Address;
  tx_From : Address;
  tx_To : Address;
  tx_BlockHash : Hash;
  tx_BlockNumber : Z;
  tx_BlockTime : Z;
  tx_TxHash : Hash;
  tx_LogIndex : Z;
  tx_Status : Z;
  tx_GasLimit : Z;
  tx_GasUsed : Z;
  tx_GasPrice : Z;
  tx_Nonce : Z;
  tx_Symbol : string
}.

Context `{Abi}.

(** The events the handlers publish.  Each embeds a [TxInfo]; besides it the
    records keep the fields a handler reads or writes, and [Data] for the
    rest. *)
Record RingMinedEvent := { rm_TxInfo : TxInfo; rm_data : Data }.

Record OrderFilledEvent := {
  of_TxInfo : TxInfo;
  of_OrderHash : Hash;
  of_TokenS : Address;
  of_TokenB : Address;
  of_Owner : Address;
  of_SellTo : Address;
  of_BuyFrom : Address;
  of_Market : string;
  of_data : Data
}.

Record OrderCancelledEvent := { oc_TxInfo : TxInfo; oc_data : Data }.
Record CutoffEvent := { co_TxInfo : TxInfo; co_data : Data }.
Record CutoffPairEvent := { cp_TxInfo : TxInfo; cp_data : Data }.
Record TransferEvent := {
  tr_TxInfo : TxInfo; tr_Sender : Address; tr_Receiver : Address; tr_data : Data
}.
Record ApprovalEvent := { ap_TxInfo : TxInfo; ap_Spender : Address; ap_data : Data }.
Record TokenRegisteredEvent := { tg_TxInfo : TxInfo; tg_data : Data }.
Record TokenUnRegisteredEvent := { tu_TxInfo : TxInfo; tu_data : Data }.
Record AddressAuthorizedEvent := { aa_TxInfo : TxInfo; aa_data : Data }.
Record AddressDeAuthorizedEvent := { ad_TxInfo : TxInfo; ad_data : Data }.
Record WethDepositEvent := { wd_TxInfo : TxInfo; wd_Owner : Address; wd_data : Data }.
Record WethWithdrawalEvent := { ww_TxInfo : TxInfo; ww_Owner : Address; ww_data : Data }.

(** The constants of the package that the sources read: the nil address
    and the transaction statuses (a [uint8] each). *)
Class Constants := {
  NilAddress : Address;
  TX_STATUS_PENDING : Z;
  TX_STATUS_SUCCESS : Z;
  TX_STATUS_FAILED : Z
}.

(** What the method handlers and [handleEthTransfer] publish, with the fields
    they set. *)
Record SubmitRingMethodEvent := { sr_TxInfo : TxInfo; sr_Err : option error }.
Record OrderCancelledMethodEvent := {
  ocm_TxInfo : TxInfo; ocm_OrderHash : Hash; ocm_AmountCancelled : Z
}.
Record CutoffMethodEvent := { cm_TxInfo : TxInfo; cm_Owner : Address; cm_data : Data }.
Record CutoffPairMethodEvent := { cpm_TxInfo : TxInfo; cpm_Owner : Address; cpm_data : Data }.
Record ApproveMethodEvent := {
  apm_TxInfo : TxInfo; apm_Owner : Address; apm_Spender : Address; apm_data : Data
}.
Record TransferMethodEvent := {
  trm_TxInfo : TxInfo; trm_Sender : Address; trm_Receiver : Address; trm_data : Data
}.
Record WethDepositMethodEvent := { wdm_TxInfo : TxInfo; wdm_Owner : Address; wdm_Value : Z }.
Record WethWithdrawalMethodEvent := {
  wwm_TxInfo : TxInfo; wwm_Owner : Address; wwm_data : Data
}.
Record EthTransferEvent := {
  et_TxInfo : TxInfo; et_Sender : Address; et_Receiver : Address; et_Value : Z
}.

End Types.
End Types.

(** ** Package [dao] *)

Module Dao.
Import EthCommon Types.

Section Dao.
Context `{Common}.

(** The stored token and market rows and their [ConvertUp]. *)
Class Rows := {
  Token : Type;
  Market : Type;
  Token_Symbol : Token -> string;
  Token_ConvertUp : Token -> Types.Token;
  Market_ConvertUp : Market -> Types.Token
}.
Context `{Rows}.

(** [dao.Order], with the fields the ring-mined handler reads. *)
Record Order := {
  Order_TokenS : string;
  Order_TokenB : string;
  Order_Owner : string;
  Order_OrderHash : string
}.

(** The queries of the [dao.RdsService] interface that the sources run, each
    with the [(value, err)] pair it returns. *)
Record RdsService := {
  FindUnDeniedTokens : list Token * option error;
  FindUnDeniedMarkets : list Market * option error;
  GetOrdersByHash : list string -> gmap string Order * option error
}.

End Dao.
End Dao.

(** ** Package [util]: the token and market registry *)

Module MarketUtil.
Import GoStrings EthCommon GoBig Types.

Section Registry.
Context `{Unicode} `{Common} `{!Dao.Rows} `{BigText}.

Record TokenPair := { TokenS : Address; TokenB : Address }.

(** The package-level variables. *)
Record Globals := {
  SupportTokens : gmap string Token;
  AllTokens : gmap string Token;
  SupportMarkets : gmap string Token;
  AllMarkets : list string;
  AllTokenPairs : list TokenPair
}.

(** The variables at process start: nil maps and nil slices. *)
Definition zeroGlobals : Globals :=
  {| SupportTokens := ∅; AllTokens := ∅; SupportMarkets := ∅;
     AllMarkets := []; AllTokenPairs := [] |}.

(** [for _, v := range m]: the values of a map, in the order of
    [map_to_list].  That is one of the orders Go may take, the same at every
    loop; [Schedule] below gives each loop an order of its own. *)
Definition rangeValues {V} (m : gmap string V) : list V := (map_to_list m).*2.

(** [for k, v := range m], in the same order. *)
Definition rangeEntries {V} (m : gmap string V) : list (string * V) := map_to_list m.

(** A run of [Initialize] either returns or ends the process in [log.Fatalf]. *)
Inductive Exec (A : Type) :=
  | Returns (a : A)
  | Fatal (msg : string).
Global Arguments Returns {A} a.
Global Arguments Fatal {A} msg.

Definition setSupportTokens (tokens : list Dao.Token) : gmap string Token :=
  foldl (fun m v => <[Dao.Token_Symbol v := Dao.Token_ConvertUp v]> m) ∅ tokens.

Definition setAllTokens (supportTokens : gmap string Token) : gmap string Token :=
  foldl (fun m kv => <[kv.1 := kv.2]> m) ∅ (rangeEntries supportTokens).

Definition setSupportMarkets (markets : list Dao.Market) : gmap string Token :=
  foldl (fun m v => let token := Dao.Market_ConvertUp v in <[Symbol token := token]> m)
        ∅ markets.

(** The symbols appended to [AllMarkets]: one per (token, market), token first. *)
Definition newMarkets (supportTokens supportMarkets : gmap string Token) : list string :=
  flat_map (fun k => map (fun kk => Symbol k +:+ "-" +:+ Symbol kk)
                         (rangeValues supportMarkets))
           (rangeValues supportTokens).

Definition pairsMap (supportTokens supportMarkets : gmap string Token)
  : gmap string TokenPair :=
  foldl (fun pm v =>
           foldl (fun pm vv =>
                    <[Symbol vv +:+ "-" +:+ Symbol v :=
                        {| TokenS := Protocol vv; TokenB := Protocol v |}]>
                      (<[Symbol v +:+ "-" +:+ Symbol vv :=
                           {| TokenS := Protocol v; TokenB := Protocol vv |}]> pm))
                 pm (rangeValues supportTokens))
        ∅ (rangeValues supportMarkets).

(** [Initialize(rds)].  The three maps are made afresh; [AllMarkets] and
    [AllTokenPairs] are appended to.  The [log.Infof] lines are left out. *)
Definition Initialize (rds : Dao.RdsService) (g : Globals) : Exec Globals :=
  let '(tokens, err) := Dao.FindUnDeniedTokens rds in
  match err with
  | Some _ => Fatal "market util cann't find any token!"
  | None =>
    let '(markets, err) := Dao.FindUnDeniedMarkets rds in
    match err with
    | Some _ => Fatal "market util cann't find any base market!"
    | None =>
      let supportTokens := setSupportTokens tokens in
      let allTokens := setAllTokens supportTokens in
      let supportMarkets := setSupportMarkets markets in
      Returns
        {| SupportTokens := supportTokens;
           AllTokens := allTokens;
           SupportMarkets := supportMarkets;
           AllMarkets := (AllMarkets g ++ newMarkets supportTokens supportMarkets)%list;
           AllTokenPairs :=
             (AllTokenPairs g ++ rangeValues (pairsMap supportTokens supportMarkets))%list |}
    end
  end.

Definition IsSupportedMarket (g : Globals) (market : string) : bool :=
  bool_decide (is_Some (SupportMarkets g !! market)).

Definition IsSupportedToken (g : Globals) (token : string) : bool :=
  bool_decide (is_Some (SupportTokens g !! token)).

(** [fmt.Sprintf("%s-%s", x, y)]. *)
Definition sprintfPair (x y : string) : string := x +:+ "-" +:+ y.

(** [WrapMarket(s, b)], with its two results [(market, err)]. *)
Definition WrapMarket (g : Globals) (s b : string) : string * option error :=
  let s := ToLower s in
  let b := ToLower b in
  if IsSupportedMarket g s && IsSupportedToken g b then
    (sprintfPair b s, None)
  else if IsSupportedMarket g b && IsSupportedToken g s then
    (sprintfPair s b, None)
  else
    ("", Some ("not supported market type : " +:+ sprintfPair s b)).

(** [UnWrap(market)]. *)
Definition UnWrap (market : string) : string * string :=
  match Split (TrimSpace market) hyphen with
  | [m0; m1] => (ToLower m0, ToLower m1)
  | _ => ("", "")
  end.

(** [AddressToAlias(t)]: the first symbol, in iteration order, whose address
    prints as [t]; the empty string when there is none. *)
Definition AddressToAlias (g : Globals) (t : string) : string :=
  match List.find (fun kv => String.eqb t (Address_Hex (Protocol kv.2)))
                  (rangeEntries (AllTokens g)) with
  | Some kv => kv.1
  | None => ""
  end.

Definition WrapMarketByAddress (g : Globals) (s b : string) : string * option error :=
  WrapMarket g (AddressToAlias g s) (AddressToAlias g b).

Definition IsAddress (token : string) : bool := HasPrefix token "0x".

Definition IsBuy (g : Globals) (s : string) : bool :=
  let s := if IsAddress s then AddressToAlias g s else s in
  bool_decide (is_Some (SupportTokens g !! s)).

(** [const weiToEther = 1e18], as the [float64] it divides by. *)
Definition weiToEther : Float64.float64 := Float64.ofInt (10 ^ 18).

(** [ByteToFloat(amount)]. *)
Definition ByteToFloat (amount : string) : Float64.float64 :=
  let rst := UnmarshalText amount in
  Float64.div (Float64.ofInt (Int64 rst)) weiToEther.

(** [CalculatePrice(amountS, amountB, s, b)]. *)
Definition CalculatePrice (g : Globals) (amountS amountB s b : string)
  : Float64.float64 :=
  let as_ := ByteToFloat amountS in
  let ab := ByteToFloat amountB in
  if Float64.eqb as_ Float64.zero || Float64.eqb ab Float64.zero then Float64.zero
  else if IsBuy g s then Float64.div ab as_
  else Float64.div as_ ab.

(** [ByteToFloat] without the [Int64] step: the decoded integer itself,
    rounded to [float64] and divided by [weiToEther]. *)
Definition scaledAmount (n : Z) : Float64.float64 :=
  Float64.div (Float64.ofInt n) weiToEther.

(** [CalculatePrice] without the [Int64] step: the price of the decoded
    integers themselves. *)
Definition scaledPrice (g : Globals) (nS nB : Z) (s : string) : Float64.float64 :=
  let as_ := scaledAmount nS in
  let ab := scaledAmount nB in
  if Float64.eqb as_ Float64.zero || Float64.eqb ab Float64.zero then Float64.zero
  else if IsBuy g s then Float64.div ab as_
  else Float64.div as_ ab.

(** A plain symbol: ASCII, lower-case, without hyphen and without white space
    at either end. *)
Definition plainSymbol (k : string) : bool :=
  isASCII k && String.eqb (mapBytes lowerByte k) k
  && Nat.eqb (countByte hyphen k) 0
  && String.eqb (trimLeftSpace k) k && String.eqb (trimRightSpace k) k.

Context `{!Zeros} `{BigPrint} `{Float64.Platform}.

(** [FloatToByte(amount)]. *)
Definition FloatToByte (amount : Float64.float64) : string :=
  MarshalText (Float64.toInt64 (Float64.mul amount weiToEther)).

(** [AliasToAddress(t)]: a missing key reads the zero [Token]. *)
Definition AliasToAddress (g : Globals) (t : string) : Address :=
  match AllTokens g !! t with
  | Some token => Protocol token
  | None => Address_zero
  end.

(** The package-level map [ContractVersionConfig]. *)
Definition ContractVersionConfig : gmap string string :=
  <["v1.2" := "0x39kdjfskdfjsdfj"]> (<["v1.0" := "0x39kdjfskdfjsdfj"]> ∅).

(** [getContractVersion(address)], for a given iteration order of the map:
    the first key whose value is [address], the empty string when there is
    none. *)
Definition getContractVersionIn (order : list (string * string)) (address : string)
  : string :=
  match List.find (fun kv => String.eqb kv.2 address) order with
  | Some kv => kv.1
  | None => ""
  end.

Definition getContractVersion (address : string) : string :=
  getContractVersionIn (rangeEntries ContractVersionConfig) address.

(** [IsSupportedContract(address)], for a given iteration order. *)
Definition IsSupportedContractIn (order : list (string * string)) (address : string)
  : bool :=
  negb (String.eqb (getContractVersionIn order address) "").

Definition IsSupportedContract (address : string) : bool :=
  IsSupportedContractIn (rangeEntries ContractVersionConfig) address.

(** The integer part of [x * 1e18] is [n]. *)
Definition backTo (n : Z) (x : Float64.float64) : bool :=
  match Float64.truncate (Float64.mul x weiToEther) with
  | Some z => (z =? n)%Z
  | None => false
  end.

(** A pair joins the address of a market and the address of a token, in
    either order. *)
Definition joins (T M : gmap string Token) (p : TokenPair) : Prop :=
  exists token mkt,
    In token (rangeValues T) /\ In mkt (rangeValues M)
    /\ (p = {| TokenS := Protocol mkt; TokenB := Protocol token |}
        \/ p = {| TokenS := Protocol token; TokenB := Protocol mkt |}).

(** *** The order of a [range] over a map

    Go leaves the order in which a [range] visits a map unspecified, and a
    loop need not take the order of the loop before it.  A schedule gives
    every execution of a [range] statement its order.  The execution is named
    by the line of the statement in [marketutil.go], followed, for a loop
    inside another, by the number of the outer loop's iteration. *)
Definition Schedule : Type :=
  forall V : Type, list nat -> gmap string V -> list (string * V).

(** Whatever the order, a [range] visits every entry of the map once. *)
Definition fair (s : Schedule) : Prop :=
  forall V pos (m : gmap string V), Permutation (s V pos m) (map_to_list m).

(** The schedule of [rangeEntries]: every loop in the order of [map_to_list]. *)
Definition inOrder : Schedule := fun V _ m => map_to_list m.

(** The elements of a list, each with the number of its iteration. *)
Fixpoint numberedFrom {A} (i : nat) (l : list A) : list (nat * A) :=
  match l with
  | [] => []
  | x :: l => (i, x) :: numberedFrom (S i) l
  end.

Definition numbered {A} (l : list A) : list (nat * A) := numberedFrom 0 l.

(** The loop of line 86. *)
Definition setAllTokensIn (s : Schedule) (supportTokens : gmap string Token)
  : gmap string Token :=
  foldl (fun m kv => <[kv.1 := kv.2]> m) ∅ (s _ [86] supportTokens).

(** The loops of lines 98 and 99. *)
Definition newMarketsIn (s : Schedule) (supportTokens supportMarkets : gmap string Token)
  : list string :=
  flat_map (fun ik => map (fun kk => Symbol ik.2 +:+ "-" +:+ Symbol kk)
                          (s _ [99; ik.1] supportMarkets).*2)
           (numbered (s _ [98] supportTokens).*2).

(** The loops of lines 108 and 109. *)
Definition pairsMapIn (s : Schedule) (supportTokens supportMarkets : gmap string Token)
  : gmap string TokenPair :=
  foldl (fun pm jv =>
           foldl (fun pm vv =>
                    <[Symbol vv +:+ "-" +:+ Symbol jv.2 :=
                        {| TokenS := Protocol vv; TokenB := Protocol jv.2 |}]>
                      (<[Symbol jv.2 +:+ "-" +:+ Symbol vv :=
                           {| TokenS := Protocol jv.2; TokenB := Protocol vv |}]> pm))
                 pm (s _ [109; jv.1] supportTokens).*2)
        ∅ (numbered (s _ [108] supportMarkets).*2).

(** [Initialize(rds)] with its six loops over maps in the orders of [s]; the
    last one is the loop of line 114. *)
Definition InitializeIn (s : Schedule) (rds : Dao.RdsService) (g : Globals)
  : Exec Globals :=
  let '(tokens, err) := Dao.FindUnDeniedTokens rds in
  match err with
  | Some _ => Fatal "market util cann't find any token!"
  | None =>
    let '(markets, err) := Dao.FindUnDeniedMarkets rds in
    match err with
    | Some _ => Fatal "market util cann't find any base market!"
    | None =>
      let supportTokens := setSupportTokens tokens in
      let allTokens := setAllTokensIn s supportTokens in
      let supportMarkets := setSupportMarkets markets in
      Returns
        {| SupportTokens := supportTokens;
           AllTokens := allTokens;
           SupportMarkets := supportMarkets;
           AllMarkets := (AllMarkets g ++ newMarketsIn s supportTokens supportMarkets)%list;
           AllTokenPairs :=
             (AllTokenPairs g
              ++ (s _ [114] (pairsMapIn s supportTokens supportMarkets)).*2)%list |}
    end
  end.

(** The entries that lines 110 and 111 put into [pairsMap], one after the
    other. *)
Definition pairEntries (s : Schedule) (T M : gmap string Token)
  : list (string * TokenPair) :=
  flat_map (fun jv =>
              flat_map (fun vv =>
                          [(Symbol jv.2 +:+ "-" +:+ Symbol vv,
                            {| TokenS := Protocol jv.2; TokenB := Protocol vv |});
                           (Symbol vv +:+ "-" +:+ Symbol jv.2,
                            {| TokenS := Protocol vv; TokenB := Protocol jv.2 |})])
                       (s _ [109; jv.1] T).*2)
           (numbered (s _ [108] M).*2).

(** Line 110 or line 111 puts the pair [p] under the key [k], for some market
    [v] and some token [vv]. *)
Definition written (T M : gmap string Token) (k : string) (p : TokenPair) : Prop :=
  exists v vv,
    In v (rangeValues M) /\ In vv (rangeValues T)
    /\ ((k = Symbol v +:+ "-" +:+ Symbol vv
         /\ p = {| TokenS := Protocol v; TokenB := Protocol vv |})
        \/ (k = Symbol vv +:+ "-" +:+ Symbol v
            /\ p = {| TokenS := Protocol vv; TokenB := Protocol v |})).

(** No key of [pairsMap] is written with two different pairs. *)
Definition unambiguous (T M : gmap string Token) : Prop :=
  forall k p p', written T M k p -> written T M k p' -> p = p'.

(** [AddressToAlias(t)], for a given iteration order of [AllTokens]. *)
Definition AddressToAliasIn (order : list (string * Token)) (t : string) : string :=
  match List.find (fun kv => String.eqb t (Address_Hex (Protocol kv.2))) order with
  | Some kv => kv.1
  | None => ""
  end.

End Registry.

End MarketUtil.

(** ** Package [ordermanager]: fork event keys *)

Module OrderManager.

(** [InnerForkEvent], with the two fields the test sets. *)
Record InnerForkEvent := { BlockNumber : Z; LogIndex : Z }.

Definition InnerForkEventList : Type := list InnerForkEvent.

(** Modelled from the spec: the [Less] method of [InnerForkEventList] is not
    part of the sources (only its test is).  "Ordering rule: primary key block
    number ascending; tie-break log index ascending." *)
Definition Less (a b : InnerForkEvent) : bool :=
  if (BlockNumber a =? BlockNumber b)%Z then (LogIndex a <? LogIndex b)%Z
  else (BlockNumber a <? BlockNumber b)%Z.

Fixpoint insertSorted (x : InnerForkEvent) (l : InnerForkEventList) : InnerForkEventList :=
  match l with
  | [] => [x]
  | y :: l' => if Less y x then y :: insertSorted x l' else x :: l
  end.

(** Modelled from the spec: [sort.Sort(list)] as "in-place sort" by [Less];
    an insertion sort stands for the library's algorithm. *)
Definition Sort (l : InnerForkEventList) : InnerForkEventList :=
  foldr insertSorted [] l.

(** The order [Less] induces on keys: not after. *)
Definition keyLe (a b : InnerForkEvent) : Prop :=
  (BlockNumber a < BlockNumber b
   \/ (BlockNumber a = BlockNumber b /\ LogIndex a <= LogIndex b))%Z.

End OrderManager.

(** ** Package [ethaccessor]: the structs an event's ABI data is unpacked into *)

Module EthAccessor.
Import EthCommon.

Section EthAccessor.
Context `{Common} `{Abi}.

(** Each record keeps the indexed fields a handler fills from the log topics,
    and [Data] for the unpacked rest. *)
Record RingMinedEvent := { RingHash : Hash; RingMined_data : Data }.
Record OrderCancelledEvent := { OrderHash : Hash; OrderCancelled_data : Data }.
Record CutoffEvent := { Cutoff_Owner : Address; Cutoff_data : Data }.
Record CutoffPairEvent := { CutoffPair_Owner : Address; CutoffPair_data : Data }.
Record TransferEvent := { From : Address; To : Address; Transfer_data : Data }.
Record ApprovalEvent := { Approval_Owner : Address; Spender : Address; Approval_data : Data }.
Record TokenRegisteredEvent := { TokenRegistered_data : Data }.
Record TokenUnRegisteredEvent := { TokenUnRegistered_data : Data }.
Record AddressAuthorizedEvent := {
  Authorized_ContractAddress : Address; Authorized_data : Data
}.
Record AddressDeAuthorizedEvent := {
  DeAuthorized_ContractAddress : Address; DeAuthorized_data : Data
}.
Record WethDepositEvent := { WethDeposit_data : Data }.
Record WethWithdrawalEvent := { WethWithdrawal_data : Data }.

(** The [ConvertDown] methods. *)
Class Converters := {
  RingMined_ConvertDown :
    RingMinedEvent ->
    Types.RingMinedEvent * list Types.OrderFilledEvent * option error;
  OrderCancelled_ConvertDown : OrderCancelledEvent -> Types.OrderCancelledEvent;
  Cutoff_ConvertDown : CutoffEvent -> Types.CutoffEvent;
  CutoffPair_ConvertDown : CutoffPairEvent -> Types.CutoffPairEvent;
  Transfer_ConvertDown : TransferEvent -> Types.TransferEvent;
  Approval_ConvertDown : ApprovalEvent -> Types.ApprovalEvent;
  TokenRegistered_ConvertDown : TokenRegisteredEvent -> Types.TokenRegisteredEvent;
  TokenUnRegistered_ConvertDown : TokenUnRegisteredEvent -> Types.TokenUnRegisteredEvent;
  AddressAuthorized_ConvertDown : AddressAuthorizedEvent -> Types.AddressAuthorizedEvent;
  AddressDeAuthorized_ConvertDown :
    AddressDeAuthorizedEvent -> Types.AddressDeAuthorizedEvent;
  WethDeposit_ConvertDown : WethDepositEvent -> Types.WethDepositEvent;
  WethWithdrawal_ConvertDown : WethWithdrawalEvent -> Types.WethWithdrawalEvent
}.

(** A transaction, its receipt and a log, with the fields the sources read
    (a [types.Big] by its integer). *)
Record Transaction := {
  Tx_Hash : string;
  Tx_Nonce : Z;
  Tx_BlockHash : string;
  Tx_BlockNumber : Z;
  Tx_From : string;
  Tx_To : string;
  Tx_Value : Z;
  Tx_GasPrice : Z;
  Tx_Gas : Z;
  Tx_Input : string
}.

Record TransactionReceipt := { Receipt_GasUsed : Z }.

Record Log := { Log_LogIndex : Z; Log_Address : string; Log_Topics : list string }.

(** An entry of [ProtocolAddresses()]. *)
Record ProtocolAddress := {
  ContractAddress : Address;
  TokenRegistryAddress : Address;
  DelegateAddress : Address
}.

(** What the method handlers call outside the sources.  A method struct is
    kept by its unpacked [Data].  [hexutil_Decode] is [hexutil.Decode], [None]
    for an error ([hexutil.MustDecode] panics on it); [UnpackMethodInput]
    gives the struct after the unpack and the error; a [ConvertDown] gives
    what the handler goes on with. *)
Class MethodConverters := {
  Bytes : Type;
  hexutil_Decode : string -> option Bytes;
  UnpackMethodInput : Data -> string -> Bytes -> Data * option error;
  CancelOrderMethod_ConvertDown : Data -> Hash * Z;
  CutoffMethod_ConvertDown : Data -> Types.CutoffMethodEvent;
  CutoffPairMethod_ConvertDown : Data -> Types.CutoffPairMethodEvent;
  ApproveMethod_ConvertDown : Data -> Types.ApproveMethodEvent;
  TransferMethod_ConvertDown : Data -> Types.TransferMethodEvent;
  WethWithdrawalMethod_ConvertDown : Data -> Types.WethWithdrawalMethodEvent
}.

End EthAccessor.
End EthAccessor.

(** ** Package [eventemitter]: the topics the event handlers publish on *)

Module EventEmitter.

Inductive Topic :=
  | OrderManagerExtractorRingMined
  | OrderManagerExtractorFill
  | TxManagerOrderFilledEvent
  | OrderManagerExtractorCancel
  | TxManagerOrderCancelledEvent
  | OrderManagerExtractorCutoff
  | TxManagerCutoffAllEvent
  | OrderManagerExtractorCutoffPair
  | TxManagerCutoffPairEvent
  | AccountTransfer
  | TxManagerTransferEvent
  | AccountApproval
  | TxManagerApproveEvent
  | TokenRegistered
  | TokenUnRegistered
  | AddressAuthorized
  | WethDepositEvent
  | TxManagerWethDepositEvent
  | WethWithdrawalEvent
  | TxManagerWethWithdrawalEvent.

Definition Topic_eqb (a b : Topic) : bool :=
  match a, b with
  | OrderManagerExtractorRingMined, OrderManagerExtractorRingMined
  | OrderManagerExtractorFill, OrderManagerExtractorFill
  | TxManagerOrderFilledEvent, TxManagerOrderFilledEvent
  | OrderManagerExtractorCancel, OrderManagerExtractorCancel
  | TxManagerOrderCancelledEvent, TxManagerOrderCancelledEvent
  | OrderManagerExtractorCutoff, OrderManagerExtractorCutoff
  | TxManagerCutoffAllEvent, TxManagerCutoffAllEvent
  | OrderManagerExtractorCutoffPair, OrderManagerExtractorCutoffPair
  | TxManagerCutoffPairEvent, TxManagerCutoffPairEvent
  | AccountTransfer, AccountTransfer
  | TxManagerTransferEvent, TxManagerTransferEvent
  | AccountApproval, AccountApproval
  | TxManagerApproveEvent, TxManagerApproveEvent
  | TokenRegistered, TokenRegistered
  | TokenUnRegistered, TokenUnRegistered
  | AddressAuthorized, AddressAuthorized
  | WethDepositEvent, WethDepositEvent
  | TxManagerWethDepositEvent, TxManagerWethDepositEvent
  | WethWithdrawalEvent, WethWithdrawalEvent
  | TxManagerWethWithdrawalEvent, TxManagerWethWithdrawalEvent => true
  | _, _ => false
  end.

(** The topics the method handlers and [handleEthTransfer] publish on. *)
Inductive MethodTopic :=
  | Miner_SubmitRing_Method
  | OrderCanceled
  | TxManagerCutoffAllMethod
  | TxManagerCutoffPairMethod
  | ApproveMethod
  | TxManagerApproveMethod
  | TxManagerTransferMethod
  | WethDepositMethod
  | TxManagerWethDepositMethod
  | WethWithdrawalMethod
  | TxManagerWethWithdrawalMethod
  | TxManagerEthTransferEvent.

End EventEmitter.

(** ** Package [extractor]: the ABI processor's event handlers *)

Module Extractor.
Import GoStrings EthCommon GoBig EventEmitter.

Section Processor.
Context `{Unicode} `{Common} `{!Dao.Rows} `{BigText} `{Abi} `{!EthAccessor.Converters}.

(** What [EventData.Event] holds: a pointer to one of the [ethaccessor]
    structs.  A handler's type assertion picks its own case and panics on
    any other. *)
Inductive ContractEvent :=
  | CE_RingMined (e : EthAccessor.RingMinedEvent)
  | CE_OrderCancelled (e : EthAccessor.OrderCancelledEvent)
  | CE_Cutoff (e : EthAccessor.CutoffEvent)
  | CE_CutoffPair (e : EthAccessor.CutoffPairEvent)
  | CE_Transfer (e : EthAccessor.TransferEvent)
  | CE_Approval (e : EthAccessor.ApprovalEvent)
  | CE_TokenRegistered (e : EthAccessor.TokenRegisteredEvent)
  | CE_TokenUnRegistered (e : EthAccessor.TokenUnRegisteredEvent)
  | CE_AddressAuthorized (e : EthAccessor.AddressAuthorizedEvent)
  | CE_AddressDeAuthorized (e : EthAccessor.AddressDeAuthorizedEvent)
  | CE_WethDeposit (e : EthAccessor.WethDepositEvent)
  | CE_WethWithdrawal (e : EthAccessor.WethWithdrawalEvent).

(** [EventData]; its [CAbi] field is not read by the event handlers. *)
Record EventData := {
  TxInfo : Types.TxInfo;
  Event : ContractEvent;
  Id : Hash;
  Name : string;
  Topics : list string
}.

(** What [eventemitter.Emit] is handed.  A fill is published by pointer
    ([ptr], its position in the handler's [fillList]); [seen] is what the
    pointer shows when [Emit] runs. *)
Inductive Published :=
  | PubRingMined (e : Types.RingMinedEvent)
  | PubOrderFilled (ptr : nat) (seen : Types.OrderFilledEvent)
  | PubOrderCancelled (e : Types.OrderCancelledEvent)
  | PubCutoff (e : Types.CutoffEvent)
  | PubCutoffPair (e : Types.CutoffPairEvent)
  | PubTransfer (e : Types.TransferEvent)
  | PubApproval (e : Types.ApprovalEvent)
  | PubTokenRegistered (e : Types.TokenRegisteredEvent)
  | PubTokenUnRegistered (e : Types.TokenUnRegisteredEvent)
  | PubAddressAuthorized (e : Types.AddressAuthorizedEvent)
  | PubAddressDeAuthorized (e : Types.AddressDeAuthorizedEvent)
  | PubWethDeposit (e : Types.WethDepositEvent)
  | PubWethWithdrawal (e : Types.WethWithdrawalEvent).

Inductive Level := LvError | LvDebug.

(** A line of the log: its level, its format string and its first argument,
    the transaction hash.  The further arguments are not recorded. *)
Record LogLine := { level : Level; format : string; txHash : string }.

(** What a handler leaves behind: the log and the events it published, both
    in order. *)
Record Trace := { logged : list LogLine; emitted : list (Topic * Published) }.

Definition emptyTrace : Trace := {| logged := []; emitted := [] |}.

(** A handler either returns or panics (a failed type assertion, an index
    out of range). *)
Inductive Outcome (A : Type) :=
  | Returned (a : A)
  | Panicked.
Global Arguments Returned {A} a.
Global Arguments Panicked {A}.

Definition Run (A : Type) : Type := Trace -> Outcome A * Trace.

Global Instance Run_ret : MRet Run := fun A a t => (Returned a, t).

Global Instance Run_bind : MBind Run := fun A B f m t =>
  match m t with
  | (Returned a, t') => f a t'
  | (Panicked, t') => (Panicked, t')
  end.

Definition panic {A} : Run A := fun t => (Panicked, t).

Definition logf (lv : Level) (fmt : string) (contractData : EventData) : Run unit :=
  fun t =>
    (Returned tt,
     {| logged := (logged t ++
                   [{| level := lv; format := fmt;
                       txHash := Hash_Hex (Types.tx_TxHash (TxInfo contractData)) |}])%list;
        emitted := emitted t |}).

Definition Errorf := logf LvError.
Definition Debugf := logf LvDebug.

(** [eventemitter.Emit(topic, data)]. *)
Definition Emit (topic : Topic) (data : Published) : Run unit :=
  fun t => (Returned tt, {| logged := logged t; emitted := (emitted t ++ [(topic, data)])%list |}).

(** [l[i]]. *)
Definition index {A} (l : list A) (i : nat) : Run A :=
  match l !! i with
  | Some x => mret x
  | None => panic
  end.

Fixpoint foldM {A S} (f : S -> A -> Run S) (s : S) (l : list A) : Run S :=
  match l with
  | [] => mret s
  | x :: l' => s' ← f s x; foldM f s' l'
  end.

Definition forEach {A} (l : list A) (f : A -> Run unit) : Run unit :=
  foldM (fun _ x => f x) tt l.

(** [AbiProcessor], with the tables the event handlers read: the delegate
    addresses (a map, by its lookup) and the store. *)
Record AbiProcessor := {
  delegates : Address -> option string;
  db : Dao.RdsService
}.

Definition HasSpender (processor : AbiProcessor) (spender : Address) : bool :=
  bool_decide (is_Some (delegates processor spender)).

(** The [nil] error. *)
Definition nilError : option error := None.

(** *** Ring mined *)

Definition fill_setTxInfo (i : Types.TxInfo) (f : Types.OrderFilledEvent)
  : Types.OrderFilledEvent :=
  {| Types.of_TxInfo := i; Types.of_OrderHash := Types.of_OrderHash f;
     Types.of_TokenS := Types.of_TokenS f; Types.of_TokenB := Types.of_TokenB f;
     Types.of_Owner := Types.of_Owner f; Types.of_SellTo := Types.of_SellTo f;
     Types.of_BuyFrom := Types.of_BuyFrom f; Types.of_Market := Types.of_Market f;
     Types.of_data := Types.of_data f |}.

(** The four assignments of the matched branch. *)
Definition fill_setOrder (g : MarketUtil.Globals) (ord : Dao.Order)
    (v : Types.OrderFilledEvent) : Types.OrderFilledEvent :=
  let tokenS := HexToAddress (Dao.Order_TokenS ord) in
  let tokenB := HexToAddress (Dao.Order_TokenB ord) in
  {| Types.of_TxInfo := Types.of_TxInfo v; Types.of_OrderHash := Types.of_OrderHash v;
     Types.of_TokenS := tokenS; Types.of_TokenB := tokenB;
     Types.of_Owner := HexToAddress (Dao.Order_Owner ord);
     Types.of_SellTo := Types.of_SellTo v; Types.of_BuyFrom := Types.of_BuyFrom v;
     Types.of_Market :=
       (MarketUtil.WrapMarketByAddress g (Address_Hex tokenB) (Address_Hex tokenS)).1;
     Types.of_data := Types.of_data v |}.

Definition fill_setCounterparties (sellTo buyFrom : Address)
    (f : Types.OrderFilledEvent) : Types.OrderFilledEvent :=
  {| Types.of_TxInfo := Types.of_TxInfo f; Types.of_OrderHash := Types.of_OrderHash f;
     Types.of_TokenS := Types.of_TokenS f; Types.of_TokenB := Types.of_TokenB f;
     Types.of_Owner := Types.of_Owner f; Types.of_SellTo := sellTo;
     Types.of_BuyFrom := buyFrom; Types.of_Market := Types.of_Market f;
     Types.of_data := Types.of_data f |}.

(** The state of the second loop: the fills behind [fillList] and the
    pointers collected in [saveFillList]. *)
Definition matchStep (g : MarketUtil.Globals) (ordermap : gmap string Dao.Order)
    (contractData : EventData)
    (st : list Types.OrderFilledEvent * list nat) (i : nat)
  : Run (list Types.OrderFilledEvent * list nat) :=
  let '(fillList, saveFillList) := st in
  v ← index fillList i;
  match ordermap !! Hash_Hex (Types.of_OrderHash v) with
  | Some ord =>
      let v := fill_setOrder g ord v in
      Emit OrderManagerExtractorFill (PubOrderFilled i v);;
      mret (<[i := v]> fillList, (saveFillList ++ [i])%list)
  | None =>
      Debugf "extractor,tx:%s orderFilled event cann't match order %s" contractData;;
      mret (fillList, saveFillList)
  end.

(** The body of the third loop, [for i := 0; i < length; i++]. *)
Definition linkStep (fillList : list Types.OrderFilledEvent) (i : nat)
  : Run (list Types.OrderFilledEvent) :=
  let length := length fillList in
  fill ← index fillList i;
  sellTo ← (if (i =? length - 1)%nat then index fillList 0
            else index fillList (i + 1));
  buyFrom ← (if (i =? 0)%nat then index fillList (length - 1)
             else index fillList (i - 1));
  let fill := fill_setCounterparties (Types.of_Owner sellTo) (Types.of_Owner buyFrom) fill in
  Emit TxManagerOrderFilledEvent (PubOrderFilled i fill);;
  mret (<[i := fill]> fillList).

Definition handleRingMinedEvent (processor : AbiProcessor) (g : MarketUtil.Globals)
    (contractData : EventData) : Run (option error) :=
  if (length (Topics contractData) <? 2)%nat then
    Errorf "extractor,tx:%s ringMined event indexed fields number error" contractData;;
    mret nilError
  else
    contractEvent ← match Event contractData with
                    | CE_RingMined e => mret e
                    | _ => panic
                    end;
    topic1 ← index (Topics contractData) 1;
    let contractEvent :=
      {| EthAccessor.RingHash := HexToHash topic1;
         EthAccessor.RingMined_data := EthAccessor.RingMined_data contractEvent |} in
    let '(ringmined, fills, err) := EthAccessor.RingMined_ConvertDown contractEvent in
    match err with
    | Some _ =>
        Errorf "extractor,tx:%s ringMined event convert down error:%s" contractData;;
        mret nilError
    | None =>
        let ringmined :=
          {| Types.rm_TxInfo := TxInfo contractData;
             Types.rm_data := Types.rm_data ringmined |} in
        Debugf "extractor,tx:%s ringMined event ringhash:%s, ringIndex:%s, tx:%s"
               contractData;;
        Emit OrderManagerExtractorRingMined (PubRingMined ringmined);;
        forEach fills (fun _ =>
          Debugf "extractor,tx:%s orderFilled event ringhash:%s, amountS:%s, amountB:%s, orderhash:%s, lrcFee:%s, lrcReward:%s, nextOrderhash:%s, preOrderhash:%s, ringIndex:%s"
                 contractData);;
        let fillList := map (fill_setTxInfo (TxInfo contractData)) fills in
        let orderhashList := map (fun f => Hash_Hex (Types.of_OrderHash f)) fillList in
        let '(ordermap, err) := Dao.GetOrdersByHash (db processor) orderhashList in
        match err with
        | Some _ =>
            Errorf "extractor,tx:%s ringMined event getOrdersByHash error:%s" contractData;;
            mret nilError
        | None =>
            '(fillList, _) ← foldM (matchStep g ordermap contractData) (fillList, [])
                                   (seq 0 (length fillList));
            foldM linkStep fillList (seq 0 (length fillList));;
            mret nilError
        end
    end.

(** *** The other event handlers *)

Definition handleOrderCancelledEvent (contractData : EventData) : Run (option error) :=
  if (length (Topics contractData) <? 2)%nat then
    Errorf "extractor,tx:%s orderCancelled event indexed fields number error" contractData;;
    mret nilError
  else
    contractEvent ← match Event contractData with
                    | CE_OrderCancelled e => mret e
                    | _ => panic
                    end;
    topic1 ← index (Topics contractData) 1;
    let contractEvent :=
      {| EthAccessor.OrderHash := HexToHash topic1;
         EthAccessor.OrderCancelled_data := EthAccessor.OrderCancelled_data contractEvent |} in
    let evt := EthAccessor.OrderCancelled_ConvertDown contractEvent in
    let evt := {| Types.oc_TxInfo := TxInfo contractData; Types.oc_data := Types.oc_data evt |} in
    Debugf "extractor,tx:%s orderCancelled event orderhash:%s, cancelAmount:%s" contractData;;
    Emit OrderManagerExtractorCancel (PubOrderCancelled evt);;
    Emit TxManagerOrderCancelledEvent (PubOrderCancelled evt);;
    mret nilError.

Definition handleCutoffEvent (contractData : EventData) : Run (option error) :=
  if (length (Topics contractData) <? 2)%nat then
    Errorf "extractor,tx:%s cutoffTimestampChanged event indexed fields number error"
           contractData;;
    mret nilError
  else
    contractEvent ← match Event contractData with
                    | CE_Cutoff e => mret e
                    | _ => panic
                    end;
    topic1 ← index (Topics contractData) 1;
    let contractEvent :=
      {| EthAccessor.Cutoff_Owner := HexToAddress topic1;
         EthAccessor.Cutoff_data := EthAccessor.Cutoff_data contractEvent |} in
    let evt := EthAccessor.Cutoff_ConvertDown contractEvent in
    let evt := {| Types.co_TxInfo := TxInfo contractData; Types.co_data := Types.co_data evt |} in
    Debugf "extractor,tx:%s cutoffTimestampChanged event ownerAddress:%s, cutOffTime:%s, status:%d"
           contractData;;
    Emit OrderManagerExtractorCutoff (PubCutoff evt);;
    Emit TxManagerCutoffAllEvent (PubCutoff evt);;
    mret nilError.

Definition handleCutoffPairEvent (contractData : EventData) : Run (option error) :=
  if (length (Topics contractData) <? 2)%nat then
    Errorf "extractor,tx:%s cutoffPair event indexed fields number error" contractData;;
    mret nilError
  else
    contractEvent ← match Event contractData with
                    | CE_CutoffPair e => mret e
                    | _ => panic
                    end;
    topic1 ← index (Topics contractData) 1;
    let contractEvent :=
      {| EthAccessor.CutoffPair_Owner := HexToAddress topic1;
         EthAccessor.CutoffPair_data := EthAccessor.CutoffPair_data contractEvent |} in
    let evt := EthAccessor.CutoffPair_ConvertDown contractEvent in
    let evt := {| Types.cp_TxInfo := TxInfo contractData; Types.cp_data := Types.cp_data evt |} in
    Debugf "extractor,tx:%s cutoffPair event ownerAddress:%s, token1:%s, token2:%s, cutOffTime:%s"
           contractData;;
    Emit OrderManagerExtractorCutoffPair (PubCutoffPair evt);;
    Emit TxManagerCutoffPairEvent (PubCutoffPair evt);;
    mret nilError.

Definition handleTransferEvent (contractData : EventData) : Run (option error) :=
  if (length (Topics contractData) <? 3)%nat then
    Errorf "extractor,tx:%s tokenTransfer event indexed fields number error" contractData;;
    mret nilError
  else
    contractEvent ← match Event contractData with
                    | CE_Transfer e => mret e
                    | _ => panic
                    end;
    topic1 ← index (Topics contractData) 1;
    topic2 ← index (Topics contractData) 2;
    let contractEvent :=
      {| EthAccessor.From := HexToAddress topic1;
         EthAccessor.To := HexToAddress topic2;
         EthAccessor.Transfer_data := EthAccessor.Transfer_data contractEvent |} in
    let transfer := EthAccessor.Transfer_ConvertDown contractEvent in
    let transfer :=
      {| Types.tr_TxInfo := TxInfo contractData;
         Types.tr_Sender := EthAccessor.From contractEvent;
         Types.tr_Receiver := EthAccessor.To contractEvent;
         Types.tr_data := Types.tr_data transfer |} in
    Debugf "extractor,tx:%s tokenTransfer event from:%s, to:%s, value:%s" contractData;;
    Emit AccountTransfer (PubTransfer transfer);;
    Emit TxManagerTransferEvent (PubTransfer transfer);;
    mret nilError.

Definition handleApprovalEvent (processor : AbiProcessor) (contractData : EventData)
  : Run (option error) :=
  if (length (Topics contractData) <? 3)%nat then
    Errorf "extractor,tx:%s approval event indexed fields number error" contractData;;
    mret nilError
  else
    contractEvent ← match Event contractData with
                    | CE_Approval e => mret e
                    | _ => panic
                    end;
    topic1 ← index (Topics contractData) 1;
    topic2 ← index (Topics contractData) 2;
    let contractEvent :=
      {| EthAccessor.Approval_Owner := HexToAddress topic1;
         EthAccessor.Spender := HexToAddress topic2;
         EthAccessor.Approval_data := EthAccessor.Approval_data contractEvent |} in
    let evt := EthAccessor.Approval_ConvertDown contractEvent in
    let evt :=
      {| Types.ap_TxInfo := TxInfo contractData; Types.ap_Spender := Types.ap_Spender evt;
         Types.ap_data := Types.ap_data evt |} in
    Debugf "extractor,tx:%s approval event owner:%s, spender:%s, value:%s" contractData;;
    (if HasSpender processor (Types.ap_Spender evt)
     then Emit AccountApproval (PubApproval evt)
     else mret tt);;
    Emit TxManagerApproveEvent (PubApproval evt);;
    mret nilError.

Definition handleTokenRegisteredEvent (contractData : EventData) : Run (option error) :=
  contractEvent ← match Event contractData with
                  | CE_TokenRegistered e => mret e
                  | _ => panic
                  end;
  let evt := EthAccessor.TokenRegistered_ConvertDown contractEvent in
  let evt := {| Types.tg_TxInfo := TxInfo contractData; Types.tg_data := Types.tg_data evt |} in
  Debugf "extractor,tx:%s tokenRegistered event address:%s, symbol:%s" contractData;;
  Emit TokenRegistered (PubTokenRegistered evt);;
  mret nilError.

Definition handleTokenUnRegisteredEvent (contractData : EventData) : Run (option error) :=
  contractEvent ← match Event contractData with
                  | CE_TokenUnRegistered e => mret e
                  | _ => panic
                  end;
  let evt := EthAccessor.TokenUnRegistered_ConvertDown contractEvent in
  let evt := {| Types.tu_TxInfo := TxInfo contractData; Types.tu_data := Types.tu_data evt |} in
  Debugf "extractor,tx:%s tokenUnregistered event address:%s, symbol:%s" contractData;;
  Emit TokenUnRegistered (PubTokenUnRegistered evt);;
  mret nilError.

Definition handleAddressAuthorizedEvent (contractData : EventData) : Run (option error) :=
  if (length (Topics contractData) <? 2)%nat then
    Errorf "extractor,tx:%s addressAuthorized event indexed fields number error" contractData;;
    mret nilError
  else
    contractEvent ← match Event contractData with
                    | CE_AddressAuthorized e => mret e
                    | _ => panic
                    end;
    topic1 ← index (Topics contractData) 1;
    let contractEvent :=
      {| EthAccessor.Authorized_ContractAddress := HexToAddress topic1;
         EthAccessor.Authorized_data := EthAccessor.Authorized_data contractEvent |} in
    let evt := EthAccessor.AddressAuthorized_ConvertDown contractEvent in
    let evt := {| Types.aa_TxInfo := TxInfo contractData; Types.aa_data := Types.aa_data evt |} in
    Debugf "extractor,tx:%s addressAuthorized event address:%s, number:%d" contractData;;
    Emit AddressAuthorized (PubAddressAuthorized evt);;
    mret nilError.

Definition handleAddressDeAuthorizedEvent (contractData : EventData) : Run (option error) :=
  if (length (Topics contractData) <? 2)%nat then
    Errorf "extractor,tx:%s addressDeAuthorized event indexed fields number error" contractData;;
    mret nilError
  else
    contractEvent ← match Event contractData with
                    | CE_AddressDeAuthorized e => mret e
                    | _ => panic
                    end;
    topic1 ← index (Topics contractData) 1;
    let contractEvent :=
      {| EthAccessor.DeAuthorized_ContractAddress := HexToAddress topic1;
         EthAccessor.DeAuthorized_data := EthAccessor.DeAuthorized_data contractEvent |} in
    let evt := EthAccessor.AddressDeAuthorized_ConvertDown contractEvent in
    let evt := {| Types.ad_TxInfo := TxInfo contractData; Types.ad_data := Types.ad_data evt |} in
    Debugf "extractor,tx:%s addressDeAuthorized event address:%s, number:%d" contractData;;
    Emit AddressAuthorized (PubAddressDeAuthorized evt);;
    mret nilError.

Definition handleWethDepositEvent (contractData : EventData) : Run (option error) :=
  if (length (Topics contractData) <? 2)%nat then
    Errorf "extractor,tx:%s wethDeposit event indexed fields number error" contractData;;
    mret nilError
  else
    contractEvent ← match Event contractData with
                    | CE_WethDeposit e => mret e
                    | _ => panic
                    end;
    let evt := EthAccessor.WethDeposit_ConvertDown contractEvent in
    topic1 ← index (Topics contractData) 1;
    let evt :=
      {| Types.wd_TxInfo := TxInfo contractData; Types.wd_Owner := HexToAddress topic1;
         Types.wd_data := Types.wd_data evt |} in
    Debugf "extractor,tx:%s wethDeposit event deposit to:%s, number:%s" contractData;;
    Emit WethDepositEvent (PubWethDeposit evt);;
    Emit TxManagerWethDepositEvent (PubWethDeposit evt);;
    mret nilError.

Definition handleWethWithdrawalEvent (contractData : EventData) : Run (option error) :=
  if (length (Topics contractData) <? 2)%nat then
    Errorf "extractor,tx:%s wethWithdrawal event indexed fields number error" contractData;;
    mret nilError
  else
    contractEvent ← match Event contractData with
                    | CE_WethWithdrawal e => mret e
                    | _ => panic
                    end;
    let evt := EthAccessor.WethWithdrawal_ConvertDown contractEvent in
    topic1 ← index (Topics contractData) 1;
    let evt :=
      {| Types.ww_TxInfo := TxInfo contractData; Types.ww_Owner := HexToAddress topic1;
         Types.ww_data := Types.ww_data evt |} in
    Debugf "extractor,tx:%s wethWithdrawal event withdrawal from:%s, number:%s" contractData;;
    Emit WethWithdrawalEvent (PubWethWithdrawal evt);;
    Emit TxManagerWethWithdrawalEvent (PubWethWithdrawal evt);;
    mret nilError.

(** *** The subscriptions *)

Definition RINGMINED_EVT_NAME := "RingMined".
Definition CANCEL_EVT_NAME := "OrderCancelled".
Definition CUTOFF_EVT_NAME := "AllOrdersCancelled".
Definition CUTOFFPAIR_EVT_NAME := "OrdersCancelled".
Definition TOKENREGISTERED_EVT_NAME := "TokenRegistered".
Definition TOKENUNREGISTERED_EVT_NAME := "TokenUnregistered".
Definition ADDRESSAUTHORIZED_EVT_NAME := "AddressAuthorized".
Definition ADDRESSDEAUTHORIZED_EVT_NAME := "AddressDeauthorized".
Definition TRANSFER_EVT_NAME := "Transfer".
Definition APPROVAL_EVT_NAME := "Approval".
Definition WETHDEPOSIT_EVT_NAME := "Deposit".
Definition WETHWITHDRAWAL_EVT_NAME := "Withdrawal".

(** The handler the [load...] functions subscribe for an event of a given
    name (each with [Concurrent: false]); [None] for a name they skip. *)
Definition eventWatcher (processor : AbiProcessor) (g : MarketUtil.Globals)
    (name : string) : option (EventData -> Run (option error)) :=
  if String.eqb name RINGMINED_EVT_NAME then Some (handleRingMinedEvent processor g)
  else if String.eqb name CANCEL_EVT_NAME then Some handleOrderCancelledEvent
  else if String.eqb name CUTOFF_EVT_NAME then Some handleCutoffEvent
  else if String.eqb name CUTOFFPAIR_EVT_NAME then Some handleCutoffPairEvent
  else if String.eqb name TRANSFER_EVT_NAME then Some handleTransferEvent
  else if String.eqb name APPROVAL_EVT_NAME then Some (handleApprovalEvent processor)
  else if String.eqb name WETHDEPOSIT_EVT_NAME then Some handleWethDepositEvent
  else if String.eqb name WETHWITHDRAWAL_EVT_NAME then Some handleWethWithdrawalEvent
  else if String.eqb name TOKENREGISTERED_EVT_NAME then Some handleTokenRegisteredEvent
  else if String.eqb name TOKENUNREGISTERED_EVT_NAME then Some handleTokenUnRegisteredEvent
  else if String.eqb name ADDRESSAUTHORIZED_EVT_NAME then Some handleAddressAuthorizedEvent
  else if String.eqb name ADDRESSDEAUTHORIZED_EVT_NAME
       then Some handleAddressDeAuthorizedEvent
  else None.

(** How many topics a handler reads: one more than the highest index [i] of
    a [contractData.Topics[i]] in its body, 0 when it reads none. *)
Definition topicsRead (name : string) : nat :=
  if String.eqb name TRANSFER_EVT_NAME || String.eqb name APPROVAL_EVT_NAME then 3
  else if String.eqb name TOKENREGISTERED_EVT_NAME
          || String.eqb name TOKENUNREGISTERED_EVT_NAME then 0
  else 2.

(** The trace after one more [Errorf] line. *)
Definition withError (fmt : string) (contractData : EventData) (t : Trace) : Trace :=
  {| logged := (logged t ++
                [{| level := LvError; format := fmt;
                    txHash := Hash_Hex (Types.tx_TxHash (TxInfo contractData)) |}])%list;
     emitted := emitted t |}.

(** The events published on a topic, in order. *)
Definition publishedOn (topic : Topic) (t : Trace) : list Published :=
  (filter (fun e => Topic_eqb e.1 topic = true) (emitted t)).*2.

(** The pointers of the fills published on a topic, in order. *)
Definition fillsOn (topic : Topic) (t : Trace) : list nat :=
  omap (fun p => match p with PubOrderFilled ptr _ => Some ptr | _ => None end)
       (publishedOn topic t).

(** *** Filling in an event *)

Context `{!Zeros} `{!Types.Constants} {Address_eq_dec : EqDecision Address}.

(** [setTxInfo(tx, receipt, blockTime)]; [LogIndex] and [Status] keep their
    zero value. *)
Definition setTxInfo (tx : EthAccessor.Transaction)
    (receipt : option EthAccessor.TransactionReceipt) (blockTime : Z) : Types.TxInfo :=
  {| Types.tx_Protocol := HexToAddress (EthAccessor.Tx_To tx);
     Types.tx_From := HexToAddress (EthAccessor.Tx_From tx);
     Types.tx_To := HexToAddress (EthAccessor.Tx_To tx);
     Types.tx_BlockHash := HexToHash (EthAccessor.Tx_BlockHash tx);
     Types.tx_BlockNumber := EthAccessor.Tx_BlockNumber tx;
     Types.tx_BlockTime := Int64 blockTime;
     Types.tx_TxHash := HexToHash (EthAccessor.Tx_Hash tx);
     Types.tx_LogIndex := 0;
     Types.tx_Status := 0;
     Types.tx_GasLimit := EthAccessor.Tx_Gas tx;
     Types.tx_GasUsed := match receipt with
                         | Some r => EthAccessor.Receipt_GasUsed r
                         | None => 0%Z
                         end;
     Types.tx_GasPrice := EthAccessor.Tx_GasPrice tx;
     Types.tx_Nonce := EthAccessor.Tx_Nonce tx;
     Types.tx_Symbol := "" |}.

(** [event.FullFilled(evtLog, tx, receipt, blockTime)]. *)
Definition FullFilled (event : EventData) (evtLog : EthAccessor.Log)
    (tx : EthAccessor.Transaction) (receipt : option EthAccessor.TransactionReceipt)
    (blockTime : Z) : EventData :=
  let txinfo := setTxInfo tx receipt blockTime in
  {| TxInfo :=
       {| Types.tx_Protocol := HexToAddress (EthAccessor.Log_Address evtLog);
          Types.tx_From := Types.tx_From txinfo;
          Types.tx_To := Types.tx_To txinfo;
          Types.tx_BlockHash := Types.tx_BlockHash txinfo;
          Types.tx_BlockNumber := Types.tx_BlockNumber txinfo;
          Types.tx_BlockTime := Types.tx_BlockTime txinfo;
          Types.tx_TxHash := Types.tx_TxHash txinfo;
          Types.tx_LogIndex := wrapInt64 (Int64 (EthAccessor.Log_LogIndex evtLog) + 1);
          Types.tx_Status := Types.TX_STATUS_SUCCESS;
          Types.tx_GasLimit := Types.tx_GasLimit txinfo;
          Types.tx_GasUsed := Types.tx_GasUsed txinfo;
          Types.tx_GasPrice := Types.tx_GasPrice txinfo;
          Types.tx_Nonce := Types.tx_Nonce txinfo;
          Types.tx_Symbol := Types.tx_Symbol txinfo |};
     Event := Event event;
     Id := Id event;
     Name := Name event;
     Topics := EthAccessor.Log_Topics evtLog |}.

(** *** The address tables *)

(** The [protocols] and [delegates] maps of the processor, each by its
    lookup. *)
Record AddressBook := {
  protocols : Address -> option string;
  book_delegates : Address -> option string
}.

(** [m[k] = v]. *)
Definition mapSet {V} (m : Address -> option V) (k : Address) (v : V)
  : Address -> option V :=
  fun a => if decide (a = k) then Some v else m a.

(** The two maps as [newAbiProcessor] makes them. *)
Definition emptyBook : AddressBook :=
  {| protocols := fun _ => None; book_delegates := fun _ => None |}.

(** [processor.loadProtocolAddress()], over [util.AllTokens] and the entries
    of [ethaccessor.ProtocolAddresses()] in iteration order.  The [log.Infof]
    lines are left out. *)
Definition loadProtocolAddress (g : MarketUtil.Globals)
    (protocolAddresses : list EthAccessor.ProtocolAddress) (book : AddressBook)
  : AddressBook :=
  let book :=
    foldl (fun bk v =>
             {| protocols := mapSet (protocols bk) (Types.Protocol v) (Types.Symbol v);
                book_delegates := book_delegates bk |})
          book (MarketUtil.rangeValues (MarketUtil.AllTokens g)) in
  foldl (fun bk v =>
           let protocolSymbol := "loopring" in
           let delegateSymbol := "transfer_delegate" in
           let tokenRegisterSymbol := "token_register" in
           {| protocols :=
                mapSet (mapSet (mapSet (protocols bk)
                                       (EthAccessor.ContractAddress v) protocolSymbol)
                               (EthAccessor.TokenRegistryAddress v) tokenRegisterSymbol)
                       (EthAccessor.DelegateAddress v) delegateSymbol;
              book_delegates :=
                mapSet (book_delegates bk) (EthAccessor.DelegateAddress v) delegateSymbol |})
        book protocolAddresses.

(** [processor.HasContract(protocol)]. *)
Definition HasContract (book : AddressBook) (protocol : Address) : bool :=
  bool_decide (is_Some (protocols book protocol)).

(** [newAbiProcessor(db, accountmanager)], as far as the address tables and
    the store go: the processor the event handlers read, and its address
    tables. *)
Definition newAbiProcessor (store : Dao.RdsService) (g : MarketUtil.Globals)
    (protocolAddresses : list EthAccessor.ProtocolAddress)
  : AbiProcessor * AddressBook :=
  let book := loadProtocolAddress g protocolAddresses emptyBook in
  ({| delegates := book_delegates book; db := store |}, book).

(** *** The struct of an event *)

(** The dynamic type of [EventData.Event]: what a handler's type assertion
    looks at. *)
Inductive EventKind :=
  | RingMinedKind
  | OrderCancelledKind
  | CutoffKind
  | CutoffPairKind
  | TransferKind
  | ApprovalKind
  | TokenRegisteredKind
  | TokenUnRegisteredKind
  | AddressAuthorizedKind
  | AddressDeAuthorizedKind
  | WethDepositKind
  | WethWithdrawalKind.

Definition kindOf (e : ContractEvent) : EventKind :=
  match e with
  | CE_RingMined _ => RingMinedKind
  | CE_OrderCancelled _ => OrderCancelledKind
  | CE_Cutoff _ => CutoffKind
  | CE_CutoffPair _ => CutoffPairKind
  | CE_Transfer _ => TransferKind
  | CE_Approval _ => ApprovalKind
  | CE_TokenRegistered _ => TokenRegisteredKind
  | CE_TokenUnRegistered _ => TokenUnRegisteredKind
  | CE_AddressAuthorized _ => AddressAuthorizedKind
  | CE_AddressDeAuthorized _ => AddressDeAuthorizedKind
  | CE_WethDeposit _ => WethDepositKind
  | CE_WethWithdrawal _ => WethWithdrawalKind
  end.

(** The struct the [load...] functions allocate into [contract.Event] for an
    event of a given name ([contract.Event = &ethaccessor.RingMinedEvent{}]
    and so on); [None] for a name they skip. *)
Definition contractEventKind (name : string) : option EventKind :=
  if String.eqb name RINGMINED_EVT_NAME then Some RingMinedKind
  else if String.eqb name CANCEL_EVT_NAME then Some OrderCancelledKind
  else if String.eqb name CUTOFF_EVT_NAME then Some CutoffKind
  else if String.eqb name CUTOFFPAIR_EVT_NAME then Some CutoffPairKind
  else if String.eqb name TRANSFER_EVT_NAME then Some TransferKind
  else if String.eqb name APPROVAL_EVT_NAME then Some ApprovalKind
  else if String.eqb name WETHDEPOSIT_EVT_NAME then Some WethDepositKind
  else if String.eqb name WETHWITHDRAWAL_EVT_NAME then Some WethWithdrawalKind
  else if String.eqb name TOKENREGISTERED_EVT_NAME then Some TokenRegisteredKind
  else if String.eqb name TOKENUNREGISTERED_EVT_NAME then Some TokenUnRegisteredKind
  else if String.eqb name ADDRESSAUTHORIZED_EVT_NAME then Some AddressAuthorizedKind
  else if String.eqb name ADDRESSDEAUTHORIZED_EVT_NAME then Some AddressDeAuthorizedKind
  else None.

(** The transaction info a published event carries. *)
Definition txInfoOf (p : Published) : Types.TxInfo :=
  match p with
  | PubRingMined e => Types.rm_TxInfo e
  | PubOrderFilled _ e => Types.of_TxInfo e
  | PubOrderCancelled e => Types.oc_TxInfo e
  | PubCutoff e => Types.co_TxInfo e
  | PubCutoffPair e => Types.cp_TxInfo e
  | PubTransfer e => Types.tr_TxInfo e
  | PubApproval e => Types.ap_TxInfo e
  | PubTokenRegistered e => Types.tg_TxInfo e
  | PubTokenUnRegistered e => Types.tu_TxInfo e
  | PubAddressAuthorized e => Types.aa_TxInfo e
  | PubAddressDeAuthorized e => Types.ad_TxInfo e
  | PubWethDeposit e => Types.wd_TxInfo e
  | PubWethWithdrawal e => Types.ww_TxInfo e
  end.

(** A fill after the second loop of the ring-mined handler: with the order's
    tokens, owner and market when the store knows its order hash. *)
Definition matchedFill (g : MarketUtil.Globals) (ordermap : gmap string Dao.Order)
    (v : Types.OrderFilledEvent) : Types.OrderFilledEvent :=
  match ordermap !! Hash_Hex (Types.of_OrderHash v) with
  | Some ord => fill_setOrder g ord v
  | None => v
  end.

(** The places in the ring that the third loop reads for a fill's
    counterparties. *)
Definition sellToIndex (length i : nat) : nat :=
  if (i =? length - 1)%nat then 0 else i + 1.

Definition buyFromIndex (length i : nat) : nat :=
  if (i =? 0)%nat then length - 1 else i - 1.

(** What the second loop publishes for the fill at place [i]: the fill with
    its order's tokens, owner and market, when the store knows the order. *)
Definition matchEvent (g : MarketUtil.Globals) (ordermap : gmap string Dao.Order)
    (fillList : list Types.OrderFilledEvent) (i : nat) : option (Topic * Published) :=
  v ← fillList !! i;
  match ordermap !! Hash_Hex (Types.of_OrderHash v) with
  | Some ord => Some (OrderManagerExtractorFill, PubOrderFilled i (fill_setOrder g ord v))
  | None => None
  end.

(** What the third loop publishes for the fill at place [i] of a list: the
    fill with its sell-to and buy-from set to the owners of the fills after
    and before it in the ring. *)
Definition linkEvent (fillList : list Types.OrderFilledEvent) (i : nat)
  : option (Topic * Published) :=
  fill ← fillList !! i;
  sellTo ← fillList !! sellToIndex (length fillList) i;
  buyFrom ← fillList !! buyFromIndex (length fillList) i;
  Some (TxManagerOrderFilledEvent,
        PubOrderFilled i (fill_setCounterparties (Types.of_Owner sellTo)
                                                 (Types.of_Owner buyFrom) fill)).

(** A run that appends events of the log's transaction to the trace, and
    returns nil when the log carries the struct of the given type. *)
Definition appends (kind : EventKind) (contractData : EventData) (t : Trace)
    (r : Outcome (option error) * Trace) : Prop :=
  (exists new,
      emitted r.2 = (emitted t ++ new)%list
      /\ Forall (fun p => txInfoOf p.2 = TxInfo contractData) new)
  /\ (kindOf (Event contractData) = kind -> r.1 = Returned nilError).

End Processor.
End Extractor.

(** ** Package [extractor]: the method handlers and plain transfers *)

Module Methods.
Import GoStrings EthCommon GoBig EventEmitter.

Section Methods.
Context `{Unicode} `{Common} `{!Dao.Rows} `{BigText} `{Abi} `{!EthAccessor.Converters}.
Context `{!Zeros} `{!Types.Constants} `{!EthAccessor.MethodConverters}.
Context {Address_eq_dec : EqDecision Address}.

(** What [MethodData.Method] holds: nil, or a pointer to one of the
    [ethaccessor] method structs. *)
Inductive ContractMethod :=
  | CM_nil
  | CM_SubmitRing (m : Data)
  | CM_CancelOrder (m : Data)
  | CM_Cutoff (m : Data)
  | CM_CutoffPair (m : Data)
  | CM_Transfer (m : Data)
  | CM_Approve (m : Data)
  | CM_WethWithdrawal (m : Data).

(** [MethodData]; its [CAbi] field is kept inside [UnpackMethodInput]. *)
Record MethodData := {
  TxInfo : Types.TxInfo;
  Method : ContractMethod;
  Id : string;
  Name : string;
  Value : Z;
  Input : string
}.

(** [method.FullFilled(tx, receipt, blockTime, status)]. *)
Definition FullFilled (method : MethodData) (tx : EthAccessor.Transaction)
    (receipt : option EthAccessor.TransactionReceipt) (blockTime : Z) (status : Z)
  : MethodData :=
  let txinfo := Extractor.setTxInfo tx receipt blockTime in
  {| TxInfo :=
       {| Types.tx_Protocol := Types.tx_Protocol txinfo;
          Types.tx_From := Types.tx_From txinfo;
          Types.tx_To := Types.tx_To txinfo;
          Types.tx_BlockHash := Types.tx_BlockHash txinfo;
          Types.tx_BlockNumber := Types.tx_BlockNumber txinfo;
          Types.tx_BlockTime := Types.tx_BlockTime txinfo;
          Types.tx_TxHash := Types.tx_TxHash txinfo;
          Types.tx_LogIndex := 0;
          Types.tx_Status := status;
          Types.tx_GasLimit := Types.tx_GasLimit txinfo;
          Types.tx_GasUsed := Types.tx_GasUsed txinfo;
          Types.tx_GasPrice := Types.tx_GasPrice txinfo;
          Types.tx_Nonce := Types.tx_Nonce txinfo;
          Types.tx_Symbol := Types.tx_Symbol txinfo |};
     Method := Method method;
     Id := Id method;
     Name := Name method;
     Value := EthAccessor.Tx_Value tx;
     Input := EthAccessor.Tx_Input tx |}.

(** [method.processNeeded()]. *)
Definition processNeeded (method : MethodData) : bool :=
  (Types.tx_Status (TxInfo method) =? Types.TX_STATUS_FAILED)%Z
  || (Types.tx_Status (TxInfo method) =? Types.TX_STATUS_PENDING)%Z.

(** [m.IsValid()]. *)
Definition IsValid (m : MethodData) : option error :=
  if (Types.tx_Status (TxInfo m) =? Types.TX_STATUS_FAILED)%Z
  then Some ("method " +:+ Name m +:+ " transaction failed")
  else None.

(** What [eventemitter.Emit] is handed by a method handler. *)
Inductive Published :=
  | PubSubmitRing (e : Types.SubmitRingMethodEvent)
  | PubOrderCancelled (e : Types.OrderCancelledMethodEvent)
  | PubCutoff (e : Types.CutoffMethodEvent)
  | PubCutoffPair (e : Types.CutoffPairMethodEvent)
  | PubApprove (e : Types.ApproveMethodEvent)
  | PubTransfer (e : Types.TransferMethodEvent)
  | PubWethDeposit (e : Types.WethDepositMethodEvent)
  | PubWethWithdrawal (e : Types.WethWithdrawalMethodEvent)
  | PubEthTransfer (e : Types.EthTransferEvent).

(** What a method handler leaves behind, and a run of one: as for the event
    handlers. *)
Record Trace := {
  logged : list Extractor.LogLine;
  emitted : list (MethodTopic * Published)
}.

Definition emptyTrace : Trace := {| logged := []; emitted := [] |}.

Definition Run (A : Type) : Type := Trace -> Extractor.Outcome A * Trace.

Global Instance Run_ret : MRet Run := fun A a t => (Extractor.Returned a, t).

Global Instance Run_bind : MBind Run := fun A B f m t =>
  match m t with
  | (Extractor.Returned a, t') => f a t'
  | (Extractor.Panicked, t') => (Extractor.Panicked, t')
  end.

Definition panic {A} : Run A := fun t => (Extractor.Panicked, t).

Definition logf (lv : Extractor.Level) (fmt : string) (contract : MethodData) : Run unit :=
  fun t =>
    (Extractor.Returned tt,
     {| logged := (logged t ++
                   [{| Extractor.level := lv; Extractor.format := fmt;
                       Extractor.txHash := Hash_Hex (Types.tx_TxHash (TxInfo contract)) |}])%list;
        emitted := emitted t |}).

Definition Errorf := logf Extractor.LvError.
Definition Debugf := logf Extractor.LvDebug.

Definition Emit (topic : MethodTopic) (data : Published) : Run unit :=
  fun t => (Extractor.Returned tt,
            {| logged := logged t; emitted := (emitted t ++ [(topic, data)])%list |}).

(** [s[n:]]: a panic when [s] has fewer than [n] bytes. *)
Definition sliceFrom (s : string) (n : nat) : Run string :=
  if (String.length s <? n)%nat then panic
  else mret (String.substring n (String.length s - n) s).

(** [hexutil.MustDecode(input)]. *)
Definition MustDecode (input : string) : Run EthAccessor.Bytes :=
  match EthAccessor.hexutil_Decode input with
  | Some data => mret data
  | None => panic
  end.

Definition nilError : option error := None.

Definition handleSubmitRingMethod (contract : MethodData) : Run (option error) :=
  let evt := {| Types.sr_TxInfo := TxInfo contract; Types.sr_Err := IsValid contract |} in
  Debugf "extractor,tx:%s submitRing method gas:%s, gasprice:%s" contract;;
  Emit Miner_SubmitRing_Method (PubSubmitRing evt);;
  mret nilError.

Definition handleCancelOrderMethod (contract : MethodData) : Run (option error) :=
  contractEvent ← match Method contract with
                  | CM_CancelOrder m => mret m
                  | _ => panic
                  end;
  input ← sliceFrom (Input contract) 10;
  data ← MustDecode ("0x" +:+ input);
  let '(contractEvent, err) :=
    EthAccessor.UnpackMethodInput contractEvent (Name contract) data in
  match err with
  | Some _ =>
      Errorf "extractor,tx:%s cancelOrder method unpack error:%s" contract;;
      mret nilError
  | None =>
      let '(orderHash, cancelAmount) :=
        EthAccessor.CancelOrderMethod_ConvertDown contractEvent in
      Debugf "extractor,tx:%s cancelOrder method order tokenS:%s,tokenB:%s,amountS:%s,amountB:%s"
             contract;;
      let tmCancelEvent :=
        {| Types.ocm_TxInfo := TxInfo contract; Types.ocm_OrderHash := orderHash;
           Types.ocm_AmountCancelled := cancelAmount |} in
      Emit OrderCanceled (PubOrderCancelled tmCancelEvent);;
      mret nilError
  end.

Definition handleCutoffMethod (contract : MethodData) : Run (option error) :=
  contractMethod ← match Method contract with
                   | CM_Cutoff m => mret m
                   | _ => panic
                   end;
  input ← sliceFrom (Input contract) 10;
  data ← MustDecode ("0x" +:+ input);
  let '(contractMethod, err) :=
    EthAccessor.UnpackMethodInput contractMethod (Name contract) data in
  match err with
  | Some _ =>
      Errorf "extractor,tx:%s cutoff method unpack error:%s" contract;;
      mret nilError
  | None =>
      let cutoff := EthAccessor.CutoffMethod_ConvertDown contractMethod in
      let cutoff :=
        {| Types.cm_TxInfo := TxInfo contract;
           Types.cm_Owner := Types.tx_From (TxInfo contract);
           Types.cm_data := Types.cm_data cutoff |} in
      Debugf "extractor,tx:%s cutoff method owner:%s, cutoff:%d, status:%d" contract;;
      Emit TxManagerCutoffAllMethod (PubCutoff cutoff);;
      mret nilError
  end.

Definition handleCutoffPairMethod (contract : MethodData) : Run (option error) :=
  contractMethod ← match Method contract with
                   | CM_CutoffPair m => mret m
                   | _ => panic
                   end;
  input ← sliceFrom (Input contract) 10;
  data ← MustDecode ("0x" +:+ input);
  let '(contractMethod, err) :=
    EthAccessor.UnpackMethodInput contractMethod (Name contract) data in
  match err with
  | Some _ =>
      Errorf "extractor,tx:%s cutoffpair method unpack error:%s" contract;;
      mret nilError
  | None =>
      let cutoffpair := EthAccessor.CutoffPairMethod_ConvertDown contractMethod in
      let cutoffpair :=
        {| Types.cpm_TxInfo := TxInfo contract;
           Types.cpm_Owner := Types.tx_From (TxInfo contract);
           Types.cpm_data := Types.cpm_data cutoffpair |} in
      Debugf "extractor,tx:%s cutoffpair method owenr:%s, token1:%s, token2:%s, cutoff:%d"
             contract;;
      Emit TxManagerCutoffPairMethod (PubCutoffPair cutoffpair);;
      mret nilError
  end.

Definition handleApproveMethod (processor : Extractor.AbiProcessor)
    (contractData : MethodData) : Run (option error) :=
  contractMethod ← match Method contractData with
                   | CM_Approve m => mret m
                   | _ => panic
                   end;
  input ← sliceFrom (Input contractData) 10;
  data ← MustDecode ("0x" +:+ input);
  let '(contractMethod, err) :=
    EthAccessor.UnpackMethodInput contractMethod (Name contractData) data in
  match err with
  | Some _ =>
      Errorf "extractor,tx:%s approve method unpack error:%s" contractData;;
      mret nilError
  | None =>
      let approve := EthAccessor.ApproveMethod_ConvertDown contractMethod in
      let approve :=
        {| Types.apm_TxInfo := TxInfo contractData;
           Types.apm_Owner := Types.tx_From (TxInfo contractData);
           Types.apm_Spender := Types.apm_Spender approve;
           Types.apm_data := Types.apm_data approve |} in
      Debugf "extractor,tx:%s approve method owner:%s, spender:%s, value:%s" contractData;;
      (if Extractor.HasSpender processor (Types.apm_Spender approve)
       then Emit ApproveMethod (PubApprove approve)
       else mret tt);;
      Emit TxManagerApproveMethod (PubApprove approve);;
      mret nilError
  end.

(** The receiver is read from the converted event's own [To], before the
    transaction info of the log is copied in. *)
Definition handleTransferMethod (contractData : MethodData) : Run (option error) :=
  contractMethod ← match Method contractData with
                   | CM_Transfer m => mret m
                   | _ => panic
                   end;
  input ← sliceFrom (Input contractData) 10;
  data ← MustDecode ("0x" +:+ input);
  let '(contractMethod, err) :=
    EthAccessor.UnpackMethodInput contractMethod (Name contractData) data in
  match err with
  | Some _ =>
      Errorf "extractor,tx:%s transfer method unpack error:%s" contractData;;
      mret nilError
  | None =>
      let transfer := EthAccessor.TransferMethod_ConvertDown contractMethod in
      let transfer :=
        {| Types.trm_TxInfo := TxInfo contractData;
           Types.trm_Sender := Types.tx_From (TxInfo contractData);
           Types.trm_Receiver := Types.tx_To (Types.trm_TxInfo transfer);
           Types.trm_data := Types.trm_data transfer |} in
      Debugf "extractor,tx:%s transfer method sender:%s, receiver:%s, value:%s" contractData;;
      Emit TxManagerTransferMethod (PubTransfer transfer);;
      mret nilError
  end.

Definition handleWethDepositMethod (contractData : MethodData) : Run (option error) :=
  let deposit :=
    {| Types.wdm_TxInfo := TxInfo contractData;
       Types.wdm_Owner := Types.tx_From (TxInfo contractData);
       Types.wdm_Value := Value contractData |} in
  Debugf "extractor,tx:%s wethDeposit method from:%s, to:%s, value:%s" contractData;;
  Emit WethDepositMethod (PubWethDeposit deposit);;
  Emit TxManagerWethDepositMethod (PubWethDeposit deposit);;
  mret nilError.

Definition handleWethWithdrawalMethod (contractData : MethodData) : Run (option error) :=
  contractMethod ← match Method contractData with
                   | CM_WethWithdrawal m => mret m
                   | _ => panic
                   end;
  input ← sliceFrom (Input contractData) 10;
  data ← MustDecode ("0x" +:+ input);
  let '(contractMethod, err) :=
    EthAccessor.UnpackMethodInput contractMethod (Name contractData) data in
  match err with
  | Some _ =>
      Errorf "extractor,tx:%s wethWithdrawal method unpack error:%s" contractData;;
      mret nilError
  | None =>
      let withdrawal := EthAccessor.WethWithdrawalMethod_ConvertDown contractMethod in
      let withdrawal :=
        {| Types.wwm_TxInfo := TxInfo contractData;
           Types.wwm_Owner := Types.tx_From (TxInfo contractData);
           Types.wwm_data := Types.wwm_data withdrawal |} in
      Debugf "extractor,tx:%s wethWithdrawal method from:%s, to:%s, value:%s" contractData;;
      Emit WethWithdrawalMethod (PubWethWithdrawal withdrawal);;
      Emit TxManagerWethWithdrawalMethod (PubWethWithdrawal withdrawal);;
      mret nilError
  end.

(** [processor.handleEthTransfer(tx, receipt, time, status)]: the event is
    built field by field; its [BlockHash] is not set. *)
Definition handleEthTransfer (tx : EthAccessor.Transaction)
    (receipt : option EthAccessor.TransactionReceipt) (time : Z) (status : Z)
  : Run (option error) :=
  let dst :=
    {| Types.et_TxInfo :=
         {| Types.tx_Protocol := Types.NilAddress;
            Types.tx_From := HexToAddress (EthAccessor.Tx_From tx);
            Types.tx_To := HexToAddress (EthAccessor.Tx_To tx);
            Types.tx_BlockHash := Hash_zero;
            Types.tx_BlockNumber := EthAccessor.Tx_BlockNumber tx;
            Types.tx_BlockTime := Int64 time;
            Types.tx_TxHash := HexToHash (EthAccessor.Tx_Hash tx);
            Types.tx_LogIndex := 0;
            Types.tx_Status := status;
            Types.tx_GasLimit := EthAccessor.Tx_Gas tx;
            Types.tx_GasUsed := match receipt with
                                | None => 0%Z
                                | Some r => EthAccessor.Receipt_GasUsed r
                                end;
            Types.tx_GasPrice := EthAccessor.Tx_GasPrice tx;
            Types.tx_Nonce := EthAccessor.Tx_Nonce tx;
            Types.tx_Symbol := "ETH" |};
       Types.et_Sender := HexToAddress (EthAccessor.Tx_From tx);
       Types.et_Receiver := HexToAddress (EthAccessor.Tx_To tx);
       Types.et_Value := EthAccessor.Tx_Value tx |} in
  Emit TxManagerEthTransferEvent (PubEthTransfer dst);;
  mret nilError.

(** [market.AccountManager], by the query the sources run (its error is
    dropped). *)
Record AccountManager := { HasUnlocked : string -> bool }.

(** [processor.IsValidEthTransferTransaction(tx)]. *)
Definition IsValidEthTransferTransaction (book : Extractor.AddressBook)
    (accountmanager : AccountManager) (tx : EthAccessor.Transaction) : bool :=
  if Extractor.HasContract book (HexToAddress (EthAccessor.Tx_To tx)) then false
  else if (EthAccessor.Tx_Value tx <=? 0)%Z then false
  else
    let fromUnlocked := HasUnlocked accountmanager (EthAccessor.Tx_From tx) in
    let toUnlocked := HasUnlocked accountmanager (EthAccessor.Tx_To tx) in
    if negb fromUnlocked && negb toUnlocked then false
    else true.

(** *** The subscriptions *)

Definition SUBMITRING_METHOD_NAME := "submitRing".
Definition CANCELORDER_METHOD_NAME := "cancelOrder".
Definition CUTOFF_METHOD_NAME := "cancelAllOrders".
Definition CUTOFFPAIR_METHOD_NAME := "cancelAllOrdersByTradingPair".
Definition WETH_DEPOSIT_METHOD_NAME := "deposit".
Definition WETH_WITHDRAWAL_METHOD_NAME := "withdraw".
Definition APPROVAL_METHOD_NAME := "approve".
Definition TRANSFER_METHOD_NAME := "transfer".

(** The handler the [load...] functions subscribe for a method of a given
    name; [None] for a name they skip. *)
Definition methodWatcher (processor : Extractor.AbiProcessor) (name : string)
  : option (MethodData -> Run (option error)) :=
  if String.eqb name SUBMITRING_METHOD_NAME then Some handleSubmitRingMethod
  else if String.eqb name CANCELORDER_METHOD_NAME then Some handleCancelOrderMethod
  else if String.eqb name CUTOFF_METHOD_NAME then Some handleCutoffMethod
  else if String.eqb name CUTOFFPAIR_METHOD_NAME then Some handleCutoffPairMethod
  else if String.eqb name TRANSFER_METHOD_NAME then Some handleTransferMethod
  else if String.eqb name APPROVAL_METHOD_NAME then Some (handleApproveMethod processor)
  else if String.eqb name WETH_DEPOSIT_METHOD_NAME then Some handleWethDepositMethod
  else if String.eqb name WETH_WITHDRAWAL_METHOD_NAME then Some handleWethWithdrawalMethod
  else None.

(** Whether the [load...] functions allocate a struct into [contract.Method]
    for a method name: all but [deposit] do, each of its handler's type. *)
Definition methodStruct (name : string) (m : Data) : option ContractMethod :=
  if String.eqb name SUBMITRING_METHOD_NAME then Some (CM_SubmitRing m)
  else if String.eqb name CANCELORDER_METHOD_NAME then Some (CM_CancelOrder m)
  else if String.eqb name CUTOFF_METHOD_NAME then Some (CM_Cutoff m)
  else if String.eqb name CUTOFFPAIR_METHOD_NAME then Some (CM_CutoffPair m)
  else if String.eqb name TRANSFER_METHOD_NAME then Some (CM_Transfer m)
  else if String.eqb name APPROVAL_METHOD_NAME then Some (CM_Approve m)
  else if String.eqb name WETH_DEPOSIT_METHOD_NAME then Some CM_nil
  else if String.eqb name WETH_WITHDRAWAL_METHOD_NAME then Some (CM_WethWithdrawal m)
  else None.

(** Whether a method's handler reads [contract.Input[10:]]. *)
Definition readsInput (name : string) : bool :=
  negb (String.eqb name SUBMITRING_METHOD_NAME
        || String.eqb name WETH_DEPOSIT_METHOD_NAME).

(** The trace after one more [Errorf] line. *)
Definition withError (fmt : string) (contract : MethodData) (t : Trace) : Trace :=
  {| logged := (logged t ++
                [{| Extractor.level := Extractor.LvError; Extractor.format := fmt;
                    Extractor.txHash := Hash_Hex (Types.tx_TxHash (TxInfo contract)) |}])%list;
     emitted := emitted t |}.

(** The transaction info a published event carries. *)
Definition txInfoOf (p : Published) : Types.TxInfo :=
  match p with
  | PubSubmitRing e => Types.sr_TxInfo e
  | PubOrderCancelled e => Types.ocm_TxInfo e
  | PubCutoff e => Types.cm_TxInfo e
  | PubCutoffPair e => Types.cpm_TxInfo e
  | PubApprove e => Types.apm_TxInfo e
  | PubTransfer e => Types.trm_TxInfo e
  | PubWethDeposit e => Types.wdm_TxInfo e
  | PubWethWithdrawal e => Types.wwm_TxInfo e
  | PubEthTransfer e => Types.et_TxInfo e
  end.

(** The bytes a handler hands to [UnpackMethodInput]: [contract.Input] from
    its eleventh byte on, decoded. *)
Definition inputData (contract : MethodData) : option EthAccessor.Bytes :=
  if (String.length (Input contract) <? 10)%nat then None
  else EthAccessor.hexutil_Decode
         ("0x" +:+ String.substring 10 (String.length (Input contract) - 10)
                                    (Input contract)).

(** A run that appends events of the method's transaction to the trace, and
    returns nil under a condition. *)
Definition appends (ok : Prop) (contract : MethodData) (t : Trace)
    (r : Extractor.Outcome (option error) * Trace) : Prop :=
  (exists new,
      emitted r.2 = (emitted t ++ new)%list
      /\ Forall (fun p => txInfoOf p.2 = TxInfo contract) new)
  /\ (ok -> r.1 = Extractor.Returned nilError).

End Methods.
End Methods.

(** ** Concrete parameters, for running the model on examples *)

Module Sample.
Import GoStrings EthCommon GoBig.

(** On ASCII text the Unicode tails are never reached; the identity stands
    for them. *)
Definition asciiText : Unicode :=
  {| unicode_ToLower := fun s => s; unicode_TrimSpace := fun s => s |}.

(** Addresses and hashes by their hex text. *)
Definition hexText : Common :=
  {| Address := string; Hash := string;
     HexToAddress := fun s => s; Address_Hex := fun a => a;
     HexToHash := fun s => s; Hash_Hex := fun h => h |}.

(** Token and market rows as (symbol, address) pairs. *)
Definition rows : @Dao.Rows hexText :=
  {| Dao.Token := string * string;
     Dao.Market := string * string;
     Dao.Token_Symbol := fst;
     Dao.Token_ConvertUp := fun v =>
       {| Types.Symbol := fst v; Types.Protocol := snd v : @Address hexText |};
     Dao.Market_ConvertUp := fun v =>
       {| Types.Symbol := fst v; Types.Protocol := snd v : @Address hexText |} |}.

Definition isDigit (c : ascii) : bool :=
  (48 <=? N_of_ascii c)%N && (N_of_ascii c <=? 57)%N.

Fixpoint parseDigits (acc : Z) (s : string) : option Z :=
  match s with
  | EmptyString => Some acc
  | String c s' =>
      if isDigit c then parseDigits (10 * acc + Z.of_N (N_of_ascii c - 48)) s'
      else None
  end.

(** Decimal text with an optional sign; 0 for anything else. *)
Definition parseDecimal (s : string) : Z :=
  match s with
  | EmptyString => 0%Z
  | String c s' =>
      if Ascii.eqb c "-" then default 0%Z (Z.opp <$> parseDigits 0 s')
      else if Ascii.eqb c "+" then default 0%Z (parseDigits 0 s')
      else default 0%Z (parseDigits 0 s)
  end.

Definition decimalText : BigText := {| UnmarshalText := parseDecimal |}.

(** The unpacked data of a log: the order hashes of a ring, in ring order
    (empty for the other events). *)
Definition ringData : Abi := {| Data := list string |}.

Definition zeroTxInfo : @Types.TxInfo hexText :=
  {| Types.tx_Protocol := "" : @Address hexText; Types.tx_From := "" : @Address hexText;
     Types.tx_To := "" : @Address hexText;
     Types.tx_BlockHash := "" : @Hash hexText; Types.tx_BlockNumber := 0;
     Types.tx_BlockTime := 0; Types.tx_TxHash := "" : @Hash hexText;
     Types.tx_LogIndex := 0; Types.tx_Status := 0;
     Types.tx_GasLimit := 0; Types.tx_GasUsed := 0; Types.tx_GasPrice := 0;
     Types.tx_Nonce := 0; Types.tx_Symbol := "" |}.

(** A fill as [ConvertDown] leaves it: its order hash set, the addresses
    zero. *)
Definition newFill (orderHash : string) : @Types.OrderFilledEvent hexText ringData :=
  {| Types.of_TxInfo := zeroTxInfo; Types.of_OrderHash := orderHash : @Hash hexText;
     Types.of_TokenS := "" : @Address hexText; Types.of_TokenB := "" : @Address hexText;
     Types.of_Owner := "" : @Address hexText; Types.of_SellTo := "" : @Address hexText;
     Types.of_BuyFrom := "" : @Address hexText; Types.of_Market := "";
     Types.of_data := [] : @Data ringData |}.

Definition converters : @EthAccessor.Converters hexText ringData :=
  {| EthAccessor.RingMined_ConvertDown :=
       fun e : @EthAccessor.RingMinedEvent hexText ringData =>
       ({| Types.rm_TxInfo := zeroTxInfo; Types.rm_data := EthAccessor.RingMined_data e |},
        map newFill (EthAccessor.RingMined_data e), None);
     EthAccessor.OrderCancelled_ConvertDown := fun e =>
       {| Types.oc_TxInfo := zeroTxInfo; Types.oc_data := EthAccessor.OrderCancelled_data e |};
     EthAccessor.Cutoff_ConvertDown := fun e =>
       {| Types.co_TxInfo := zeroTxInfo; Types.co_data := EthAccessor.Cutoff_data e |};
     EthAccessor.CutoffPair_ConvertDown := fun e =>
       {| Types.cp_TxInfo := zeroTxInfo; Types.cp_data := EthAccessor.CutoffPair_data e |};
     EthAccessor.Transfer_ConvertDown := fun e =>
       {| Types.tr_TxInfo := zeroTxInfo; Types.tr_Sender := "" : @Address hexText;
          Types.tr_Receiver := "" : @Address hexText;
          Types.tr_data := EthAccessor.Transfer_data e |};
     EthAccessor.Approval_ConvertDown := fun e =>
       {| Types.ap_TxInfo := zeroTxInfo; Types.ap_Spender := EthAccessor.Spender e;
          Types.ap_data := EthAccessor.Approval_data e |};
     EthAccessor.TokenRegistered_ConvertDown := fun e =>
       {| Types.tg_TxInfo := zeroTxInfo; Types.tg_data := EthAccessor.TokenRegistered_data e |};
     EthAccessor.TokenUnRegistered_ConvertDown := fun e =>
       {| Types.tu_TxInfo := zeroTxInfo;
          Types.tu_data := EthAccessor.TokenUnRegistered_data e |};
     EthAccessor.AddressAuthorized_ConvertDown := fun e =>
       {| Types.aa_TxInfo := zeroTxInfo; Types.aa_data := EthAccessor.Authorized_data e |};
     EthAccessor.AddressDeAuthorized_ConvertDown := fun e =>
       {| Types.ad_TxInfo := zeroTxInfo; Types.ad_data := EthAccessor.DeAuthorized_data e |};
     EthAccessor.WethDeposit_ConvertDown := fun e =>
       {| Types.wd_TxInfo := zeroTxInfo; Types.wd_Owner := "" : @Address hexText;
          Types.wd_data := EthAccessor.WethDeposit_data e |};
     EthAccessor.WethWithdrawal_ConvertDown := fun e =>
       {| Types.ww_TxInfo := zeroTxInfo; Types.ww_Owner := "" : @Address hexText;
          Types.ww_data := EthAccessor.WethWithdrawal_data e |} |}.

(** A store whose token and market queries return the given rows, and that
    knows no order. *)
Definition rds (tokens : list (@Dao.Token hexText rows))
    (markets : list (@Dao.Market hexText rows)) : @Dao.RdsService hexText rows :=
  {| Dao.FindUnDeniedTokens := (tokens, None);
     Dao.FindUnDeniedMarkets := (markets, None);
     Dao.GetOrdersByHash := fun _ => (∅, None) |}.

Definition initialized (tokens : list (@Dao.Token hexText rows))
    (markets : list (@Dao.Market hexText rows)) : @MarketUtil.Globals hexText :=
  match @MarketUtil.Initialize hexText rows (rds tokens markets)
                               (@MarketUtil.zeroGlobals hexText) with
  | MarketUtil.Returns g => g
  | MarketUtil.Fatal _ => @MarketUtil.zeroGlobals hexText
  end.

(** The registry after [Initialize] on one token, lrc, and one market, weth. *)
Definition lrcWeth : @MarketUtil.Globals hexText :=
  initialized [("lrc", "0x01")] [("weth", "0x02")].

(** The tables with lrc and omg at one address. *)
Definition oneAddress : @MarketUtil.Globals hexText :=
  initialized [("lrc", "0x01"); ("omg", "0x01")] [("weth", "0x02")].

(** The schedule that visits every map in the reverse of [inOrder]. *)
Definition backwards : MarketUtil.Schedule := fun V _ m => reverse (map_to_list m).

(** The registry with the tokens lrc and weth and the market weth. *)
Definition wethMarket : @MarketUtil.Globals hexText :=
  initialized [("lrc", "0x01"); ("weth", "0x02")] [("weth", "0x02")].

(** A store that knows the orders [0xh1] and [0xh3] and no other. *)
Definition twoOrders : @Dao.RdsService hexText rows :=
  {| Dao.FindUnDeniedTokens := ([], None);
     Dao.FindUnDeniedMarkets := ([], None);
     Dao.GetOrdersByHash := fun _ =>
       (<["0xh1" := {| Dao.Order_TokenS := "0x01"; Dao.Order_TokenB := "0x02";
                       Dao.Order_Owner := "0xA"; Dao.Order_OrderHash := "0xh1" |}]>
        (<["0xh3" := {| Dao.Order_TokenS := "0x02"; Dao.Order_TokenB := "0x01";
                        Dao.Order_Owner := "0xC"; Dao.Order_OrderHash := "0xh3" |}]> ∅),
        None) |}.

Definition processor : @Extractor.AbiProcessor hexText rows :=
  {| Extractor.delegates := fun _ => None; Extractor.db := twoOrders |}.

(** A ring-mined log with two topics whose ring holds the orders [0xh1],
    [0xh2], [0xh3]. *)
Definition ringOfThree : @Extractor.EventData hexText ringData :=
  {| Extractor.TxInfo := zeroTxInfo;
     Extractor.Event :=
       Extractor.CE_RingMined
         {| EthAccessor.RingHash := "" : @Hash hexText;
            EthAccessor.RingMined_data := ["0xh1"; "0xh2"; "0xh3"] : @Data ringData |};
     Extractor.Id := "0xsig" : @Hash hexText;
     Extractor.Name := "RingMined";
     Extractor.Topics := ["0xsig"; "0xring"] |}.

(** Of a published fill: its pointer, order hash, owner, sell-to and
    buy-from. *)
Definition fillSummary (p : @Extractor.Published hexText ringData)
  : option (nat * string * string * string * string) :=
  match p with
  | Extractor.PubOrderFilled ptr f =>
      Some (ptr, Types.of_OrderHash f, Types.of_Owner f, Types.of_SellTo f,
            Types.of_BuyFrom f)
  | _ => None
  end.

(** A log of the given event struct with the given topics. *)
Definition logOf (name : string) (e : @Extractor.ContractEvent hexText ringData)
    (topics : list string) : @Extractor.EventData hexText ringData :=
  {| Extractor.TxInfo := zeroTxInfo; Extractor.Event := e;
     Extractor.Id := "0xsig" : @Hash hexText; Extractor.Name := name;
     Extractor.Topics := topics |}.

(** A transfer log that carries one indexed topic instead of two. *)
Definition shortTransfer : @Extractor.EventData hexText ringData :=
  logOf "Transfer"
        (Extractor.CE_Transfer
           {| EthAccessor.From := "" : @Address hexText;
              EthAccessor.To := "" : @Address hexText;
              EthAccessor.Transfer_data := [] : @Data ringData |})
        ["0xsig"; "0xfrom"].

Definition deauthorizedLog : @Extractor.EventData hexText ringData :=
  logOf "AddressDeauthorized"
        (Extractor.CE_AddressDeAuthorized
           {| EthAccessor.DeAuthorized_ContractAddress := "" : @Address hexText;
              EthAccessor.DeAuthorized_data := [] : @Data ringData |})
        ["0xsig"; "0xdelegate"].

(** The zero address and the zero hash, by their text. *)
Definition zeros : @Zeros hexText :=
  {| Address_zero := "" : @Address hexText; Hash_zero := "" : @Hash hexText |}.

(** Sample values for the constants of [types]. *)
Definition constants : @Types.Constants hexText :=
  {| Types.NilAddress := "0x" : @Address hexText;
     Types.TX_STATUS_PENDING := 1;
     Types.TX_STATUS_SUCCESS := 2;
     Types.TX_STATUS_FAILED := 3 |}.

(** A decoder that takes any text after "0x" for its bytes, and an unpacker
    that refuses empty call data. *)
Definition methodConverters : @EthAccessor.MethodConverters hexText ringData :=
  {| EthAccessor.Bytes := string;
     EthAccessor.hexutil_Decode := fun s =>
       if String.prefix "0x" s then Some (String.substring 2 (String.length s - 2) s)
       else None;
     EthAccessor.UnpackMethodInput := fun (m : @Data ringData) _ data =>
       if String.eqb data "" then (m, Some "abi: empty call data")
       else ([data] : @Data ringData, None);
     EthAccessor.CancelOrderMethod_ConvertDown := fun m : @Data ringData =>
       (default "" (head (m : list string)) : @Hash hexText, 0%Z);
     EthAccessor.CutoffMethod_ConvertDown := fun m =>
       {| Types.cm_TxInfo := zeroTxInfo; Types.cm_Owner := "" : @Address hexText;
          Types.cm_data := m |};
     EthAccessor.CutoffPairMethod_ConvertDown := fun m =>
       {| Types.cpm_TxInfo := zeroTxInfo; Types.cpm_Owner := "" : @Address hexText;
          Types.cpm_data := m |};
     EthAccessor.ApproveMethod_ConvertDown := fun m : @Data ringData =>
       {| Types.apm_TxInfo := zeroTxInfo; Types.apm_Owner := "" : @Address hexText;
          Types.apm_Spender := default "" (head (m : list string)) : @Address hexText;
          Types.apm_data := m |};
     EthAccessor.TransferMethod_ConvertDown := fun m =>
       {| Types.trm_TxInfo := zeroTxInfo; Types.trm_Sender := "" : @Address hexText;
          Types.trm_Receiver := "" : @Address hexText; Types.trm_data := m |};
     EthAccessor.WethWithdrawalMethod_ConvertDown := fun m =>
       {| Types.wwm_TxInfo := zeroTxInfo; Types.wwm_Owner := "" : @Address hexText;
          Types.wwm_data := m |} |}.

(** One protocol entry, and the processor made over it. *)
Definition protocolEntry : @EthAccessor.ProtocolAddress hexText :=
  {| EthAccessor.ContractAddress := "0xP" : @Address hexText;
     EthAccessor.TokenRegistryAddress := "0xR" : @Address hexText;
     EthAccessor.DelegateAddress := "0xD" : @Address hexText |}.

Definition newProcessor
  : @Extractor.AbiProcessor hexText rows * @Extractor.AddressBook hexText :=
  @Extractor.newAbiProcessor hexText rows (String.eq_dec : EqDecision (@Address hexText))
                             twoOrders wethMarket [protocolEntry].

(** An approval log whose second indexed topic is the given spender. *)
Definition approvalLog (spender : string) : @Extractor.EventData hexText ringData :=
  logOf "Approval"
        (Extractor.CE_Approval
           {| EthAccessor.Approval_Owner := "" : @Address hexText;
              EthAccessor.Spender := "" : @Address hexText;
              EthAccessor.Approval_data := [] : @Data ringData |})
        ["0xsig"; "0xowner"; spender].

(** A call of [cancelOrder] with the given input. *)
Definition cancelCall (input : string) : @Methods.MethodData hexText ringData :=
  {| Methods.TxInfo := zeroTxInfo;
     Methods.Method := Methods.CM_CancelOrder ([] : @Data ringData);
     Methods.Id := "0x8c59f7ca";
     Methods.Name := "cancelOrder";
     Methods.Value := 0;
     Methods.Input := input |}.

End Sample.

(** * Properties *)

(** ** Fork event keys *)

Section ForkOrdering.
Import OrderManager.

Lemma Less_false_keyLe a b : Less b a = false <-> keyLe a b.
Proof.
  unfold Less, keyLe.
  destruct (Z.eqb_spec (BlockNumber b) (BlockNumber a)); rewrite Z.ltb_ge; lia.
Qed.

Lemma Less_true_keyLe a b : Less a b = true -> keyLe a b.
Proof.
  unfold Less, keyLe.
  destruct (Z.eqb_spec (BlockNumber a) (BlockNumber b)); rewrite Z.ltb_lt; lia.
Qed.

Lemma keyLe_trans a b c : keyLe a b -> keyLe b c -> keyLe a c.
Proof. unfold keyLe. lia. Qed.

Lemma keyLe_antisym a b : keyLe a b -> keyLe b a -> a = b.
Proof.
  destruct a as [ba la], b as [bb lb]. unfold keyLe. simpl. intros Hab Hba.
  assert (ba = bb) by lia. assert (la = lb) by lia. congruence.
Qed.

Lemma insertSorted_perm x l : Permutation (insertSorted x l) (x :: l).
Proof.
  induction l as [|y l IH]; simpl; [reflexivity|].
  destruct (Less y x); [|reflexivity].
  rewrite IH. apply perm_swap.
Qed.

Lemma insertSorted_sorted x l :
  StronglySorted keyLe l -> StronglySorted keyLe (insertSorted x l).
Proof.
  induction 1 as [|y l Hs IH Hall]; simpl.
  - repeat constructor.
  - destruct (Less y x) eqn:E.
    + constructor; [exact IH|].
      apply Less_true_keyLe in E.
      rewrite (List.Forall_forall (keyLe y)). intros z Hz.
      apply (Permutation_in _ (insertSorted_perm x l)) in Hz.
      destruct Hz as [<-|Hz]; [exact E|].
      rewrite List.Forall_forall in Hall. apply Hall. exact Hz.
    + apply Less_false_keyLe in E.
      constructor; [constructor; assumption|].
      constructor; [exact E|].
      eapply List.Forall_impl; [|exact Hall].
      intros z Hz. eapply keyLe_trans; eassumption.
Qed.

Lemma Sort_perm l : Permutation (Sort l) l.
Proof.
  induction l as [|x l IH]; simpl; [reflexivity|].
  unfold Sort in *. simpl. rewrite insertSorted_perm. constructor. exact IH.
Qed.

Lemma Sort_sorted l : StronglySorted keyLe (Sort l).
Proof.
  induction l as [|x l IH]; simpl; [constructor|].
  apply insertSorted_sorted. exact IH.
Qed.

(** A list of keys has one sorted arrangement only, so the outcome does not
    depend on the sorting algorithm. *)
Lemma sorted_perm_unique (l1 : list InnerForkEvent) : forall l2,
  StronglySorted keyLe l1 -> StronglySorted keyLe l2 -> Permutation l1 l2 -> l1 = l2.
Proof.
  induction l1 as [|x l1 IH]; intros l2 H1 H2 HP.
  - apply Permutation_nil in HP. congruence.
  - destruct l2 as [|y l2]; [apply Permutation_sym, Permutation_nil in HP; discriminate|].
    apply StronglySorted_inv in H1 as [H1 Hx].
    apply StronglySorted_inv in H2 as [H2 Hy].
    rewrite List.Forall_forall in Hx, Hy.
    assert (x = y) as ->.
    { assert (In x (y :: l2)) as Hin1
        by (eapply Permutation_in; [exact HP|left; reflexivity]).
      assert (In y (x :: l1)) as Hin2
        by (eapply Permutation_in; [symmetry; exact HP|left; reflexivity]).
      destruct Hin1 as [->|Hin1]; [reflexivity|].
      destruct Hin2 as [->|Hin2]; [reflexivity|].
      apply keyLe_antisym; [apply Hx, Hin2 | apply Hy, Hin1]. }
    f_equal. apply IH; [assumption..|].
    eapply Permutation_cons_inv. exact HP.
Qed.

(** C6.  Sorting a list of fork event keys yields a rearrangement of the
    list in which every key comes before the keys of a higher block number
    and before the keys of its own block with a higher log index; it is the
    only such rearrangement.  The list [(32,3),(32,2),(35,3)] sorts to
    [(32,2),(32,3),(35,3)]. *)
Theorem Sort_orders_fork_event_keys :
  (forall l : InnerForkEventList,
      StronglySorted keyLe (Sort l)
      /\ Permutation (Sort l) l
      /\ (forall l' : InnerForkEventList,
             Permutation l' l -> StronglySorted keyLe l' -> l' = Sort l))
  /\ Sort [ {| BlockNumber := 32; LogIndex := 3 |};
            {| BlockNumber := 32; LogIndex := 2 |};
            {| BlockNumber := 35; LogIndex := 3 |} ]
     = [ {| BlockNumber := 32; LogIndex := 2 |};
         {| BlockNumber := 32; LogIndex := 3 |};
         {| BlockNumber := 35; LogIndex := 3 |} ].
Proof.
  split; [|reflexivity].
  intros l. split; [apply Sort_sorted|]. split; [apply Sort_perm|].
  intros l' HP Hs. apply sorted_perm_unique; [exact Hs|apply Sort_sorted|].
  rewrite HP. symmetry. apply Sort_perm.
Qed.

End ForkOrdering.

(** ** Strings *)

Section StringFacts.
Import GoStrings.

Lemma isASCII_app x y : isASCII (x +:+ y) = isASCII x && isASCII y.
Proof. induction x as [|c x IH]; simpl; [reflexivity|]. rewrite IH. apply andb_assoc. Qed.

Lemma Split_length s sep : length (Split s sep) = S (countByte sep s).
Proof.
  induction s as [|c s IH]; simpl; [reflexivity|].
  destruct (Ascii.eqb c sep); simpl; [congruence|].
  destruct (Split s sep); simpl in *; congruence.
Qed.

Lemma Split_none s sep : countByte sep s = 0 -> Split s sep = [s].
Proof.
  induction s as [|c s IH]; simpl; [reflexivity|].
  destruct (Ascii.eqb c sep); [discriminate|]. simpl. intros E. rewrite (IH E). reflexivity.
Qed.

Lemma Split_once x y sep :
  countByte sep x = 0 -> countByte sep y = 0 ->
  Split (x +:+ String sep y) sep = [x; y].
Proof.
  intros Hx Hy. induction x as [|c x IH]; simpl.
  - rewrite Ascii.eqb_refl, (Split_none _ _ Hy). reflexivity.
  - simpl in Hx. destruct (Ascii.eqb c sep); [discriminate|].
    rewrite (IH Hx). reflexivity.
Qed.

Lemma trimLeftSpace_length s : String.length (trimLeftSpace s) <= String.length s.
Proof. induction s as [|c s IH]; simpl; [lia|]. destruct (asciiSpace c); simpl; lia. Qed.

Lemma trimLeftSpace_fixed_app x y :
  trimLeftSpace x = x -> x <> "" -> trimLeftSpace (x +:+ y) = x +:+ y.
Proof.
  destruct x as [|c x]; [congruence|]. simpl. intros E _.
  destruct (asciiSpace c); [|reflexivity].
  pose proof (trimLeftSpace_length x) as L. rewrite E in L. simpl in L. lia.
Qed.

Lemma trimRightSpace_cons c y :
  trimRightSpace y = y -> y <> "" -> trimRightSpace (String c y) = String c y.
Proof. simpl. intros -> Hy. destruct y; congruence. Qed.

Lemma trimRightSpace_fixed_app x y :
  trimRightSpace y = y -> y <> "" -> trimRightSpace (x +:+ y) = x +:+ y.
Proof.
  intros E Hy. induction x as [|c x IH]; [exact E|].
  change (String c x +:+ y) with (String c (x +:+ y)).
  apply trimRightSpace_cons; [exact IH|]. destruct x; simpl; [exact Hy|discriminate].
Qed.

Lemma countByte_trimLeftSpace s : countByte hyphen (trimLeftSpace s) = countByte hyphen s.
Proof.
  induction s as [|c s IH]; simpl; [reflexivity|].
  destruct (asciiSpace c) eqn:E; [|reflexivity].
  rewrite IH. destruct (Ascii.eqb_spec c hyphen) as [->|]; [discriminate E|reflexivity].
Qed.

Lemma countByte_trimRightSpace s : countByte hyphen (trimRightSpace s) = countByte hyphen s.
Proof.
  induction s as [|c s IH]; simpl; [reflexivity|].
  destruct (trimRightSpace s) as [|c' t] eqn:Et.
  - simpl in IH. rewrite <- IH.
    destruct (asciiSpace c) eqn:E; simpl; [|lia].
    destruct (Ascii.eqb_spec c hyphen) as [->|]; [discriminate E|reflexivity].
  - rewrite <- IH. reflexivity.
Qed.

End StringFacts.

(** ** The token and market registry *)

Section RegistryFacts.
Import GoStrings EthCommon GoBig Types MarketUtil.
Context `{Unicode} `{Common} `{!Dao.Rows} `{BigText}.

Lemma IsSupportedMarket_true g k :
  IsSupportedMarket g k = true <-> is_Some (SupportMarkets g !! k).
Proof. unfold IsSupportedMarket. rewrite bool_decide_eq_true. reflexivity. Qed.

Lemma IsSupportedToken_true g k :
  IsSupportedToken g k = true <-> is_Some (SupportTokens g !! k).
Proof. unfold IsSupportedToken. rewrite bool_decide_eq_true. reflexivity. Qed.

(** What a successful [WrapMarket] returns. *)
Lemma WrapMarket_success g a b market :
  WrapMarket g a b = (market, None) ->
  exists token mkt,
    IsSupportedToken g token = true /\ IsSupportedMarket g mkt = true
    /\ market = sprintfPair token mkt
    /\ ((token, mkt) = (ToLower b, ToLower a) \/ (token, mkt) = (ToLower a, ToLower b)).
Proof.
  unfold WrapMarket.
  destruct (IsSupportedMarket g (ToLower a) && IsSupportedToken g (ToLower b)) eqn:E1.
  - apply andb_true_iff in E1 as [Hm Ht]. intros [= <-].
    exists (ToLower b), (ToLower a). auto.
  - destruct (IsSupportedMarket g (ToLower b) && IsSupportedToken g (ToLower a)) eqn:E2.
    + apply andb_true_iff in E2 as [Hm Ht]. intros [= <-].
      exists (ToLower a), (ToLower b). auto.
    + discriminate.
Qed.

(** C2, amended.  For every pair of symbols [(a, b)] whose lower-cased forms
    [m] and [t] are a registered market and a supported token,
    [WrapMarket(a, b)] succeeds and returns ["<t>-<m>"]: the token symbol
    first, the market symbol second.  [WrapMarket(b, a)] returns the same
    string, unless [t] is also a registered market and [m] also a supported
    token: then it returns ["<m>-<t>"]. *)
Theorem WrapMarket_token_first g (a b : string) :
  is_Some (SupportMarkets g !! ToLower a) ->
  is_Some (SupportTokens g !! ToLower b) ->
  WrapMarket g a b = (sprintfPair (ToLower b) (ToLower a), None)
  /\ WrapMarket g b a =
       (if IsSupportedMarket g (ToLower b) && IsSupportedToken g (ToLower a)
        then sprintfPair (ToLower a) (ToLower b)
        else sprintfPair (ToLower b) (ToLower a), None).
Proof.
  intros Hm Ht.
  apply IsSupportedMarket_true in Hm. apply IsSupportedToken_true in Ht.
  unfold WrapMarket. rewrite Hm, Ht. simpl. split; [reflexivity|].
  destruct (IsSupportedMarket g (ToLower b) && IsSupportedToken g (ToLower a));
    reflexivity.
Qed.

Lemma plainSymbol_inv k :
  plainSymbol k = true ->
  isASCII k = true /\ mapBytes lowerByte k = k /\ countByte hyphen k = 0
  /\ trimLeftSpace k = k /\ trimRightSpace k = k.
Proof.
  unfold plainSymbol. rewrite !andb_true_iff, !String.eqb_eq, Nat.eqb_eq. tauto.
Qed.

Lemma ToLower_plain k : plainSymbol k = true -> ToLower k = k.
Proof.
  intros Hk. apply plainSymbol_inv in Hk as (Ha & Hl & _).
  unfold ToLower. rewrite Ha. exact Hl.
Qed.

Lemma TrimSpace_plain_pair t m :
  plainSymbol t = true -> plainSymbol m = true ->
  TrimSpace (sprintfPair t m) = sprintfPair t m.
Proof.
  intros Ht Hm.
  apply plainSymbol_inv in Ht as (Hat & _ & _ & Hlt & _).
  apply plainSymbol_inv in Hm as (Ham & _ & _ & _ & Hrm).
  unfold TrimSpace, sprintfPair. rewrite !isASCII_app, Hat, Ham. simpl.
  assert (trimLeftSpace (t +:+ "-" +:+ m) = t +:+ "-" +:+ m) as ->.
  { destruct t as [|c t]; [reflexivity|].
    apply trimLeftSpace_fixed_app; [exact Hlt|discriminate]. }
  apply trimRightSpace_fixed_app; [|discriminate].
  change ("-" +:+ m) with (String "-" m). destruct m as [|c m]; [reflexivity|].
  apply trimRightSpace_cons; [exact Hrm|discriminate].
Qed.

Lemma UnWrap_plain_pair t m :
  plainSymbol t = true -> plainSymbol m = true -> UnWrap (sprintfPair t m) = (t, m).
Proof.
  intros Ht Hm. unfold UnWrap. rewrite (TrimSpace_plain_pair _ _ Ht Hm).
  unfold sprintfPair. change ("-" +:+ m) with (String hyphen m).
  rewrite Split_once.
  - rewrite (ToLower_plain _ Ht), (ToLower_plain _ Hm). reflexivity.
  - apply plainSymbol_inv in Ht. tauto.
  - apply plainSymbol_inv in Hm. tauto.
Qed.

Lemma countByte_TrimSpace s :
  (forall s', countByte hyphen (unicode_TrimSpace s') = countByte hyphen s') ->
  countByte hyphen (TrimSpace s) = countByte hyphen s.
Proof.
  intros Hu. unfold TrimSpace. destruct (isASCII s); [|apply Hu].
  rewrite countByte_trimRightSpace. apply countByte_trimLeftSpace.
Qed.

(** C5, amended.  For every pair [(a, b)] on which [WrapMarket] succeeds and
    whose lower-cased symbols are plain (ASCII, without hyphen, without white
    space at either end), [UnWrap(WrapMarket(a, b))] is the pair (token
    symbol, market symbol) of the lower-cased inputs: the token first, the
    market second.  And [UnWrap] of a string that does not hold exactly one
    hyphen is the pair of empty strings (the Unicode trim, as the library's
    does, taking no hyphen away). *)
Theorem UnWrap_WrapMarket_token_first :
  (forall s, countByte hyphen (unicode_TrimSpace s) = countByte hyphen s) ->
  (forall g a b market,
      plainSymbol (ToLower a) = true -> plainSymbol (ToLower b) = true ->
      WrapMarket g a b = (market, None) ->
      exists token mkt,
        IsSupportedToken g token = true /\ IsSupportedMarket g mkt = true
        /\ ((token, mkt) = (ToLower b, ToLower a) \/ (token, mkt) = (ToLower a, ToLower b))
        /\ UnWrap market = (token, mkt))
  /\ (forall s, countByte hyphen s <> 1 -> UnWrap s = ("", "")).
Proof.
  intros Hu. split.
  - intros g a b market Ha Hb Hw.
    destruct (WrapMarket_success _ _ _ _ Hw) as (token & mkt & Ht & Hm & -> & Hor).
    exists token, mkt. repeat split; try assumption.
    destruct Hor as [[= -> ->]|[= -> ->]]; apply UnWrap_plain_pair; assumption.
  - intros s Hs. unfold UnWrap.
    pose proof (Split_length (TrimSpace s) hyphen) as L.
    rewrite (countByte_TrimSpace _ Hu) in L.
    destruct (Split (TrimSpace s) hyphen) as [|m0 [|m1 [|m2 l]]]; try reflexivity.
    simpl in L. exfalso. apply Hs. lia.
Qed.

Lemma setSupportTokens_lookup (tokens : list Dao.Token) v :
  In v tokens -> is_Some (setSupportTokens tokens !! Dao.Token_Symbol v).
Proof.
  unfold setSupportTokens. generalize (∅ : gmap string Token).
  induction tokens as [|x tokens IH]; intros m0 Hin; [destruct Hin|].
  destruct Hin as [->|Hin]; simpl; [|apply IH, Hin].
  clear IH.
  assert (is_Some (<[Dao.Token_Symbol v := Dao.Token_ConvertUp v]> m0
                     !! Dao.Token_Symbol v)) as Hs
    by (rewrite lookup_insert_eq; eauto).
  revert Hs. generalize (<[Dao.Token_Symbol v := Dao.Token_ConvertUp v]> m0).
  induction tokens as [|y tokens IH]; intros m1 Hs; simpl; [exact Hs|].
  apply IH. destruct (decide (Dao.Token_Symbol y = Dao.Token_Symbol v)) as [->|Hne].
  - rewrite lookup_insert_eq. eauto.
  - rewrite lookup_insert_ne; assumption.
Qed.

Lemma setSupportMarkets_lookup (markets : list Dao.Market) v :
  In v markets -> is_Some (setSupportMarkets markets !! Symbol (Dao.Market_ConvertUp v)).
Proof.
  unfold setSupportMarkets. generalize (∅ : gmap string Token).
  induction markets as [|x markets IH]; intros m0 Hin; [destruct Hin|].
  destruct Hin as [->|Hin]; simpl; [|apply IH, Hin].
  clear IH.
  assert (is_Some (<[Symbol (Dao.Market_ConvertUp v) := Dao.Market_ConvertUp v]> m0
                     !! Symbol (Dao.Market_ConvertUp v))) as Hs
    by (rewrite lookup_insert_eq; eauto).
  revert Hs. generalize (<[Symbol (Dao.Market_ConvertUp v) := Dao.Market_ConvertUp v]> m0).
  induction markets as [|y markets IH]; intros m1 Hs; simpl; [exact Hs|].
  apply IH.
  destruct (decide (Symbol (Dao.Market_ConvertUp y) = Symbol (Dao.Market_ConvertUp v)))
    as [->|Hne].
  - rewrite lookup_insert_eq. eauto.
  - rewrite lookup_insert_ne; assumption.
Qed.

(** [Initialize] returns exactly when neither query reports an error, and
    then with these tables. *)
Lemma Initialize_returns rds g g' :
  Initialize rds g = Returns g' <->
  exists tokens markets,
    Dao.FindUnDeniedTokens rds = (tokens, None)
    /\ Dao.FindUnDeniedMarkets rds = (markets, None)
    /\ g' = {| SupportTokens := setSupportTokens tokens;
               AllTokens := setAllTokens (setSupportTokens tokens);
               SupportMarkets := setSupportMarkets markets;
               AllMarkets := (AllMarkets g
                   ++ newMarkets (setSupportTokens tokens) (setSupportMarkets markets))%list;
               AllTokenPairs := (AllTokenPairs g
                   ++ rangeValues (pairsMap (setSupportTokens tokens)
                                            (setSupportMarkets markets)))%list |}.
Proof.
  unfold Initialize.
  destruct (Dao.FindUnDeniedTokens rds) as [tokens [e|]].
  { split; [discriminate|]. intros (? & ? & [=] & _). }
  destruct (Dao.FindUnDeniedMarkets rds) as [markets [e|]].
  { split; [discriminate|]. intros (? & ? & _ & [=] & _). }
  split.
  - intros [= <-]. exists tokens, markets. auto.
  - intros (? & ? & [= <-] & [= <-] & ->). reflexivity.
Qed.

(** [Initialize] ends the process exactly when the token query or the market
    query reports an error: it does not look at the number of rows, and a
    query that returns no row and no error does not end it.  When
    [Initialize] returns, every row of the token query is a supported token
    under its symbol and every row of the market query a supported market, so
    a token (a market) is registered whenever the token (market) query
    returned a row. *)
Theorem Initialize_fatal_on_source_error rds g :
  ((exists msg, Initialize rds g = Fatal msg) <->
   ((Dao.FindUnDeniedTokens rds).2 <> None \/ (Dao.FindUnDeniedMarkets rds).2 <> None))
  /\ (forall g', Initialize rds g = Returns g' ->
        (forall v, In v (Dao.FindUnDeniedTokens rds).1 ->
                   IsSupportedToken g' (Dao.Token_Symbol v) = true)
        /\ (forall v, In v (Dao.FindUnDeniedMarkets rds).1 ->
                      IsSupportedMarket g' (Symbol (Dao.Market_ConvertUp v)) = true)).
Proof.
  split.
  - unfold Initialize.
    destruct (Dao.FindUnDeniedTokens rds) as [tokens [e|]]; simpl.
    { split; [intros _; left; discriminate|eauto]. }
    destruct (Dao.FindUnDeniedMarkets rds) as [markets [e|]]; simpl.
    { split; [intros _; right; discriminate|eauto]. }
    split; [intros [msg [=]]|intros [E|E]; congruence].
  - intros g' Hr. apply Initialize_returns in Hr as (tokens & markets & Et & Em & ->).
    rewrite Et, Em. simpl. split; intros v Hv.
    + apply IsSupportedToken_true. simpl. apply setSupportTokens_lookup, Hv.
    + apply IsSupportedMarket_true. simpl. apply setSupportMarkets_lookup, Hv.
Qed.

(** Every entry of [AllMarkets] and of [AllTokenPairs] is still there, at its
    place, after a further [Initialize]. *)
Lemma Initialize_appends rds g g' :
  Initialize rds g = Returns g' ->
  AllMarkets g `prefix_of` AllMarkets g' /\ AllTokenPairs g `prefix_of` AllTokenPairs g'.
Proof.
  intros Hr. apply Initialize_returns in Hr as (tokens & markets & _ & _ & ->). simpl.
  split; apply prefix_app_r; reflexivity.
Qed.

(** [AllTokens] does not keep anything of the prior snapshot. *)
Lemma Initialize_AllTokens_fresh rds g1 g2 g1' g2' :
  Initialize rds g1 = Returns g1' -> Initialize rds g2 = Returns g2' ->
  AllTokens g1' = AllTokens g2' /\ SupportTokens g1' = SupportTokens g2'
  /\ SupportMarkets g1' = SupportMarkets g2'.
Proof.
  intros Hr1 Hr2.
  apply Initialize_returns in Hr1 as (t1 & m1 & Et1 & Em1 & ->).
  apply Initialize_returns in Hr2 as (t2 & m2 & Et2 & Em2 & ->).
  rewrite Et1 in Et2. rewrite Em1 in Em2.
  injection Et2 as <-. injection Em2 as <-. auto.
Qed.

End RegistryFacts.

(** ** Binary64 rounding *)

Section Binary64Facts.
Import Float64.
Local Open Scope Z_scope.

Lemma digits2_pos_size p : digits2_pos p = Pos.size p.
Proof. induction p; simpl; congruence. Qed.

Lemma digits2_pos_bounds p :
  2 ^ (Zpos (digits2_pos p) - 1) <= Zpos p < 2 ^ Zpos (digits2_pos p).
Proof.
  rewrite digits2_pos_size.
  pose proof (Pos.size_gt p) as Hgt. pose proof (Pos.size_le p) as Hle.
  apply Pos2Z.pos_lt_pos in Hgt. apply Pos2Z.pos_le_pos in Hle.
  rewrite Pos2Z.inj_pow in Hgt, Hle. change (Zpos p~0) with (2 * Zpos p) in Hle.
  split; [|exact Hgt].
  replace (Zpos (Pos.size p)) with (Zpos (Pos.size p) - 1 + 1) in Hle by lia.
  rewrite Z.pow_add_r in Hle by lia. lia.
Qed.

Lemma digits2_pos_unique p k :
  2 ^ (k - 1) <= Zpos p < 2 ^ k -> Zpos (digits2_pos p) = k.
Proof.
  intros [Hlo Hhi]. pose proof (digits2_pos_bounds p) as [Dlo Dhi].
  set (d := Zpos (digits2_pos p)) in *.
  assert (0 < k) as Hk.
  { destruct (Z.lt_trichotomy k 0) as [Hn|[->|Hp]]; [|simpl in Hhi; lia|exact Hp].
    rewrite (Z.pow_neg_r 2 k Hn) in Hhi. lia. }
  destruct (Z.lt_trichotomy d k) as [Hlt|[->|Hgt]]; [|reflexivity|].
  - assert (2 ^ d <= 2 ^ (k - 1)) by (apply Z.pow_le_mono_r; lia). lia.
  - assert (2 ^ k <= 2 ^ (d - 1)) by (apply Z.pow_le_mono_r; lia). lia.
Qed.

Lemma shr_1_m r : 0 <= shr_m r -> shr_m (shr_1 r) = shr_m r / 2.
Proof.
  destruct r as [m rb sb]. simpl. intros Hm. rewrite <- Z.div2_div.
  destruct m as [|[p|p|]|p]; try reflexivity; lia.
Qed.

Lemma iter_shr_1_m p : forall r,
  0 <= shr_m r -> shr_m (SpecFloat.iter_pos shr_1 p r) = shr_m r / 2 ^ Zpos p.
Proof.
  induction p as [p IH|p IH|]; intros r Hr; simpl SpecFloat.iter_pos.
  - assert (0 <= shr_m (shr_1 r)) as H1 by (rewrite shr_1_m by exact Hr; apply Z.div_pos; lia).
    assert (0 <= shr_m (SpecFloat.iter_pos shr_1 p (shr_1 r))) as H2
      by (rewrite IH by exact H1; apply Z.div_pos; [exact H1|apply Z.pow_pos_nonneg; lia]).
    rewrite (IH _ H2), (IH _ H1), (shr_1_m _ Hr).
    rewrite !Z.div_div by (try apply Z.pow_pos_nonneg; lia).
    f_equal. rewrite Pos2Z.inj_xI. rewrite Z.pow_add_r by lia.
    replace (2 * Zpos p) with (Zpos p + Zpos p) by lia. rewrite Z.pow_add_r by lia. lia.
  - assert (0 <= shr_m (SpecFloat.iter_pos shr_1 p r)) as H2
      by (rewrite IH by exact Hr; apply Z.div_pos; [exact Hr|apply Z.pow_pos_nonneg; lia]).
    rewrite (IH _ H2), (IH _ Hr).
    rewrite !Z.div_div by (try apply Z.pow_pos_nonneg; lia).
    f_equal. rewrite <- Z.pow_add_r by lia. f_equal. lia.
  - rewrite (shr_1_m _ Hr). reflexivity.
Qed.

Lemma shr_record_of_loc_m m l : shr_m (shr_record_of_loc m l) = m.
Proof. destruct l as [|[]]; reflexivity. Qed.

Lemma round_nearest_even_range m l :
  m <= round_nearest_even m l <= m + 1.
Proof.
  destruct l as [|[]]; simpl; try lia. destruct (Z.even m); lia.
Qed.

(** Shifting a mantissa of at least 53 digits down to 53 digits. *)
Lemma shr_fexp_normal p e l :
  53 <= Zpos (digits2_pos p) -> -1074 <= e ->
  exists r,
    shr_fexp 53 1024 (Zpos p) e l = (r, e + (Zpos (digits2_pos p) - 53))
    /\ shr_m r = Zpos p / 2 ^ (Zpos (digits2_pos p) - 53).
Proof.
  intros Hd He. unfold shr_fexp, fexp, emin. simpl Zdigits2.
  set (d := Zpos (digits2_pos p)) in *.
  replace (Z.max (d + e - 53) (3 - 1024 - 53) - e) with (d - 53) by lia.
  unfold shr. destruct (d - 53) as [|sh|sh] eqn:Esh; try lia.
  - eexists. split; [f_equal; lia|]. rewrite shr_record_of_loc_m, Z.div_1_r. reflexivity.
  - eexists. split; [reflexivity|].
    rewrite iter_shr_1_m; rewrite shr_record_of_loc_m; [reflexivity|lia].
Qed.

Lemma normal_mantissa_range p :
  53 <= Zpos (digits2_pos p) ->
  2 ^ 52 <= Zpos p / 2 ^ (Zpos (digits2_pos p) - 53) < 2 ^ 53.
Proof.
  intros Hd. pose proof (digits2_pos_bounds p) as [Dlo Dhi].
  set (d := Zpos (digits2_pos p)) in *.
  assert (0 < 2 ^ (d - 53)) as Hpos by (apply Z.pow_pos_nonneg; lia).
  split.
  - apply Z.div_le_lower_bound; [exact Hpos|].
    rewrite <- Z.pow_add_r by lia. replace (d - 53 + 52) with (d - 1) by lia. exact Dlo.
  - apply Z.div_lt_upper_bound; [exact Hpos|].
    rewrite <- Z.pow_add_r by lia. replace (d - 53 + 53) with d by lia. exact Dhi.
Qed.

(** Rounding a mantissa of at least 53 digits: the 53 leading digits or
    their successor, at the exponent raised by the digits dropped; when the
    successor has 54 digits, 2^52 at the next exponent. *)
Lemma binary_round_aux_normal s p e l :
  53 <= Zpos (digits2_pos p) -> -1074 <= e ->
  exists m e',
    binary_round_aux 53 1024 s (Zpos p) e l = finite_or_infinity s m e'
    /\ 2 ^ 52 <= Zpos m < 2 ^ 53
    /\ let sh := Zpos (digits2_pos p) - 53 in
       let m0 := Zpos p / 2 ^ sh in
       (e' = e + sh /\ m0 <= Zpos m <= m0 + 1)
       \/ (e' = e + sh + 1 /\ Zpos m = 2 ^ 52 /\ m0 = 2 ^ 53 - 1).
Proof.
  intros Hd He.
  destruct (shr_fexp_normal p e l Hd He) as (r & Er & Em).
  pose proof (normal_mantissa_range p Hd) as Hm0.
  unfold binary_round_aux. rewrite Er.
  set (sh := Zpos (digits2_pos p) - 53) in *.
  set (m0 := Zpos p / 2 ^ sh) in *.
  rewrite Em.
  pose proof (round_nearest_even_range m0 (loc_of_shr_record r)) as Hr.
  set (m1 := round_nearest_even m0 (loc_of_shr_record r)) in *.
  destruct m1 as [|q|q] eqn:Eq; try lia.
  destruct (Z.eq_dec (Zpos q) (2 ^ 53)) as [Eov|Hne].
  - (* the successor has 54 digits *)
    assert (Zpos (digits2_pos q) = 54) as Hdq by (apply digits2_pos_unique; lia).
    destruct (shr_fexp_normal q (e + sh) loc_Exact) as (r2 & Er2 & Em2); [lia..|].
    rewrite Er2, Em2, Hdq, Eov. change (2 ^ 53 / 2 ^ (54 - 53)) with (Zpos (2 ^ 52)).
    exists (2 ^ 52)%positive, (e + sh + 1). unfold finite_or_infinity.
    replace (e + sh + (54 - 53)) with (e + sh + 1) by lia.
    split; [reflexivity|]. split; [lia|]. right. lia.
  - assert (Zpos (digits2_pos q) = 53) as Hdq by (apply digits2_pos_unique; lia).
    destruct (shr_fexp_normal q (e + sh) loc_Exact) as (r2 & Er2 & Em2); [lia..|].
    rewrite Er2, Em2, Hdq. change (2 ^ (53 - 53)) with 1. rewrite Z.div_1_r.
    exists q, (e + sh). unfold finite_or_infinity.
    replace (e + sh + (53 - 53)) with (e + sh) by lia.
    split; [reflexivity|]. split; [lia|]. left. lia.
Qed.


(** [float64(i)] of a non-zero integer: a normal number (or an infinity)
    whose exponent is set by the number of binary digits of [i]. *)
Lemma binary_round_int s p :
  exists m e,
    binary_round 53 1024 s p 0 = finite_or_infinity s m e
    /\ 2 ^ 52 <= Zpos m < 2 ^ 53
    /\ (e = Zpos (digits2_pos p) - 53
        \/ (e = Zpos (digits2_pos p) - 52 /\ Zpos m = 2 ^ 52)).
Proof.
  unfold binary_round, shl_align, fexp, emin.
  pose proof (digits2_pos_bounds p) as [Dlo Dhi].
  set (d := Zpos (digits2_pos p)) in *.
  replace (Z.max (d + 0 - 53) (3 - 1024 - 53) - 0) with (d - 53) by lia.
  replace (Z.max (d + 0 - 53) (3 - 1024 - 53)) with (d - 53) by lia.
  destruct (d - 53) as [|k|k] eqn:Ek.
  - destruct (binary_round_aux_normal s p 0 loc_Exact) as (m & e & E & Hm & He);
      [unfold d in *; lia|lia|].
    exists m, e. split; [exact E|]. split; [exact Hm|]. cbv zeta in He. unfold d in *.
    destruct He as [[He _]|(He & Hm2 & _)]; [left|right]; clear Dlo Dhi; lia.
  - destruct (binary_round_aux_normal s p 0 loc_Exact) as (m & e & E & Hm & He);
      [unfold d in *; lia|lia|].
    exists m, e. split; [exact E|]. split; [exact Hm|]. cbv zeta in He. unfold d in *.
    destruct He as [[He _]|(He & Hm2 & _)]; [left|right]; clear Dlo Dhi; lia.
  - assert (Zpos (Pos.iter xO p k) = Zpos p * 2 ^ Zpos k) as Esh.
    { change (Pos.iter xO p k) with (shift_pos k p). rewrite shift_pos_correct.
      rewrite Zpower_pos_nat, Zpower_nat_Z, positive_nat_Z. lia. }
    assert (Zpos (digits2_pos (Pos.iter xO p k)) = 53) as Hd.
    { apply digits2_pos_unique. rewrite Esh.
      assert (2 ^ (53 - 1) = 2 ^ (d - 1) * 2 ^ Zpos k) as ->
        by (rewrite <- Z.pow_add_r by lia; f_equal; lia).
      assert (2 ^ 53 = 2 ^ d * 2 ^ Zpos k) as ->
        by (rewrite <- Z.pow_add_r by lia; f_equal; lia).
      assert (0 < 2 ^ Zpos k) by (apply Z.pow_pos_nonneg; lia).
      split; [apply Z.mul_le_mono_nonneg_r; [lia|exact Dlo]
             |apply Z.mul_lt_mono_pos_r; [lia|exact Dhi]]. }
    destruct (binary_round_aux_normal s (Pos.iter xO p k) (Z.neg k) loc_Exact)
      as (m & e & E & Hm & He); [lia|lia|].
    exists m, e. split; [exact E|]. split; [exact Hm|]. rewrite Hd in He. cbv zeta in He.
    unfold d in *. destruct He as [[He _]|(He & Hm2 & _)]; [left|right]; clear Dlo Dhi; lia.
Qed.

Lemma SFdiv_core_by_wei m1 e1 :
  2 ^ 52 <= Zpos m1 < 2 ^ 53 -> -1000 <= e1 ->
  SFdiv_core_binary 53 1024 (Zpos m1) e1 (Zpos weiMantissa) 7
  = (Zpos m1 * 2 ^ 53 / Zpos weiMantissa, e1 - 60,
     new_location (Zpos weiMantissa) (Zpos m1 * 2 ^ 53 mod Zpos weiMantissa)).
Proof.
  intros Hm1 He1. unfold SFdiv_core_binary.
  assert (Zdigits2 (Zpos m1) = 53) as -> by (apply digits2_pos_unique; lia).
  assert (Zdigits2 (Zpos weiMantissa) = 53) as -> by reflexivity.
  cbv zeta. unfold fexp, emin.
  replace (Z.min (Z.max (53 + e1 - (53 + 7) - 53) (3 - 1024 - 53)) (e1 - 7))
    with (e1 - 60) by lia.
  replace (e1 - 7 - (e1 - 60)) with 53 by lia.
  rewrite Z.shiftl_mul_pow2 by lia.
  unfold Z.modulo, Z.div.
  destruct (Z.div_eucl (Zpos m1 * 2 ^ 53) (Zpos weiMantissa)) as [q r]. reflexivity.
Qed.

(** Dividing a normal number by 1e18. *)
Lemma SFdiv_by_wei s m1 e1 :
  2 ^ 52 <= Zpos m1 < 2 ^ 53 -> -1000 <= e1 ->
  exists m e,
    SFdiv 53 1024 (S754_finite s m1 e1) (S754_finite false weiMantissa 7)
    = finite_or_infinity s m e
    /\ e1 - 60 <= e <= e1 - 59.
Proof.
  intros Hm1 He1. unfold SFdiv. rewrite (SFdiv_core_by_wei _ _ Hm1 He1).
  rewrite xorb_false_r.
  set (q := Zpos m1 * 2 ^ 53 / Zpos weiMantissa).
  set (l := new_location _ _).
  assert (2 ^ 52 <= q < 2 ^ 54 - 2) as Hq.
  { unfold q, weiMantissa. split.
    - apply Z.div_le_lower_bound; lia.
    - apply Z.div_lt_upper_bound; lia. }
  destruct q as [|qp|qp]; try lia.
  destruct (Z.lt_ge_cases (Zpos qp) (2 ^ 53)) as [Hlt|Hge].
  - assert (Zpos (digits2_pos qp) = 53) as Hd by (apply digits2_pos_unique; lia).
    destruct (binary_round_aux_normal s qp (e1 - 60) l)
      as (m & e & E & Hm & He); [lia|lia|].
    exists m, e. split; [exact E|]. rewrite Hd in He. cbv zeta in He.
    destruct He as [[He _]|(He & _)]; lia.
  - assert (Zpos (digits2_pos qp) = 54) as Hd by (apply digits2_pos_unique; lia).
    destruct (binary_round_aux_normal s qp (e1 - 60) l)
      as (m & e & E & Hm & He); [lia|lia|].
    exists m, e. split; [exact E|]. rewrite Hd in He. cbv zeta in He.
    change (2 ^ (54 - 53)) with 2 in He.
    assert (Zpos qp / 2 < 2 ^ 53 - 1) by (apply Z.div_lt_upper_bound; lia).
    destruct He as [[He _]|(He & _ & Hov)]; lia.
Qed.

Lemma finite_or_infinity_cases s m e :
  finite_or_infinity s m e = S754_finite s m e /\ e <= 971
  \/ finite_or_infinity s m e = S754_infinity s.
Proof. unfold finite_or_infinity. destruct (Z.leb_spec e 971); auto. Qed.

(** A non-zero integer, converted and divided by 1e18: a number of the
    integer's sign; an infinity only for an integer of 2^64 and more in
    absolute value; else finite, with an exponent that is at least the
    integer's number of digits less 113, and at most -49 when the integer is
    below 2^63 in absolute value. *)
Lemma scaled_nonzero s p :
  (SFdiv 53 1024 (binary_round 53 1024 s p 0) (S754_finite false weiMantissa 7)
   = S754_infinity s /\ 2 ^ 64 <= Zpos p)
  \/ exists m e,
      SFdiv 53 1024 (binary_round 53 1024 s p 0) (S754_finite false weiMantissa 7)
      = S754_finite s m e
      /\ Zpos (digits2_pos p) - 113 <= e
      /\ (Zpos p < 2 ^ 63 -> e <= -49).
Proof.
  destruct (binary_round_int s p) as (m1 & e1 & E1 & Hm1 & He1). rewrite E1.
  pose proof (digits2_pos_bounds p) as [Dlo Dhi].
  assert (1 <= Zpos (digits2_pos p)) as Hd1 by lia.
  assert (forall k, 0 <= k -> Zpos p < 2 ^ k -> Zpos (digits2_pos p) <= k) as Hdk.
  { intros k Hk Hp. destruct (Z.le_gt_cases (Zpos (digits2_pos p)) k) as [|Hgt];
      [assumption|].
    assert (2 ^ k <= 2 ^ (Zpos (digits2_pos p) - 1)) by (apply Z.pow_le_mono_r; lia).
    lia. }
  destruct (finite_or_infinity_cases s m1 e1) as [[-> Hr1]|Einf].
  2:{ left. rewrite Einf. split; [simpl; rewrite xorb_false_r; reflexivity|].
      destruct (Z.le_gt_cases (2 ^ 64) (Zpos p)) as [|Hlt]; [assumption|].
      specialize (Hdk 64 ltac:(lia) Hlt).
      unfold finite_or_infinity in Einf.
      destruct (Z.leb_spec e1 971); [discriminate Einf|lia]. }
  destruct (SFdiv_by_wei s m1 e1 Hm1) as (m & e & E & He); [lia|]. rewrite E.
  destruct (finite_or_infinity_cases s m e) as [[-> Hr]|Einf].
  2:{ unfold finite_or_infinity in Einf.
      destruct (Z.leb_spec e 971); [discriminate Einf|lia]. }
  right. exists m, e. split; [reflexivity|]. split; [lia|].
  intros Hp. specialize (Hdk 63 ltac:(lia) Hp).
  destruct (Z.le_gt_cases e1 10) as [|Hgt]; [lia|].
  assert (e1 = 11 /\ m1 = (2 ^ 52)%positive) as [-> ->].
  { destruct He1 as [He1|[He1 Hm]]; [lia|]. split; [lia|]. apply Pos2Z.inj. exact Hm. }
  assert (exists mm, SFdiv 53 1024 (S754_finite s (2 ^ 52) 11)
                          (S754_finite false weiMantissa 7)
                    = S754_finite s mm (-49)) as [mm Emm]
    by (destruct s; eexists; vm_compute; reflexivity).
  rewrite Emm in E. unfold finite_or_infinity in E.
  destruct (e <=? 971); [injection E as _ <-; lia|discriminate E].
Qed.

End Binary64Facts.

(** ** Prices *)

Section PriceFacts.
Import GoStrings EthCommon GoBig Types MarketUtil.
Context `{Unicode} `{Common} `{!Dao.Rows} `{BigText}.

Lemma ByteToFloat_zero amount :
  UnmarshalText amount = 0%Z -> ByteToFloat amount = Float64.zero.
Proof. unfold ByteToFloat. intros ->. vm_compute. reflexivity. Qed.

(** C8.  Whenever one of the two amounts decodes to the integer 0,
    [CalculatePrice] returns 0, whatever the other amount and the symbols.
    And in every call it either returns 0 without dividing, or divides two
    converted amounts that both differ from 0. *)
Theorem CalculatePrice_zero_amount g amountS amountB s b :
  (UnmarshalText amountS = 0%Z \/ UnmarshalText amountB = 0%Z ->
   CalculatePrice g amountS amountB s b = Float64.zero)
  /\ (CalculatePrice g amountS amountB s b = Float64.zero
      \/ Float64.eqb (ByteToFloat amountS) Float64.zero = false
         /\ Float64.eqb (ByteToFloat amountB) Float64.zero = false
         /\ CalculatePrice g amountS amountB s b
            = if IsBuy g s
              then Float64.div (ByteToFloat amountB) (ByteToFloat amountS)
              else Float64.div (ByteToFloat amountS) (ByteToFloat amountB)).
Proof.
  unfold CalculatePrice. split.
  - intros [E|E]; rewrite (ByteToFloat_zero _ E).
    + reflexivity.
    + rewrite orb_true_r. reflexivity.
  - destruct (Float64.eqb (ByteToFloat amountS) Float64.zero) eqn:Es; [left; reflexivity|].
    destruct (Float64.eqb (ByteToFloat amountB) Float64.zero) eqn:Eb; [left; reflexivity|].
    right. simpl. auto.
Qed.

Local Open Scope Z_scope.
Import Float64.

Lemma wrapInt64_small z : - 2 ^ 63 <= z < 2 ^ 63 -> wrapInt64 z = z.
Proof. intros Hz. unfold wrapInt64. rewrite Z.mod_small; lia. Qed.

Lemma wrapInt64_range z : - 2 ^ 63 <= wrapInt64 z < 2 ^ 63.
Proof.
  unfold wrapInt64. pose proof (Z.mod_pos_bound (z + 2 ^ 63) (2 ^ 64)). lia.
Qed.

Lemma Int64_small n : - 2 ^ 63 <= n < 2 ^ 63 -> Int64 n = n.
Proof.
  intros Hn. unfold Int64. destruct (Z.ltb_spec n 0) as [Hneg|Hpos].
  - destruct (Z.eq_dec n (- 2 ^ 63)) as [->|Hne]; [reflexivity|].
    rewrite (Z.mod_small (Z.abs n)) by lia.
    rewrite (wrapInt64_small (Z.abs n)) by lia. rewrite wrapInt64_small; lia.
  - rewrite (Z.mod_small (Z.abs n)) by lia. rewrite wrapInt64_small; lia.
Qed.

(** What [Int64] makes of an integer of 2^63 or more: an [int64] that is
    negative unless the integer is at least 2^64. *)
Lemma Int64_large n :
  2 ^ 63 <= n -> - 2 ^ 63 <= Int64 n < 2 ^ 63 /\ (0 <= Int64 n -> 2 ^ 64 <= n).
Proof.
  intros Hn. unfold Int64. destruct (Z.ltb_spec n 0) as [Hneg|_]; [lia|].
  rewrite Z.abs_eq by lia. split; [apply wrapInt64_range|].
  unfold wrapInt64.
  pose proof (Z.mod_pos_bound n (2 ^ 64)) as Hm.
  pose proof (Z.div_mod n (2 ^ 64)) as Hd.
  destruct (Z.lt_ge_cases (n mod 2 ^ 64) (2 ^ 63)) as [Hlo|Hhi].
  - rewrite (Z.mod_small (n mod 2 ^ 64 + 2 ^ 63)) by lia. intros _.
    assert (0 < n / 2 ^ 64) by (apply Z.div_str_pos; lia) || idtac.
    destruct (Z.lt_ge_cases n (2 ^ 64)) as [Hlt|]; [|assumption].
    rewrite Z.mod_small in Hlo by lia. lia.
  - replace (n mod 2 ^ 64 + 2 ^ 63) with (n mod 2 ^ 64 - 2 ^ 63 + 1 * 2 ^ 64) by lia.
    rewrite Z.mod_add by lia. rewrite Z.mod_small by lia. lia.
Qed.

Lemma weiToEther_value : weiToEther = S754_finite false weiMantissa 7.
Proof. vm_compute. reflexivity. Qed.

Lemma scaledAmount_shape n :
  n <> 0 ->
  (scaledAmount n = S754_infinity (n <? 0) /\ 2 ^ 64 <= Z.abs n)
  \/ exists m e,
      scaledAmount n = S754_finite (n <? 0) m e
      /\ (2 ^ 64 <= n -> -48 <= e)
      /\ (- 2 ^ 63 <= n < 2 ^ 63 -> e <= -49).
Proof.
  intros Hn. unfold scaledAmount, Float64.div, Float64.ofInt, Float64.prec, Float64.emax.
  rewrite weiToEther_value. destruct n as [|p|p]; [congruence| |]; simpl binary_normalize.
  - destruct (scaled_nonzero false p) as [[E Hp]|(m & e & E & Hlo & Hhi)];
      [left; split; [exact E|exact Hp]|].
    right. exists m, e. split; [exact E|]. split; [|lia].
    intros Hbig. pose proof (digits2_pos_bounds p) as [_ Dhi].
    assert (64 < Zpos (digits2_pos p)); [|lia].
    apply (Z.pow_lt_mono_r_iff 2); lia.
  - destruct (scaled_nonzero true p) as [[E Hp]|(m & e & E & Hlo & Hhi)];
      [left; split; [exact E|exact Hp]|].
    right. exists m, e. split; [exact E|]. split; [lia|].
    intros Hr. destruct (Z.eq_dec (Zpos p) (2 ^ 63)) as [Ep|Hne]; [|apply Hhi; lia].
    assert (p = (2 ^ 63)%positive) as -> by (apply Pos2Z.inj; exact Ep).
    vm_compute in E. injection E as _ <-. lia.
Qed.

Lemma ByteToFloat_in_range amount :
  - 2 ^ 63 <= UnmarshalText amount < 2 ^ 63 ->
  ByteToFloat amount = scaledAmount (UnmarshalText amount).
Proof.
  intros Hn. unfold ByteToFloat, scaledAmount. rewrite (Int64_small _ Hn). reflexivity.
Qed.

(** C10.  [ByteToFloat] is the decoded integer cut to [int64], converted
    and divided by 1e18.  For an integer that fits in [int64] this is the
    integer itself converted and divided by 1e18.  For an integer of 2^63 or
    more the [int64] is another, smaller integer, and the value returned is
    strictly below the scaled amount.  So [CalculatePrice] is the price of
    the two decoded amounts when both fit in [int64]; with a sell amount of
    2^64 and a buy amount of 1e18 it returns 0 where that price is not 0. *)
Theorem ByteToFloat_truncates_to_int64 g amount amountS amountB s b :
  (- 2 ^ 63 <= UnmarshalText amount < 2 ^ 63 ->
   ByteToFloat amount = scaledAmount (UnmarshalText amount))
  /\ (2 ^ 63 <= UnmarshalText amount ->
      ByteToFloat amount = scaledAmount (Int64 (UnmarshalText amount))
      /\ Int64 (UnmarshalText amount) < 2 ^ 63
      /\ Float64.ltb (ByteToFloat amount) (scaledAmount (UnmarshalText amount)) = true)
  /\ (- 2 ^ 63 <= UnmarshalText amountS < 2 ^ 63 ->
      - 2 ^ 63 <= UnmarshalText amountB < 2 ^ 63 ->
      CalculatePrice g amountS amountB s b
      = scaledPrice g (UnmarshalText amountS) (UnmarshalText amountB) s)
  /\ (UnmarshalText amountS = 2 ^ 64 -> UnmarshalText amountB = 10 ^ 18 ->
      CalculatePrice g amountS amountB s b = Float64.zero
      /\ Float64.eqb (scaledPrice g (UnmarshalText amountS) (UnmarshalText amountB) s)
                     Float64.zero = false).
Proof.
  split; [|split; [|split]].
  - apply ByteToFloat_in_range.
  - intros Hn. split; [reflexivity|].
    destruct (Int64_large _ Hn) as [Hk Hbig]. split; [lia|].
    change (ByteToFloat amount) with (scaledAmount (Int64 (UnmarshalText amount))).
    set (n := UnmarshalText amount) in *. set (k := Int64 n) in *.
    assert (scaledAmount k = S754_zero false /\ k = 0
            \/ exists mk ek, scaledAmount k = S754_finite (k <? 0) mk ek /\ ek <= -49)
      as Hsk.
    { destruct (Z.eq_dec k 0) as [Ek|Hk0]; [left; rewrite Ek; auto|right].
      destruct (scaledAmount_shape k Hk0) as [[_ Hinf]|(mk & ek & Ek & _ & Hhi)]; [lia|].
      exists mk, ek. split; [exact Ek|apply Hhi; exact Hk]. }
    unfold Float64.ltb, SFltb.
    destruct (scaledAmount_shape n) as [[En _]|(mn & en & En & Hlo & _)]; [lia| |];
      rewrite En; replace (n <? 0) with false by (symmetry; apply Z.ltb_ge; lia).
    + destruct Hsk as [[-> _]|(mk & ek & -> & _)]; [reflexivity|].
      destruct (k <? 0); reflexivity.
    + destruct Hsk as [[-> _]|(mk & ek & -> & Hek)]; [reflexivity|].
      destruct (Z.ltb_spec k 0) as [|Hk0]; [reflexivity|]. simpl.
      specialize (Hlo (Hbig Hk0)).
      replace (ek ?= en) with Lt by (symmetry; apply Z.compare_lt_iff; lia). reflexivity.
  - intros HS HB. unfold CalculatePrice, scaledPrice.
    rewrite (ByteToFloat_in_range _ HS), (ByteToFloat_in_range _ HB). reflexivity.
  - intros ES EB. unfold CalculatePrice, scaledPrice, ByteToFloat. rewrite ES, EB.
    split; [reflexivity|]. destruct (IsBuy g s); vm_compute; reflexivity.
Qed.

End PriceFacts.

(** ** The event handlers *)

Section HandlerFacts.
Import GoStrings EthCommon GoBig Types Extractor EventEmitter.
Context `{Unicode} `{Common} `{!Dao.Rows} `{BigText} `{Abi} `{!EthAccessor.Converters}.

Ltac run_monad :=
  cbv beta iota zeta delta [mbind mret Run_bind Run_ret Debugf Errorf logf Emit panic
                            snd fst emitted logged].

Ltac step_monad :=
  cbv beta iota zeta delta [mbind mret Run_bind Run_ret Debugf Errorf logf Emit panic].

Ltac short_topics Hlen :=
  apply Nat.ltb_lt in Hlen;
  cbv beta delta [handleRingMinedEvent handleOrderCancelledEvent
    handleCutoffEvent handleCutoffPairEvent handleTransferEvent handleApprovalEvent
    handleAddressAuthorizedEvent handleAddressDeAuthorizedEvent handleWethDepositEvent
    handleWethWithdrawalEvent];
  rewrite Hlen; eexists; reflexivity.

(** C7.  A handler subscribed for an event name, run on a log that has fewer
    topics than the handler reads, logs one error line, publishes nothing and
    returns nil; it does not panic. *)
Theorem short_topics_publish_nothing processor g name handler contractData t :
  eventWatcher processor g name = Some handler ->
  length (Topics contractData) < topicsRead name ->
  exists fmt, handler contractData t = (Returned nilError, withError fmt contractData t).
Proof.
  unfold eventWatcher, topicsRead.
  repeat match goal with
         | |- context [String.eqb name ?c] =>
             destruct (String.eqb_spec name c) as [->|?]
         end;
    simpl; intros Hw Hlen; try discriminate Hw; try (exfalso; lia);
    injection Hw as <-; short_topics Hlen.
Qed.


Lemma index_lookup {A} (l : list A) i x (t : Trace) :
  l !! i = Some x -> index l i t = (Returned x, t).
Proof. unfold index. intros ->. reflexivity. Qed.

Lemma linkStep_emits fl i t :
  i < length fl ->
  exists fill,
    linkStep fl i t
    = (Returned (<[i := fill]> fl),
       {| logged := logged t;
          emitted := (emitted t ++ [(TxManagerOrderFilledEvent, PubOrderFilled i fill)])%list |}).
Proof.
  intros Hi. unfold linkStep.
  destruct (lookup_lt_is_Some_2 fl i Hi) as [fill Hfill].
  assert (exists sellTo,
             (if (i =? length fl - 1)%nat then index fl 0 else index fl (i + 1)) t
             = (Returned sellTo, t)) as [sellTo Es].
  { destruct (Nat.eqb_spec i (length fl - 1)).
    - destruct (lookup_lt_is_Some_2 fl 0) as [x Hx]; [lia|].
      exists x. apply index_lookup, Hx.
    - destruct (lookup_lt_is_Some_2 fl (i + 1)) as [x Hx]; [lia|].
      exists x. apply index_lookup, Hx. }
  assert (exists buyFrom,
             (if (i =? 0)%nat then index fl (length fl - 1) else index fl (i - 1)) t
             = (Returned buyFrom, t)) as [buyFrom Eb].
  { destruct (Nat.eqb_spec i 0).
    - destruct (lookup_lt_is_Some_2 fl (length fl - 1)) as [x Hx]; [lia|].
      exists x. apply index_lookup, Hx.
    - destruct (lookup_lt_is_Some_2 fl (i - 1)) as [x Hx]; [lia|].
      exists x. apply index_lookup, Hx. }
  eexists. unfold mbind, Run_bind at 1. rewrite (index_lookup _ _ _ _ Hfill).
  unfold Run_bind at 1. rewrite Es. unfold Run_bind at 1. rewrite Eb.
  run_monad. reflexivity.
Qed.

Lemma fillsOn_emit topic t lg topic' ptr fill :
  fillsOn topic {| logged := lg;
                   emitted := (emitted t ++ [(topic', PubOrderFilled ptr fill)])%list |}
  = (fillsOn topic t ++ if Topic_eqb topic' topic then [ptr] else [])%list.
Proof.
  unfold fillsOn, publishedOn. simpl emitted.
  rewrite filter_app, fmap_app, omap_app. f_equal.
  rewrite filter_cons, filter_nil. simpl.
  destruct (Topic_eqb topic' topic); simpl; [|reflexivity].
  destruct (decide (true = true)); [reflexivity|congruence].
Qed.

Lemma fillsOn_log topic t line :
  fillsOn topic {| logged := (logged t ++ [line])%list; emitted := emitted t |}
  = fillsOn topic t.
Proof. reflexivity. Qed.

(** The third loop publishes every fill of the list on the
    transaction-manager topic. *)
Lemma linkLoop_emits n : forall start fl t,
  start + n <= length fl ->
  exists fl' t',
    foldM linkStep fl (seq start n) t = (Returned fl', t')
    /\ length fl' = length fl
    /\ fillsOn TxManagerOrderFilledEvent t'
       = (fillsOn TxManagerOrderFilledEvent t ++ seq start n)%list.
Proof.
  induction n as [|n IH]; intros start fl t Hn; simpl.
  - exists fl, t. rewrite app_nil_r. auto.
  - destruct (linkStep_emits fl start t) as [fill Es]; [lia|].
    unfold mbind, Run_bind at 1. rewrite Es.
    destruct (IH (S start) (<[start := fill]> fl)
                 {| logged := logged t;
                    emitted := (emitted t ++
                      [(TxManagerOrderFilledEvent, PubOrderFilled start fill)])%list |})
      as (fl' & t' & Ef & Hlen & Hpub); [rewrite length_insert; lia|].
    exists fl', t'. split; [exact Ef|]. split; [rewrite Hlen; apply length_insert|].
    rewrite Hpub, fillsOn_emit. simpl. rewrite <- app_assoc. reflexivity.
Qed.

(** The second loop publishes nothing on the transaction-manager topic. *)
Lemma matchLoop_emits g ordermap contractData l : forall st t,
  Forall (fun i => i < length st.1) l ->
  exists st' t',
    foldM (matchStep g ordermap contractData) st l t = (Returned st', t')
    /\ length st'.1 = length st.1
    /\ fillsOn TxManagerOrderFilledEvent t' = fillsOn TxManagerOrderFilledEvent t.
Proof.
  induction l as [|i l IH]; intros [fl sv] t Hl; simpl.
  - exists (fl, sv), t. auto.
  - apply Forall_cons in Hl as [Hi Hl]. simpl in Hi.
    destruct (lookup_lt_is_Some_2 fl i Hi) as [v Hv].
    unfold mbind, Run_bind at 1. unfold matchStep at 1.
    unfold mbind, Run_bind at 1. rewrite (index_lookup _ _ _ _ Hv).
    destruct (ordermap !! Hash_Hex (of_OrderHash v)) as [ord|].
    + step_monad.
      match goal with
      | |- context [foldM _ ?st' l ?t'] =>
          destruct (IH st' t') as (st'' & t'' & Ef & Hlen & Hpub)
      end.
      { simpl. rewrite length_insert. exact Hl. }
      exists st'', t''. split; [exact Ef|]. split.
      * etransitivity; [exact Hlen|]. simpl. apply length_insert.
      * rewrite Hpub, fillsOn_emit. simpl. apply app_nil_r.
    + step_monad.
      match goal with
      | |- context [foldM _ ?st' l ?t'] =>
          destruct (IH st' t') as (st'' & t'' & Ef & Hlen & Hpub)
      end.
      { exact Hl. }
      exists st'', t''. split; [exact Ef|]. split; [exact Hlen|]. rewrite Hpub. reflexivity.
Qed.

Lemma forEach_log {A} (l : list A) fmt contractData : forall t,
  exists t',
    forEach l (fun _ => Debugf fmt contractData) t = (Returned tt, t')
    /\ emitted t' = emitted t.
Proof.
  induction l as [|x l IH]; intros t; simpl.
  - exists t. auto.
  - unfold forEach in *. simpl. step_monad.
    match goal with
    | |- context [foldM _ tt l ?t0] => destruct (IH t0) as (t' & Ef & He)
    end.
    exists t'. split; [exact Ef|]. rewrite He. reflexivity.
Qed.

(** Whenever the ring-mined handler reaches its loops, every fill of the
    event, matched or not, is published on the transaction-manager topic. *)
Theorem handleRingMinedEvent_links_every_fill
    processor g contractData e topic1 ringmined fills ordermap t :
  Event contractData = CE_RingMined e ->
  Topics contractData !! 1 = Some topic1 ->
  EthAccessor.RingMined_ConvertDown
    {| EthAccessor.RingHash := HexToHash topic1;
       EthAccessor.RingMined_data := EthAccessor.RingMined_data e |}
  = (ringmined, fills, None) ->
  Dao.GetOrdersByHash (db processor)
    (map (fun f => Hash_Hex (of_OrderHash f))
         (map (fill_setTxInfo (TxInfo contractData)) fills))
  = (ordermap, None) ->
  exists t',
    handleRingMinedEvent processor g contractData t = (Returned nilError, t')
    /\ fillsOn TxManagerOrderFilledEvent t'
       = (fillsOn TxManagerOrderFilledEvent t ++ seq 0 (length fills))%list.
Proof.
  intros He Ht Ec Eo. unfold handleRingMinedEvent.
  assert ((length (Topics contractData) <? 2)%nat = false) as ->.
  { apply Nat.ltb_ge. apply lookup_lt_Some in Ht. lia. }
  rewrite He. unfold mbind, Run_bind at 1. unfold mret, Run_ret at 1.
  unfold Run_bind at 1. rewrite (index_lookup _ _ _ _ Ht).
  rewrite Ec.
  unfold Run_bind at 1. unfold Debugf at 1, logf at 1.
  unfold Run_bind at 1. unfold Emit at 1.
  unfold Run_bind at 1.
  match goal with
  | |- context [forEach fills ?f ?t0] =>
      destruct (forEach_log fills
        "extractor,tx:%s orderFilled event ringhash:%s, amountS:%s, amountB:%s, orderhash:%s, lrcFee:%s, lrcReward:%s, nextOrderhash:%s, preOrderhash:%s, ringIndex:%s"
        contractData t0) as (t1 & Ef & Hem)
  end.
  rewrite Ef. rewrite Eo.
  unfold Run_bind at 1.
  set (fillList := map (fill_setTxInfo (TxInfo contractData)) fills).
  destruct (matchLoop_emits g ordermap contractData (seq 0 (length fillList))
              (fillList, []) t1) as ([fl2 sv2] & t2 & Em & Hlen2 & Hpub2).
  { apply Forall_forall. intros i Hi. apply elem_of_seq in Hi. simpl. lia. }
  rewrite Em. unfold Run_bind at 1.
  simpl in Hlen2.
  destruct (linkLoop_emits (length fl2) 0 fl2 t2) as (fl3 & t3 & El & _ & Hpub3); [lia|].
  rewrite El. exists t3. split; [reflexivity|].
  rewrite Hpub3, Hpub2, Hlen2. unfold fillList. rewrite length_map.
  f_equal. unfold fillsOn, publishedOn. rewrite Hem. simpl emitted.
  rewrite filter_app, fmap_app, omap_app. simpl. apply app_nil_r.
Qed.
End HandlerFacts.

(** ** The registry tables after [Initialize] *)

Section RegistryTables.
Import GoStrings EthCommon GoBig Types MarketUtil.
Context `{Unicode} `{Common} `{!Dao.Rows} `{BigText}.

(** Inserting the entries of a list one after the other: a key holds the
    value of the last entry that has it. *)
Lemma foldl_insert_lookup {X V} (key : X -> string) (val : X -> V) (l : list X) :
  forall (m0 : gmap string V) k,
    foldl (fun m x => <[key x := val x]> m) m0 l !! k
    = match last (filter (fun x => key x = k) l) with
      | Some x => Some (val x)
      | None => m0 !! k
      end.
Proof.
  induction l as [|x l IH] using rev_ind; intros m0 k; [reflexivity|].
  rewrite foldl_app, filter_app. simpl.
  rewrite filter_cons, filter_nil.
  destruct (decide (key x = k)) as [<-|Hne].
  - rewrite last_snoc, lookup_insert_eq. reflexivity.
  - rewrite app_nil_r, lookup_insert_ne by exact Hne. apply IH.
Qed.

Lemma setAllTokens_id (m : gmap string Token) : setAllTokens m = m.
Proof.
  apply map_eq. intros k. unfold setAllTokens, rangeEntries.
  rewrite (foldl_insert_lookup fst snd). rewrite lookup_empty.
  destruct (last (filter (fun x : string * Token => x.1 = k) (map_to_list m)))
    as [[k' v]|] eqn:El.
  - apply last_Some_elem_of in El. apply list_elem_of_filter in El as [Ek Hin].
    simpl in Ek. subst k'. apply elem_of_map_to_list in Hin. simpl. congruence.
  - apply last_None in El. destruct (m !! k) as [v|] eqn:Em; [|reflexivity].
    apply elem_of_map_to_list in Em.
    assert ((k, v) ∈ filter (fun x : string * Token => x.1 = k) (map_to_list m)) as Hin
      by (apply list_elem_of_filter; auto).
    rewrite El in Hin. inversion Hin.
Qed.

Lemma Initialize_rows rds g g' :
  Initialize rds g = Returns g' ->
  Initialize rds g
  = Returns {| SupportTokens := setSupportTokens (Dao.FindUnDeniedTokens rds).1;
               AllTokens := setSupportTokens (Dao.FindUnDeniedTokens rds).1;
               SupportMarkets := setSupportMarkets (Dao.FindUnDeniedMarkets rds).1;
               AllMarkets := (AllMarkets g
                   ++ newMarkets (setSupportTokens (Dao.FindUnDeniedTokens rds).1)
                                 (setSupportMarkets (Dao.FindUnDeniedMarkets rds).1))%list;
               AllTokenPairs := (AllTokenPairs g
                   ++ rangeValues (pairsMap (setSupportTokens (Dao.FindUnDeniedTokens rds).1)
                                            (setSupportMarkets (Dao.FindUnDeniedMarkets rds).1)))%list |}.
Proof.
  intros Hr. rewrite Hr. apply Initialize_returns in Hr as (tokens & markets & Et & Em & ->).
  rewrite Et, Em. simpl. rewrite setAllTokens_id. reflexivity.
Qed.

Lemma Initialize_AllTokens rds g g' :
  Initialize rds g = Returns g' -> AllTokens g' = SupportTokens g'.
Proof.
  intros Hr. pose proof (Initialize_rows _ _ _ Hr) as Hr'. rewrite Hr in Hr'.
  injection Hr' as ->. reflexivity.
Qed.

(** X1.  After [Initialize] returns, each token table entry is the conversion
    of the last row of the token query that has the entry's symbol, each market
    table entry the last row of the market query whose converted symbol it is,
    and there is no other entry: a symbol is supported exactly when a row has
    it, and of two rows with one symbol the later wins.  [AllTokens] equals
    [SupportTokens].  Nothing of this depends on the tables before the call. *)
Theorem Initialize_tables_hold_last_rows rds g g' :
  Initialize rds g = Returns g' ->
  (forall k,
      SupportTokens g' !! k
      = Dao.Token_ConvertUp
          <$> last (filter (fun v => Dao.Token_Symbol v = k) (Dao.FindUnDeniedTokens rds).1))
  /\ (forall k,
        SupportMarkets g' !! k
        = Dao.Market_ConvertUp
            <$> last (filter (fun v => Symbol (Dao.Market_ConvertUp v) = k)
                             (Dao.FindUnDeniedMarkets rds).1))
  /\ AllTokens g' = SupportTokens g'.
Proof.
  intros Hr. pose proof (Initialize_rows _ _ _ Hr) as Hr'. rewrite Hr in Hr'.
  injection Hr' as ->. simpl. split; [|split; [|reflexivity]]; intros k.
  - unfold setSupportTokens.
    rewrite (foldl_insert_lookup Dao.Token_Symbol Dao.Token_ConvertUp), lookup_empty.
    destruct (last _); reflexivity.
  - unfold setSupportMarkets.
    rewrite (foldl_insert_lookup (fun v => Symbol (Dao.Market_ConvertUp v))
                                 Dao.Market_ConvertUp), lookup_empty.
    destruct (last _); reflexivity.
Qed.

Lemma length_rangeValues {V} (m : gmap string V) : length (rangeValues m) = size m.
Proof. unfold rangeValues. rewrite length_fmap. apply length_map_to_list. Qed.

Lemma length_newMarkets (T M : gmap string Token) :
  length (newMarkets T M) = size T * size M.
Proof.
  unfold newMarkets. rewrite <- !length_rangeValues.
  induction (rangeValues T) as [|k l IH]; simpl; [reflexivity|].
  rewrite length_app, length_map, IH. reflexivity.
Qed.

Lemma In_newMarkets (T M : gmap string Token) s :
  In s (newMarkets T M) <->
  exists token mkt,
    In token (rangeValues T) /\ In mkt (rangeValues M)
    /\ s = sprintfPair (Symbol token) (Symbol mkt).
Proof.
  unfold newMarkets. rewrite in_flat_map. split.
  - intros (k & Hk & Hs). apply in_map_iff in Hs as (kk & <- & Hkk). eauto.
  - intros (k & kk & Hk & Hkk & ->). exists k. split; [exact Hk|].
    apply in_map_iff. eauto.
Qed.

(** X2.  [Initialize] appends to [AllMarkets] one identifier per pair of a
    supported token and a supported market, the token's symbol first: as many
    as the product of the two table sizes, and none when a table is empty.
    What [AllMarkets] held before stays in front. *)
Theorem Initialize_lists_every_combination rds g g' :
  Initialize rds g = Returns g' ->
  exists new,
    AllMarkets g' = (AllMarkets g ++ new)%list
    /\ length new = size (SupportTokens g') * size (SupportMarkets g')
    /\ (forall s, In s new <->
          exists token mkt,
            In token (rangeValues (SupportTokens g'))
            /\ In mkt (rangeValues (SupportMarkets g'))
            /\ s = sprintfPair (Symbol token) (Symbol mkt)).
Proof.
  intros Hr. pose proof (Initialize_rows _ _ _ Hr) as Hr'. rewrite Hr in Hr'.
  injection Hr' as ->. simpl. eexists. split; [reflexivity|].
  split; [apply length_newMarkets|apply In_newMarkets].
Qed.

(** *** Every order of the loops *)

Lemma fair_inOrder : fair inOrder.
Proof. intros V pos m. reflexivity. Qed.

Lemma fair_values (s : Schedule) V pos (m : gmap string V) :
  fair s -> Permutation (s V pos m).*2 (rangeValues m).
Proof. intros Hs. unfold rangeValues. apply fmap_Permutation, Hs. Qed.

Lemma numberedFrom_In {A} (l : list A) :
  forall i n x, In (n, x) (numberedFrom i l) -> In x l.
Proof.
  induction l as [|y l IH]; intros i n x; simpl; [tauto|].
  intros [[= _ ->]|Hin]; [left; reflexivity|right; exact (IH _ _ _ Hin)].
Qed.

Lemma In_numberedFrom {A} (l : list A) :
  forall i x, In x l -> exists n, In (n, x) (numberedFrom i l).
Proof.
  induction l as [|y l IH]; intros i x; simpl; [tauto|].
  intros [->|Hin]; [exists i; left; reflexivity|].
  destruct (IH (S i) x Hin) as [n Hn]. exists n. right. exact Hn.
Qed.

Lemma flat_map_numberedFrom {A B} (F : A -> list B) (l : list A) :
  forall i, flat_map (fun ix => F ix.2) (numberedFrom i l) = flat_map F l.
Proof. induction l as [|x l IH]; intros i; simpl; [reflexivity|]. rewrite IH. reflexivity. Qed.

Lemma foldl_numberedFrom {A B} (F : B -> A -> B) (l : list A) :
  forall i b, foldl (fun b ix => F b ix.2) b (numberedFrom i l) = foldl F b l.
Proof. induction l as [|x l IH]; intros i b; simpl; [reflexivity|]. apply IH. Qed.

Lemma flat_map_pointwise {A B} (f g : A -> list B) (l : list A) :
  (forall x, In x l -> Permutation (f x) (g x)) ->
  Permutation (flat_map f l) (flat_map g l).
Proof.
  induction l as [|x l IH]; intros Hfg; simpl; [reflexivity|].
  apply Permutation_app; [apply Hfg; left; reflexivity|].
  apply IH. intros y Hy. apply Hfg. right. exact Hy.
Qed.

Lemma foldl_flat_map {A B C} (f : C -> B -> C) (g : A -> list B) (l : list A) :
  forall c, foldl f c (flat_map g l) = foldl (fun c x => foldl f c (g x)) c l.
Proof.
  induction l as [|x l IH]; intros c; simpl; [reflexivity|].
  rewrite foldl_app. apply IH.
Qed.

(** Every order lists the same identifiers, each as often. *)
Lemma newMarketsIn_Permutation (s : Schedule) (T M : gmap string Token) :
  fair s -> Permutation (newMarketsIn s T M) (newMarkets T M).
Proof.
  intros Hs. unfold newMarketsIn, newMarkets, numbered.
  etransitivity.
  { apply flat_map_pointwise
      with (g := fun ik : nat * Token =>
                   map (fun kk => Symbol ik.2 +:+ "-" +:+ Symbol kk) (rangeValues M)).
    intros ik _. apply Permutation_map, fair_values, Hs. }
  rewrite (flat_map_numberedFrom
             (fun k => map (fun kk => Symbol k +:+ "-" +:+ Symbol kk) (rangeValues M))).
  apply Permutation_flat_map, fair_values, Hs.
Qed.

Lemma pairsMapIn_pairEntries (s : Schedule) (T M : gmap string Token) :
  pairsMapIn s T M
  = foldl (fun pm (kv : string * TokenPair) => <[kv.1 := kv.2]> pm) ∅ (pairEntries s T M).
Proof.
  unfold pairsMapIn, pairEntries. rewrite foldl_flat_map.
  generalize (∅ : gmap string TokenPair).
  induction (numbered (s Token [108] M).*2) as [|jv l IH]; intros pm; simpl; [reflexivity|].
  rewrite foldl_flat_map. apply IH.
Qed.

Lemma pairEntries_written (s : Schedule) (T M : gmap string Token) k p :
  fair s -> In (k, p) (pairEntries s T M) <-> written T M k p.
Proof.
  intros Hs. unfold pairEntries, written, numbered. rewrite in_flat_map. split.
  - intros ([j v] & Hv & Hin). apply in_flat_map in Hin as (vv & Hvv & Hin).
    apply numberedFrom_In in Hv. simpl in *.
    exists v, vv.
    split; [exact (Permutation_in _ (fair_values s _ _ M Hs) Hv)|].
    split; [exact (Permutation_in _ (fair_values s _ _ T Hs) Hvv)|].
    destruct Hin as [[= -> ->]|[[= -> ->]|[]]]; auto.
  - intros (v & vv & Hv & Hvv & Hkp).
    apply (Permutation_in _ (Permutation_sym (fair_values s _ [108] M Hs))) in Hv.
    destruct (In_numberedFrom _ 0 v Hv) as [j Hj].
    exists (j, v). split; [exact Hj|]. apply in_flat_map. exists vv. simpl.
    split; [exact (Permutation_in _ (Permutation_sym (fair_values s _ _ T Hs)) Hvv)|].
    destruct Hkp as [[-> ->]|[-> ->]]; auto.
Qed.

Lemma foldl_insert_is_Some {V} (l : list (string * V)) k :
  is_Some (foldl (fun m (kv : string * V) => <[kv.1 := kv.2]> m) (∅ : gmap string V) l !! k)
  <-> exists v, In (k, v) l.
Proof.
  rewrite (foldl_insert_lookup fst snd), lookup_empty.
  destruct (last (filter (fun x : string * V => x.1 = k) l)) as [[k' v]|] eqn:El.
  - apply last_Some_elem_of, list_elem_of_filter in El as [Ek Hin]. simpl in Ek. subst k'.
    split; [intros _|eauto]. exists v. apply list_elem_of_In, Hin.
  - apply last_None in El. split; [intros [? [=]]|]. intros [v Hin].
    assert ((k, v) ∈ filter (fun x : string * V => x.1 = k) l) as Hf
      by (apply list_elem_of_filter; split; [reflexivity|apply list_elem_of_In, Hin]).
    rewrite El in Hf. inversion Hf.
Qed.

Lemma foldl_insert_functional {V} (l : list (string * V)) k v :
  (forall v1 v2, In (k, v1) l -> In (k, v2) l -> v1 = v2) ->
  foldl (fun m (kv : string * V) => <[kv.1 := kv.2]> m) (∅ : gmap string V) l !! k = Some v
  <-> In (k, v) l.
Proof.
  intros Hfun. rewrite (foldl_insert_lookup fst snd), lookup_empty.
  destruct (last (filter (fun x : string * V => x.1 = k) l)) as [[k' v']|] eqn:El.
  - apply last_Some_elem_of, list_elem_of_filter in El as [Ek Hin]. simpl in Ek. subst k'.
    apply list_elem_of_In in Hin. simpl. split.
    + intros [= <-]. exact Hin.
    + intros Hv. f_equal. exact (Hfun _ _ Hin Hv).
  - apply last_None in El. split; [discriminate|]. intros Hin.
    assert ((k, v) ∈ filter (fun x : string * V => x.1 = k) l) as Hf
      by (apply list_elem_of_filter; split; [reflexivity|apply list_elem_of_In, Hin]).
    rewrite El in Hf. inversion Hf.
Qed.

(** The keys of [pairsMap] do not depend on the order of the loops that
    write it. *)
Lemma pairsMapIn_is_Some (s : Schedule) (T M : gmap string Token) k :
  fair s -> is_Some (pairsMapIn s T M !! k) <-> exists p, written T M k p.
Proof.
  intros Hs. rewrite pairsMapIn_pairEntries, foldl_insert_is_Some.
  split; intros [p Hp]; exists p; apply (pairEntries_written s T M k p Hs); exact Hp.
Qed.

Lemma pairsMapIn_size (s1 s2 : Schedule) (T M : gmap string Token) :
  fair s1 -> fair s2 -> size (pairsMapIn s1 T M) = size (pairsMapIn s2 T M).
Proof.
  intros F1 F2.
  rewrite <- (size_dom (D := gset string) (pairsMapIn s1 T M)).
  rewrite <- (size_dom (D := gset string) (pairsMapIn s2 T M)).
  f_equal. apply set_eq. intros k. rewrite !elem_of_dom.
  rewrite (pairsMapIn_is_Some s1 T M k F1), (pairsMapIn_is_Some s2 T M k F2). reflexivity.
Qed.

(** Nor do its pairs, when no key is written with two different pairs. *)
Lemma pairsMapIn_lookup (s : Schedule) (T M : gmap string Token) k p :
  fair s -> unambiguous T M ->
  pairsMapIn s T M !! k = Some p <-> written T M k p.
Proof.
  intros Hs Hun. rewrite pairsMapIn_pairEntries, foldl_insert_functional.
  - apply pairEntries_written, Hs.
  - intros p1 p2 F1 F2. apply (pairEntries_written s T M k _ Hs) in F1, F2.
    exact (Hun k p1 p2 F1 F2).
Qed.

Lemma pairsMapIn_unambiguous (s1 s2 : Schedule) (T M : gmap string Token) :
  fair s1 -> fair s2 -> unambiguous T M -> pairsMapIn s1 T M = pairsMapIn s2 T M.
Proof.
  intros F1 F2 Hun. apply map_eq. intros k. apply option_eq. intros p.
  rewrite (pairsMapIn_lookup s1 T M k p F1 Hun), (pairsMapIn_lookup s2 T M k p F2 Hun).
  reflexivity.
Qed.

Lemma setAllTokensIn_id (s : Schedule) (m : gmap string Token) :
  fair s -> setAllTokensIn s m = m.
Proof.
  intros Hs. apply map_eq. intros k. apply option_eq. intros v.
  unfold setAllTokensIn. rewrite foldl_insert_functional.
  - rewrite <- elem_of_map_to_list, <- list_elem_of_In.
    rewrite (Hs Token [86] m : _ ≡ₚ _). reflexivity.
  - intros v1 v2 Hv1 Hv2.
    apply (Permutation_in _ (Hs Token [86] m)), list_elem_of_In, elem_of_map_to_list
      in Hv1, Hv2.
    congruence.
Qed.

Lemma InitializeIn_returns (s : Schedule) rds g g' :
  fair s ->
  InitializeIn s rds g = Returns g' ->
  let T := setSupportTokens (Dao.FindUnDeniedTokens rds).1 in
  let M := setSupportMarkets (Dao.FindUnDeniedMarkets rds).1 in
  g' = {| SupportTokens := T; AllTokens := T; SupportMarkets := M;
          AllMarkets := (AllMarkets g ++ newMarketsIn s T M)%list;
          AllTokenPairs := (AllTokenPairs g ++ (s _ [114] (pairsMapIn s T M)).*2)%list |}.
Proof.
  intros Hs. unfold InitializeIn.
  destruct (Dao.FindUnDeniedTokens rds) as [tokens [e|]]; [discriminate|].
  destruct (Dao.FindUnDeniedMarkets rds) as [markets [e|]]; [discriminate|].
  intros [= <-]. simpl. rewrite setAllTokensIn_id by exact Hs. reflexivity.
Qed.

Lemma newMarketsIn_inOrder (T M : gmap string Token) :
  newMarketsIn inOrder T M = newMarkets T M.
Proof.
  unfold newMarketsIn, newMarkets, numbered, inOrder.
  apply (flat_map_numberedFrom
           (fun k => map (fun kk => Symbol k +:+ "-" +:+ Symbol kk) (rangeValues M))).
Qed.

Lemma pairsMapIn_inOrder (T M : gmap string Token) :
  pairsMapIn inOrder T M = pairsMap T M.
Proof.
  unfold pairsMapIn, pairsMap, numbered, inOrder.
  apply (foldl_numberedFrom
           (fun (pm : gmap string TokenPair) v =>
              foldl (fun pm vv =>
                  <[Symbol vv +:+ "-" +:+ Symbol v :=
                      {| TokenS := Protocol vv; TokenB := Protocol v |}]>
                    (<[Symbol v +:+ "-" +:+ Symbol vv :=
                         {| TokenS := Protocol v; TokenB := Protocol vv |}]> pm))
                pm (rangeValues T))).
Qed.

(** In the one order of [rangeEntries], [InitializeIn] is [Initialize]. *)
Lemma InitializeIn_inOrder rds g : InitializeIn inOrder rds g = Initialize rds g.
Proof.
  unfold InitializeIn, Initialize.
  destruct (Dao.FindUnDeniedTokens rds) as [tokens [e|]]; [reflexivity|].
  destruct (Dao.FindUnDeniedMarkets rds) as [markets [e|]]; [reflexivity|].
  rewrite newMarketsIn_inOrder, pairsMapIn_inOrder. reflexivity.
Qed.

(** Whatever the order of its loops, [InitializeIn] returns when [Initialize]
    does, with the three maps of [Initialize], with the identifiers of
    [Initialize] in [AllMarkets] up to the order of the new ones, and with as
    many pairs. *)
Lemma InitializeIn_any_order (s : Schedule) rds g :
  fair s ->
  match InitializeIn s rds g, Initialize rds g with
  | Returns g', Returns g'' =>
      SupportTokens g' = SupportTokens g'' /\ AllTokens g' = AllTokens g''
      /\ SupportMarkets g' = SupportMarkets g''
      /\ Permutation (AllMarkets g') (AllMarkets g'')
      /\ length (AllTokenPairs g') = length (AllTokenPairs g'')
  | Fatal msg', Fatal msg'' => msg' = msg''
  | _, _ => False
  end.
Proof.
  intros Hs. rewrite <- (InitializeIn_inOrder rds g).
  destruct (InitializeIn s rds g) as [g'|msg'] eqn:E1;
    destruct (InitializeIn inOrder rds g) as [g''|msg''] eqn:E2.
  - apply (InitializeIn_returns s _ _ _ Hs) in E1.
    apply (InitializeIn_returns inOrder _ _ _ fair_inOrder) in E2.
    cbv zeta in E1, E2. subst g' g''. simpl. repeat split.
    + apply Permutation_app_head.
      rewrite (newMarketsIn_Permutation s _ _ Hs), newMarketsIn_inOrder. reflexivity.
    + rewrite !length_app, !length_fmap. f_equal.
      rewrite (Permutation_length (Hs _ _ _)), (Permutation_length (fair_inOrder _ _ _)).
      rewrite !length_map_to_list. apply pairsMapIn_size; [exact Hs|exact fair_inOrder].
  - revert E1 E2. unfold InitializeIn.
    destruct (Dao.FindUnDeniedTokens rds) as [tokens [e|]]; [discriminate|].
    destruct (Dao.FindUnDeniedMarkets rds) as [markets [e|]]; discriminate.
  - revert E1 E2. unfold InitializeIn.
    destruct (Dao.FindUnDeniedTokens rds) as [tokens [e|]]; [discriminate|].
    destruct (Dao.FindUnDeniedMarkets rds) as [markets [e|]]; discriminate.
  - revert E1 E2. unfold InitializeIn.
    destruct (Dao.FindUnDeniedTokens rds) as [tokens [e|]]; [congruence|].
    destruct (Dao.FindUnDeniedMarkets rds) as [markets [e|]]; congruence.
Qed.

(** X3.  [Initialize] is not idempotent, whatever the order in which its
    loops visit the maps.  A second run over the same store leaves the three
    maps as the first run made them.  It appends to [AllMarkets] the
    identifiers that the first run appended, each as often as the first run
    did, in an order of its own; they are as many as the product of the two
    table sizes.  It appends to [AllTokenPairs] as many pairs as the first run
    did, and the same pairs, in an order of its own, when no key of
    [pairsMap] is written with two different pairs. *)
Theorem Initialize_twice_duplicates (s1 s2 : Schedule) rds g0 g1 g2 :
  fair s1 -> fair s2 ->
  InitializeIn s1 rds g0 = Returns g1 -> InitializeIn s2 rds g1 = Returns g2 ->
  SupportTokens g2 = SupportTokens g1 /\ AllTokens g2 = AllTokens g1
  /\ SupportMarkets g2 = SupportMarkets g1
  /\ exists addedMarkets againMarkets addedPairs againPairs,
      AllMarkets g1 = (AllMarkets g0 ++ addedMarkets)%list
      /\ AllMarkets g2 = (AllMarkets g0 ++ addedMarkets ++ againMarkets)%list
      /\ Permutation againMarkets addedMarkets
      /\ length addedMarkets = size (SupportTokens g1) * size (SupportMarkets g1)
      /\ AllTokenPairs g1 = (AllTokenPairs g0 ++ addedPairs)%list
      /\ AllTokenPairs g2 = (AllTokenPairs g0 ++ addedPairs ++ againPairs)%list
      /\ length againPairs = length addedPairs
      /\ (unambiguous (SupportTokens g1) (SupportMarkets g1) ->
          Permutation againPairs addedPairs).
Proof.
  intros F1 F2 Hr1 Hr2.
  apply (InitializeIn_returns s1 _ _ _ F1) in Hr1.
  apply (InitializeIn_returns s2 _ _ _ F2) in Hr2. cbv zeta in Hr1, Hr2.
  rewrite Hr2, Hr1. simpl.
  set (T := setSupportTokens (Dao.FindUnDeniedTokens rds).1).
  set (M := setSupportMarkets (Dao.FindUnDeniedMarkets rds).1).
  repeat split.
  exists (newMarketsIn s1 T M), (newMarketsIn s2 T M),
         (s1 _ [114] (pairsMapIn s1 T M)).*2, (s2 _ [114] (pairsMapIn s2 T M)).*2.
  rewrite !(assoc_L (++)).
  split; [reflexivity|]. split; [reflexivity|].
  split.
  { rewrite (newMarketsIn_Permutation s1 T M F1), (newMarketsIn_Permutation s2 T M F2).
    reflexivity. }
  split.
  { rewrite (Permutation_length (newMarketsIn_Permutation s1 T M F1)).
    apply length_newMarkets. }
  split; [reflexivity|]. split; [reflexivity|].
  split.
  { rewrite !length_fmap.
    rewrite (Permutation_length (F1 _ _ _)), (Permutation_length (F2 _ _ _)).
    rewrite !length_map_to_list. apply pairsMapIn_size; assumption. }
  intros Hun. rewrite (pairsMapIn_unambiguous s2 s1 T M F2 F1 Hun).
  apply fmap_Permutation. rewrite (F1 _ _ _), (F2 _ _ _). reflexivity.
Qed.

Lemma pairs_inner (P : TokenPair -> Prop) (v : Token) (lt : list Token) :
  (forall vv, In vv lt ->
      P {| TokenS := Protocol v; TokenB := Protocol vv |}
      /\ P {| TokenS := Protocol vv; TokenB := Protocol v |}) ->
  forall pm : gmap string TokenPair,
    map_Forall (fun _ => P) pm ->
    let pm' := foldl (fun pm vv =>
                 <[Symbol vv +:+ "-" +:+ Symbol v :=
                     {| TokenS := Protocol vv; TokenB := Protocol v |}]>
                   (<[Symbol v +:+ "-" +:+ Symbol vv :=
                        {| TokenS := Protocol v; TokenB := Protocol vv |}]> pm))
               pm lt in
    map_Forall (fun _ => P) pm' /\ size pm' <= size pm + 2 * length lt.
Proof.
  induction lt as [|vv lt IH]; intros HP pm Hpm; simpl; [split; [exact Hpm|lia]|].
  destruct (HP vv (or_introl eq_refl)) as [P1 P2].
  match goal with
  | |- context [foldl ?f ?pm1 lt] =>
      destruct (IH (fun x Hx => HP x (or_intror Hx)) pm1) as [IH1 IH2]
  end.
  { apply map_Forall_insert_2; [exact P2|]. apply map_Forall_insert_2; assumption. }
  split; [exact IH1|].
  etransitivity; [exact IH2|].
  match goal with
  | |- size (<[?k1 := ?x1]> (<[?k2 := ?x2]> pm)) + _ <= _ =>
      pose proof (map_size_insert k1 x1 (<[k2 := x2]> pm)) as S1;
      pose proof (map_size_insert k2 x2 pm) as S2
  end.
  simpl length.
  destruct (_ !! _) in S1; destruct (_ !! _) in S2. all: unfold id in *; lia.
Qed.

Lemma pairsMap_joins (T M : gmap string Token) :
  map_Forall (fun _ => joins T M) (pairsMap T M)
  /\ size (pairsMap T M) <= 2 * size T * size M.
Proof.
  unfold pairsMap. rewrite <- (length_rangeValues T), <- (length_rangeValues M).
  assert (forall lm, (forall v, In v lm -> In v (rangeValues M)) ->
            forall pm : gmap string TokenPair,
              map_Forall (fun _ => joins T M) pm ->
              let pm' := foldl (fun pm v =>
                 foldl (fun pm vv =>
                    <[Symbol vv +:+ "-" +:+ Symbol v :=
                        {| TokenS := Protocol vv; TokenB := Protocol v |}]>
                      (<[Symbol v +:+ "-" +:+ Symbol vv :=
                           {| TokenS := Protocol v; TokenB := Protocol vv |}]> pm))
                  pm (rangeValues T)) pm lm in
              map_Forall (fun _ => joins T M) pm'
              /\ size pm' <= size pm + 2 * length (rangeValues T) * length lm) as Hgen.
  { induction lm as [|v lm IH]; intros Hsub pm Hpm; simpl; [split; [exact Hpm|lia]|].
    destruct (pairs_inner (joins T M) v (rangeValues T)) with (pm := pm) as [I1 I2].
    - intros vv Hvv. split; exists vv, v; (split; [exact Hvv|]);
        (split; [apply Hsub; left; reflexivity|]); auto.
    - exact Hpm.
    - destruct (IH (fun x Hx => Hsub x (or_intror Hx)) _ I1) as [O1 O2].
      split; [exact O1|]. cbv zeta in I2, O2. etransitivity; [exact O2|].
      change (length (v :: lm)) with (S (length lm)). rewrite Nat.mul_succ_r.
      revert I2. generalize (length (rangeValues T)). intros a.
      match goal with |- size ?X <= _ -> _ => generalize (size X) end. intros x. nia. }
  destruct (Hgen (rangeValues M) (fun _ Hv => Hv) ∅) as [G1 G2].
  { apply map_Forall_empty. }
  split; [exact G1|]. cbv zeta in G2. rewrite map_size_empty in G2. exact G2.
Qed.

(** X4.  Every pair that [Initialize] appends to [AllTokenPairs] joins the
    address of a supported market and the address of a supported token, in one
    order or the other; at most two pairs are appended per combination of a
    token and a market, and none when a table is empty. *)
Theorem Initialize_pairs_join_market_and_token rds g g' :
  Initialize rds g = Returns g' ->
  exists new,
    AllTokenPairs g' = (AllTokenPairs g ++ new)%list
    /\ length new <= 2 * size (SupportTokens g') * size (SupportMarkets g')
    /\ forall p, In p new ->
         exists token mkt,
           In token (rangeValues (SupportTokens g'))
           /\ In mkt (rangeValues (SupportMarkets g'))
           /\ (p = {| TokenS := Protocol mkt; TokenB := Protocol token |}
               \/ p = {| TokenS := Protocol token; TokenB := Protocol mkt |}).
Proof.
  intros Hr. pose proof (Initialize_rows _ _ _ Hr) as Hr'. rewrite Hr in Hr'.
  injection Hr' as ->. simpl. eexists. split; [reflexivity|].
  destruct (pairsMap_joins (setSupportTokens (Dao.FindUnDeniedTokens rds).1)
                           (setSupportMarkets (Dao.FindUnDeniedMarkets rds).1)) as [J1 J2].
  split; [rewrite length_rangeValues; exact J2|].
  intros p Hp. unfold rangeValues in Hp. apply in_map_iff in Hp as ([k p'] & <- & Hin).
  apply list_elem_of_In, elem_of_map_to_list in Hin. exact (J1 k p' Hin).
Qed.

End RegistryTables.

(** ** Lookups in the registry *)

Section RegistryLookups.
Import GoStrings EthCommon GoBig Types MarketUtil.
Context `{Unicode} `{Common} `{!Dao.Rows} `{BigText} `{!Zeros}.

(** X5.  [WrapMarket] returns no error exactly when, of the two lower-cased
    symbols, one is a supported market and the other a supported token.  So it
    fails for [(a, b)] exactly when it fails for [(b, a)].  When it fails the
    market returned is the empty string and the message names the two
    lower-cased symbols in the order given. *)
Theorem WrapMarket_error_iff g a b :
  ((WrapMarket g a b).2 = None <->
   (IsSupportedMarket g (ToLower a) = true /\ IsSupportedToken g (ToLower b) = true)
   \/ (IsSupportedMarket g (ToLower b) = true /\ IsSupportedToken g (ToLower a) = true))
  /\ ((WrapMarket g a b).2 = None <-> (WrapMarket g b a).2 = None)
  /\ ((WrapMarket g a b).2 <> None ->
      WrapMarket g a b
      = ("", Some ("not supported market type : " +:+ sprintfPair (ToLower a) (ToLower b)))).
Proof.
  unfold WrapMarket.
  destruct (IsSupportedMarket g (ToLower a)), (IsSupportedToken g (ToLower b)),
           (IsSupportedMarket g (ToLower b)), (IsSupportedToken g (ToLower a));
    simpl; (split; [|split]); try tauto; try (intros []; reflexivity);
    try (split; [discriminate|intros [[? ?]|[? ?]]; discriminate]);
    try (split; discriminate).
Qed.

Lemma find_alias g t :
  match List.find (fun kv : string * Token => String.eqb t (Address_Hex (Protocol kv.2)))
                  (rangeEntries (AllTokens g)) with
  | Some kv => AllTokens g !! kv.1 = Some kv.2 /\ Address_Hex (Protocol kv.2) = t
  | None => forall k tok, AllTokens g !! k = Some tok -> Address_Hex (Protocol tok) <> t
  end.
Proof.
  destruct (List.find _ _) as [[k tok]|] eqn:Ef.
  - apply find_some in Ef as [Hin Heq]. apply String.eqb_eq in Heq. simpl in *.
    split; [|congruence].
    apply list_elem_of_In in Hin. apply elem_of_map_to_list in Hin. exact Hin.
  - intros k tok Hk Heq.
    apply elem_of_map_to_list, list_elem_of_In in Hk.
    pose proof (find_none _ _ Ef _ Hk) as Hn. simpl in Hn.
    apply String.eqb_neq in Hn. congruence.
Qed.

Lemma AddressToAlias_none g t :
  (forall k tok, AllTokens g !! k = Some tok -> Address_Hex (Protocol tok) <> t) ->
  AddressToAlias g t = "".
Proof.
  intros Hno. unfold AddressToAlias. pose proof (find_alias g t) as Hf.
  destruct (List.find _ _) as [[k tok]|]; simpl in *; [|reflexivity].
  destruct Hf as [Hk Ht]. exfalso. exact (Hno k tok Hk Ht).
Qed.

Lemma find_alias_in g t (order : list (string * Token)) :
  Permutation order (rangeEntries (AllTokens g)) ->
  match List.find (fun kv : string * Token => String.eqb t (Address_Hex (Protocol kv.2)))
                  order with
  | Some kv => AllTokens g !! kv.1 = Some kv.2 /\ Address_Hex (Protocol kv.2) = t
  | None => forall k tok, AllTokens g !! k = Some tok -> Address_Hex (Protocol tok) <> t
  end.
Proof.
  intros HP. destruct (List.find _ _) as [[k tok]|] eqn:Ef.
  - apply find_some in Ef as [Hin Heq]. apply String.eqb_eq in Heq. simpl in *.
    split; [|congruence].
    apply (Permutation_in _ HP), list_elem_of_In, elem_of_map_to_list in Hin. exact Hin.
  - intros k tok Hk Heq.
    apply elem_of_map_to_list, list_elem_of_In in Hk.
    apply (Permutation_in _ (Permutation_sym HP)) in Hk.
    pose proof (find_none _ _ Ef _ Hk) as Hn. simpl in Hn.
    apply String.eqb_neq in Hn. congruence.
Qed.

(** X6.  Whatever the order in which the loop visits [AllTokens],
    [AddressToAlias] returns the empty string when no token of [AllTokens] has
    the given address text, and the symbol of a token that has it when there
    is one.  Which one is up to the order: every symbol whose token has the
    address text is the result under some order. *)
Theorem AddressToAlias_finds_token g t :
  (forall order,
      Permutation order (rangeEntries (AllTokens g)) ->
      ((forall k tok, AllTokens g !! k = Some tok -> Address_Hex (Protocol tok) <> t) ->
       AddressToAliasIn order t = "")
      /\ ((exists k tok, AllTokens g !! k = Some tok /\ Address_Hex (Protocol tok) = t) ->
          exists tok,
            AllTokens g !! AddressToAliasIn order t = Some tok
            /\ Address_Hex (Protocol tok) = t))
  /\ (forall k tok,
        AllTokens g !! k = Some tok -> Address_Hex (Protocol tok) = t ->
        exists order,
          Permutation order (rangeEntries (AllTokens g))
          /\ AddressToAliasIn order t = k)
  /\ AddressToAlias g t = AddressToAliasIn (rangeEntries (AllTokens g)) t.
Proof.
  split; [|split; [|reflexivity]].
  - intros order HP. unfold AddressToAliasIn.
    pose proof (find_alias_in g t order HP) as Hf.
    destruct (List.find _ _) as [[k tok]|]; simpl in *.
    + destruct Hf as [Hk Ht]. split.
      * intros Hno. exfalso. exact (Hno k tok Hk Ht).
      * intros _. exists tok. auto.
    + split; [reflexivity|]. intros (k & tok & Hk & Ht). exfalso. exact (Hf k tok Hk Ht).
  - intros k tok Hk Ht.
    apply elem_of_map_to_list, elem_of_Permutation in Hk as [rest HP].
    exists ((k, tok) :: rest). split; [symmetry; exact HP|].
    unfold AddressToAliasIn. cbn -[String.eqb]. rewrite Ht, String.eqb_refl. reflexivity.
Qed.

(** X7.  [AliasToAddress] of a symbol that is not in [AllTokens] is the zero
    address.  A non-empty alias found for an address text maps back to an
    address with that text.  And a symbol of [AllTokens] whose address text no
    other symbol shares is found again from its address. *)
Theorem AliasToAddress_AddressToAlias g :
  (forall k, AllTokens g !! k = None -> AliasToAddress g k = Address_zero)
  /\ (forall t, AddressToAlias g t <> "" ->
                Address_Hex (AliasToAddress g (AddressToAlias g t)) = t)
  /\ (forall k tok,
        AllTokens g !! k = Some tok ->
        (forall k' tok', AllTokens g !! k' = Some tok' ->
                         Address_Hex (Protocol tok') = Address_Hex (Protocol tok) -> k' = k) ->
        AddressToAlias g (Address_Hex (AliasToAddress g k)) = k).
Proof.
  split; [|split].
  - intros k Hk. unfold AliasToAddress. rewrite Hk. reflexivity.
  - intros t. unfold AddressToAlias, AliasToAddress. pose proof (find_alias g t) as Hf.
    destruct (List.find _ _) as [[k tok]|]; simpl in *; [|congruence].
    destruct Hf as [-> Ht]. intros _. exact Ht.
  - intros k tok Hk Huniq. unfold AliasToAddress at 1. rewrite Hk.
    unfold AddressToAlias.
    pose proof (find_alias g (Address_Hex (Protocol tok))) as Hf.
    destruct (List.find _ _) as [[k' tok']|]; simpl in *.
    + destruct Hf as [Hk' Ht]. exact (Huniq k' tok' Hk' Ht).
    + exfalso. exact (Hf k tok Hk eq_refl).
Qed.

Lemma ToLower_empty : ToLower "" = "".
Proof. reflexivity. Qed.

(** X8.  After [Initialize], [AddressToAlias] resolves an address to a
    supported token or to the empty string, never to a market that is not also
    listed as a token.  So with an address that no supported token has,
    [WrapMarketByAddress] returns an error in either argument order (the empty
    symbol being neither a token nor a market). *)
Theorem WrapMarketByAddress_resolves_tokens_only rds g g' :
  Initialize rds g = Returns g' ->
  (forall t, AddressToAlias g' t = ""
             \/ IsSupportedToken g' (AddressToAlias g' t) = true)
  /\ (forall s b,
        (forall k tok, SupportTokens g' !! k = Some tok -> Address_Hex (Protocol tok) <> s) ->
        IsSupportedToken g' "" = false -> IsSupportedMarket g' "" = false ->
        (WrapMarketByAddress g' s b).2 <> None /\ (WrapMarketByAddress g' b s).2 <> None).
Proof.
  intros Hr. pose proof (Initialize_AllTokens _ _ _ Hr) as Eall.
  split.
  - intros t. unfold AddressToAlias. pose proof (find_alias g' t) as Hf.
    destruct (List.find _ _) as [[k tok]|]; simpl in *; [right|left; reflexivity].
    destruct Hf as [Hk _]. rewrite Eall in Hk.
    apply IsSupportedToken_true. rewrite Hk. eauto.
  - intros s b Hno Ht Hm.
    assert (AddressToAlias g' s = "") as Es.
    { apply AddressToAlias_none. rewrite Eall. exact Hno. }
    unfold WrapMarketByAddress. rewrite Es. unfold WrapMarket.
    rewrite ToLower_empty, Ht, Hm. rewrite !andb_false_r. simpl. split; discriminate.
Qed.

(** X9.  After [Initialize]: for a string that does not start with "0x",
    [IsBuy] says whether it is, as written, a supported token symbol; for a
    string that starts with "0x", [IsBuy] says whether some supported token has
    that address text (the empty symbol not being a token), so a token whose
    symbol starts with "0x" is found by its address only. *)
Theorem IsBuy_after_Initialize rds g g' s :
  Initialize rds g = Returns g' ->
  (IsAddress s = false -> IsBuy g' s = IsSupportedToken g' s)
  /\ (IsAddress s = true -> IsSupportedToken g' "" = false ->
      (IsBuy g' s = true <->
       exists k tok, SupportTokens g' !! k = Some tok /\ Address_Hex (Protocol tok) = s)).
Proof.
  intros Hr. pose proof (Initialize_AllTokens _ _ _ Hr) as Eall.
  unfold IsBuy. split; intros ->; [reflexivity|]. intros Hempty.
  fold (IsSupportedToken g' (AddressToAlias g' s)).
  unfold AddressToAlias. pose proof (find_alias g' s) as Hf.
  destruct (List.find _ _) as [[k tok]|]; simpl in *.
  - destruct Hf as [Hk Ht]. rewrite Eall in Hk. split; [eauto|]. intros _.
    apply IsSupportedToken_true. rewrite Hk. eauto.
  - rewrite Hempty. split; [discriminate|]. intros (k & tok & Hk & Ht).
    rewrite <- Eall in Hk. exfalso. exact (Hf k tok Hk Ht).
Qed.

End RegistryLookups.

(** ** The range of amounts and prices *)

Section Binary64Division.
Import Float64.
Local Open Scope Z_scope.

Lemma SFdiv_core_normal m1 e1 m2 e2 :
  2 ^ 52 <= Zpos m1 < 2 ^ 53 -> 2 ^ 52 <= Zpos m2 < 2 ^ 53 -> -1021 <= e1 - e2 ->
  SFdiv_core_binary 53 1024 (Zpos m1) e1 (Zpos m2) e2
  = (Zpos m1 * 2 ^ 53 / Zpos m2, e1 - e2 - 53,
     new_location (Zpos m2) (Zpos m1 * 2 ^ 53 mod Zpos m2)).
Proof.
  intros Hm1 Hm2 He. unfold SFdiv_core_binary.
  assert (Zdigits2 (Zpos m1) = 53) as -> by (apply digits2_pos_unique; lia).
  assert (Zdigits2 (Zpos m2) = 53) as -> by (apply digits2_pos_unique; lia).
  cbv zeta. unfold fexp, emin.
  replace (Z.min (Z.max (53 + e1 - (53 + e2) - 53) (3 - 1024 - 53)) (e1 - e2))
    with (e1 - e2 - 53) by lia.
  replace (e1 - e2 - (e1 - e2 - 53)) with 53 by lia.
  rewrite Z.shiftl_mul_pow2 by lia.
  unfold Z.modulo, Z.div.
  destruct (Z.div_eucl (Zpos m1 * 2 ^ 53) (Zpos m2)) as [q r]. reflexivity.
Qed.

(** Dividing a normal number by a normal number. *)
Lemma SFdiv_normal s1 m1 e1 s2 m2 e2 :
  2 ^ 52 <= Zpos m1 < 2 ^ 53 -> 2 ^ 52 <= Zpos m2 < 2 ^ 53 -> -1021 <= e1 - e2 ->
  exists m e,
    SFdiv 53 1024 (S754_finite s1 m1 e1) (S754_finite s2 m2 e2)
    = finite_or_infinity (xorb s1 s2) m e
    /\ 2 ^ 52 <= Zpos m < 2 ^ 53
    /\ e1 - e2 - 53 <= e <= e1 - e2 - 51.
Proof.
  intros Hm1 Hm2 He. unfold SFdiv. rewrite (SFdiv_core_normal _ _ _ _ Hm1 Hm2 He).
  set (q := Zpos m1 * 2 ^ 53 / Zpos m2).
  set (l := new_location _ _).
  assert (2 ^ 52 <= q < 2 ^ 54) as Hq.
  { unfold q. split.
    - apply Z.div_le_lower_bound; [lia|].
      transitivity (2 ^ 53 * 2 ^ 52); [apply Z.mul_le_mono_nonneg_r; lia|].
      rewrite (Z.mul_comm (Zpos m1)). apply Z.mul_le_mono_nonneg_l; lia.
    - apply Z.div_lt_upper_bound; [lia|].
      apply Z.lt_le_trans with (2 ^ 53 * 2 ^ 53); [apply Z.mul_lt_mono_pos_r; lia|].
      change (2 ^ 53 * 2 ^ 53) with (2 ^ 52 * 2 ^ 54).
      apply Z.mul_le_mono_nonneg_r; lia. }
  destruct q as [|qp|qp]; try lia.
  destruct (Z.lt_ge_cases (Zpos qp) (2 ^ 53)) as [Hlt|Hge].
  - assert (Zpos (digits2_pos qp) = 53) as Hd by (apply digits2_pos_unique; lia).
    destruct (binary_round_aux_normal (xorb s1 s2) qp (e1 - e2 - 53) l)
      as (m & e & E & Hm & Hcase); [lia|lia|].
    exists m, e. split; [exact E|]. split; [exact Hm|].
    rewrite Hd in Hcase. cbv zeta in Hcase.
    destruct Hcase as [[Hcase _]|(Hcase & _)]; lia.
  - assert (Zpos (digits2_pos qp) = 54) as Hd by (apply digits2_pos_unique; lia).
    destruct (binary_round_aux_normal (xorb s1 s2) qp (e1 - e2 - 53) l)
      as (m & e & E & Hm & Hcase); [lia|lia|].
    exists m, e. split; [exact E|]. split; [exact Hm|].
    rewrite Hd in Hcase. cbv zeta in Hcase.
    destruct Hcase as [[Hcase _]|(Hcase & _)]; lia.
Qed.

End Binary64Division.

Section PriceRange.
Import GoStrings EthCommon GoBig Types MarketUtil Float64.
Context `{Unicode} `{Common} `{!Dao.Rows} `{BigText}.
Local Open Scope Z_scope.

Lemma Int64_range x : - 2 ^ 63 <= Int64 x < 2 ^ 63.
Proof. unfold Int64. destruct (x <? 0); apply wrapInt64_range. Qed.

(** A non-zero [int64], converted and divided by 1e18. *)
Lemma scaledAmount_normal n :
  n <> 0 -> - 2 ^ 63 <= n < 2 ^ 63 ->
  exists m e,
    scaledAmount n = S754_finite (n <? 0) m e
    /\ 2 ^ 52 <= Zpos m < 2 ^ 53 /\ -112 <= e <= -49.
Proof.
  intros Hn Hr.
  destruct (scaledAmount_shape n Hn) as [[_ Hbig]|(m' & e' & E' & _ & Hhi)]; [lia|].
  specialize (Hhi Hr). exists m', e'. split; [exact E'|].
  revert E'. unfold scaledAmount, Float64.div, Float64.ofInt, Float64.prec, Float64.emax.
  rewrite weiToEther_value.
  assert (forall s p, Zpos p <= 2 ^ 63 ->
            SFdiv 53 1024 (binary_round 53 1024 s p 0) (S754_finite false weiMantissa 7)
            = S754_finite s m' e' -> 2 ^ 52 <= Zpos m' < 2 ^ 53 /\ -112 <= e' <= -49) as Hgen.
  { intros s p Hp.
    destruct (binary_round_int s p) as (m1 & e1 & E1 & Hm1 & He1). rewrite E1.
    pose proof (digits2_pos_bounds p) as [Dlo Dhi].
    assert (1 <= Zpos (digits2_pos p)) as Hd1 by lia.
    assert (Zpos (digits2_pos p) <= 64) as Hd64.
    { destruct (Z.le_gt_cases (Zpos (digits2_pos p)) 64) as [|Hgt]; [assumption|].
      assert (2 ^ 64 <= 2 ^ (Zpos (digits2_pos p) - 1)) by (apply Z.pow_le_mono_r; lia).
      lia. }
    unfold finite_or_infinity at 1.
    destruct (Z.leb_spec e1 971) as [_|Hbad]; [|lia].
    destruct (SFdiv_normal s m1 e1 false weiMantissa 7 Hm1) as (m & e & E & Hm & He);
      [unfold weiMantissa; lia|lia|].
    rewrite E, xorb_false_r. unfold finite_or_infinity.
    destruct (Z.leb_spec e 971) as [_|Hbad]; [|lia].
    intros [= <- <-]. split; [exact Hm|]. lia. }
  destruct n as [|p|p]; [congruence| |]; simpl binary_normalize; apply Hgen; lia.
Qed.

Lemma ByteToFloat_shape amount :
  (Int64 (UnmarshalText amount) = 0 /\ ByteToFloat amount = Float64.zero)
  \/ (Int64 (UnmarshalText amount) <> 0
      /\ exists m e,
          ByteToFloat amount = S754_finite (Int64 (UnmarshalText amount) <? 0) m e
          /\ 2 ^ 52 <= Zpos m < 2 ^ 53 /\ -112 <= e <= -49).
Proof.
  change (ByteToFloat amount) with (scaledAmount (Int64 (UnmarshalText amount))).
  destruct (Z.eq_dec (Int64 (UnmarshalText amount)) 0) as [E|Hne].
  - left. rewrite E. split; reflexivity.
  - right. split; [exact Hne|]. apply scaledAmount_normal; [exact Hne|apply Int64_range].
Qed.

(** X10.  [ByteToFloat] never returns a NaN, an infinity or a negative zero:
    it returns 0 when the decoded integer cut to [int64] is 0, and else a
    normal number of that [int64]'s sign with an exponent from -112 to -49, so
    of magnitude at least 2^-60 and below 16. *)
Theorem ByteToFloat_finite_bounded amount :
  (Int64 (UnmarshalText amount) = 0 /\ ByteToFloat amount = Float64.zero)
  \/ (Int64 (UnmarshalText amount) <> 0
      /\ exists m e,
          ByteToFloat amount = S754_finite (Int64 (UnmarshalText amount) <? 0) m e
          /\ 2 ^ 52 <= Zpos m < 2 ^ 53 /\ -112 <= e <= -49).
Proof. apply ByteToFloat_shape. Qed.

(** X11.  [CalculatePrice] never returns a NaN or an infinity.  It returns 0
    when one of the two amounts, cut to [int64], is 0; else a normal number,
    negative exactly when the two [int64] differ in sign, with an exponent
    from -116 to 12: the division neither overflows nor underflows. *)
Theorem CalculatePrice_finite g amountS amountB s b :
  let kS := Int64 (UnmarshalText amountS) in
  let kB := Int64 (UnmarshalText amountB) in
  ((kS = 0 \/ kB = 0) /\ CalculatePrice g amountS amountB s b = Float64.zero)
  \/ (kS <> 0 /\ kB <> 0
      /\ exists m e,
          CalculatePrice g amountS amountB s b
          = S754_finite (xorb (kS <? 0) (kB <? 0)) m e
          /\ 2 ^ 52 <= Zpos m < 2 ^ 53 /\ -116 <= e <= 12).
Proof.
  intros kS kB. unfold CalculatePrice.
  destruct (ByteToFloat_shape amountS) as [[ES ->]|(HS & mS & eS & -> & HmS & HeS)].
  { left. split; [left; exact ES|reflexivity]. }
  destruct (ByteToFloat_shape amountB) as [[EB ->]|(HB & mB & eB & -> & HmB & HeB)].
  { left. split; [right; exact EB|]. rewrite orb_true_r. reflexivity. }
  right. split; [exact HS|]. split; [exact HB|].
  fold kS kB.
  assert (forall sg m e, Float64.eqb (S754_finite sg m e) Float64.zero = false) as Hz
    by (intros [] ? ?; reflexivity).
  rewrite !Hz. simpl orb. cbv iota.
  destruct (IsBuy g s).
  - destruct (SFdiv_normal (kB <? 0) mB eB (kS <? 0) mS eS HmB HmS) as (m & e & E & Hm & He);
      [lia|].
    exists m, e. unfold Float64.div, Float64.prec, Float64.emax. rewrite E.
    unfold finite_or_infinity. destruct (Z.leb_spec e 971) as [_|Hbad]; [|lia].
    rewrite xorb_comm. split; [reflexivity|]. split; [exact Hm|lia].
  - destruct (SFdiv_normal (kS <? 0) mS eS (kB <? 0) mB eB HmS HmB) as (m & e & E & Hm & He);
      [lia|].
    exists m, e. unfold Float64.div, Float64.prec, Float64.emax. rewrite E.
    unfold finite_or_infinity. destruct (Z.leb_spec e 971) as [_|Hbad]; [|lia].
    split; [reflexivity|]. split; [exact Hm|lia].
Qed.

End PriceRange.

(** ** Contract versions, and amounts back to text *)

Section ContractVersions.
Import GoStrings EthCommon GoBig Types MarketUtil.

Lemma ContractVersionConfig_entries :
  Permutation (rangeEntries ContractVersionConfig)
              [("v1.0", "0x39kdjfskdfjsdfj"); ("v1.2", "0x39kdjfskdfjsdfj")].
Proof.
  assert (rangeEntries ContractVersionConfig
          = [("v1.0", "0x39kdjfskdfjsdfj"); ("v1.2", "0x39kdjfskdfjsdfj")]
          \/ rangeEntries ContractVersionConfig
             = [("v1.2", "0x39kdjfskdfjsdfj"); ("v1.0", "0x39kdjfskdfjsdfj")]) as [->| ->]
    by (vm_compute; auto).
  - reflexivity.
  - apply perm_swap.
Qed.

(** X12.  Whatever the iteration order of [ContractVersionConfig],
    [IsSupportedContract] holds of the one configured address and of no other
    string, and [getContractVersion] returns "v1.0", "v1.2" or, for another
    address, the empty string.  For the configured address both versions are
    returned, each under some iteration order: the two keys share the
    address. *)
Theorem getContractVersion_depends_on_order :
  (forall order address,
      Permutation order (rangeEntries ContractVersionConfig) ->
      IsSupportedContractIn order address = String.eqb address "0x39kdjfskdfjsdfj"
      /\ (getContractVersionIn order address = "v1.0"
          \/ getContractVersionIn order address = "v1.2"
          \/ getContractVersionIn order address = "" /\ address <> "0x39kdjfskdfjsdfj"))
  /\ (exists order1 order2,
        Permutation order1 (rangeEntries ContractVersionConfig)
        /\ Permutation order2 (rangeEntries ContractVersionConfig)
        /\ getContractVersionIn order1 "0x39kdjfskdfjsdfj" = "v1.0"
        /\ getContractVersionIn order2 "0x39kdjfskdfjsdfj" = "v1.2").
Proof.
  split.
  - intros order address HP. rewrite ContractVersionConfig_entries in HP.
    apply Permutation_sym, Permutation_length_2_inv in HP as [-> | ->];
      unfold IsSupportedContractIn, getContractVersionIn; cbn -[String.eqb];
      rewrite (String.eqb_sym _ address);
      destruct (String.eqb_spec address "0x39kdjfskdfjsdfj"); cbn; auto.
  - exists [("v1.0", "0x39kdjfskdfjsdfj"); ("v1.2", "0x39kdjfskdfjsdfj")],
           [("v1.2", "0x39kdjfskdfjsdfj"); ("v1.0", "0x39kdjfskdfjsdfj")].
    rewrite ContractVersionConfig_entries.
    split; [reflexivity|]. split; [apply perm_swap|]. split; reflexivity.
Qed.

End ContractVersions.

Section ByteFloatRoundTrip.
Import GoStrings EthCommon GoBig Types MarketUtil Float64.
Context `{BigText} `{BigPrint} `{Platform}.
Local Open Scope Z_scope.

Lemma toInt64_backTo n x :
  - 2 ^ 63 <= n < 2 ^ 63 -> backTo n x = true ->
  toInt64 (Float64.mul x weiToEther) = n.
Proof.
  intros Hn. unfold backTo, toInt64.
  destruct (truncate _) as [z|]; [|discriminate].
  intros E. apply Z.eqb_eq in E. subst z.
  destruct (Z.leb_spec (- 2 ^ 63) n); [|lia].
  destruct (Z.ltb_spec n (2 ^ 63)); [|lia]. reflexivity.
Qed.

Lemma small_amounts_come_back :
  forallb (fun n => backTo n (scaledAmount n))
          (map (fun i => Z.of_nat i - 446) (seq 0 893)) = true.
Proof. vm_compute. reflexivity. Qed.

Lemma whole_ethers_come_back :
  forallb (fun k => backTo (k * 10 ^ 18) (scaledAmount (k * 10 ^ 18)))
          (map (fun i => Z.of_nat i - 9) (seq 0 19)) = true.
Proof. vm_compute. reflexivity. Qed.

(** X13.  [FloatToByte] after [ByteToFloat] gives the text of the decoded
    integer back for every integer from -446 to 446, and for every whole
    multiple of 1e18 from -9e18 to 9e18; for 447 it gives the text of 446: the
    way through [float64] loses a unit. *)
Theorem FloatToByte_ByteToFloat_loses_units :
  (forall amount,
      -446 <= UnmarshalText amount <= 446 ->
      FloatToByte (ByteToFloat amount) = MarshalText (UnmarshalText amount))
  /\ (forall amount,
        UnmarshalText amount = 447 ->
        FloatToByte (ByteToFloat amount) = MarshalText 446)
  /\ (forall amount k,
        -9 <= k <= 9 -> UnmarshalText amount = k * 10 ^ 18 ->
        FloatToByte (ByteToFloat amount) = MarshalText (k * 10 ^ 18)).
Proof.
  split; [|split].
  - intros amount Hn. unfold FloatToByte. f_equal.
    rewrite ByteToFloat_in_range by lia.
    apply toInt64_backTo; [lia|].
    pose proof small_amounts_come_back as Hall. rewrite forallb_forall in Hall.
    apply Hall. apply in_map_iff. exists (Z.to_nat (UnmarshalText amount + 446)).
    split; [lia|]. apply in_seq. lia.
  - intros amount E. unfold FloatToByte. f_equal.
    rewrite ByteToFloat_in_range by lia. rewrite E.
    apply toInt64_backTo; [lia|]. vm_compute. reflexivity.
  - intros amount k Hk E. unfold FloatToByte. f_equal.
    rewrite ByteToFloat_in_range by lia. rewrite E.
    apply toInt64_backTo; [lia|].
    pose proof whole_ethers_come_back as Hall. rewrite forallb_forall in Hall.
    apply (Hall k). apply in_map_iff. exists (Z.to_nat (k + 9)).
    split; [lia|]. apply in_seq. lia.
Qed.

End ByteFloatRoundTrip.

(** ** What the event handlers publish *)

Section HandlerOutcomes.
Import GoStrings EthCommon GoBig Types Extractor EventEmitter.
Context `{Unicode} `{Common} `{!Dao.Rows} `{BigText} `{Abi} `{!EthAccessor.Converters}.

Ltac step_monad :=
  cbv beta iota zeta delta [mbind mret Run_bind Run_ret Debugf Errorf logf Emit panic].

Lemma omap_cons_app {A B} (f : A -> option B) x l :
  omap f (x :: l) = (option_list (f x) ++ omap f l)%list.
Proof. change (omap f (x :: l)) with (match f x with Some y => y :: omap f l | None => omap f l end). destruct (f x); reflexivity. Qed.

Lemma omap_seq_ext {B} (f f' : nat -> option B) n : forall start,
  (forall i, start <= i < start + n -> f i = f' i) ->
  omap f (seq start n) = omap f' (seq start n).
Proof.
  induction n as [|n IH]; intros start Hext; [reflexivity|].
  simpl seq. rewrite !omap_cons_app. rewrite (Hext start) by lia.
  rewrite (IH (S start)); [reflexivity|].
  intros i Hi. apply Hext. lia.
Qed.

Lemma foldM_cons {A S} (f : S -> A -> Run S) s x l t :
  foldM f s (x :: l) t
  = match f s x t with
    | (Returned s', t') => foldM f s' l t'
    | (Panicked, t') => (Panicked, t')
    end.
Proof. reflexivity. Qed.

(** One step of the second loop. *)
Lemma matchStep_run g ordermap contractData fl sv i v t :
  fl !! i = Some v ->
  exists sv' lg,
    matchStep g ordermap contractData (fl, sv) i t
    = (Returned (<[i := matchedFill g ordermap v]> fl, sv'),
       {| logged := lg;
          emitted := (emitted t ++ option_list (matchEvent g ordermap fl i))%list |}).
Proof.
  intros Hv.
  assert (matchEvent g ordermap fl i
          = match ordermap !! Hash_Hex (of_OrderHash v) with
            | Some ord =>
                Some (OrderManagerExtractorFill, PubOrderFilled i (fill_setOrder g ord v))
            | None => None
            end) as -> by (unfold matchEvent; rewrite Hv; reflexivity).
  unfold matchStep, matchedFill.
  unfold mbind at 1, Run_bind at 1. rewrite (index_lookup _ _ _ _ Hv).
  destruct (ordermap !! Hash_Hex (of_OrderHash v)) as [ord|]; step_monad.
  - eexists _, _. reflexivity.
  - rewrite list_insert_id by exact Hv. rewrite app_nil_r. eexists _, _. reflexivity.
Qed.

Lemma matchEvent_insert g ordermap fl i j x :
  i <> j -> matchEvent g ordermap (<[i := x]> fl) j = matchEvent g ordermap fl j.
Proof. intros Hne. unfold matchEvent. rewrite list_lookup_insert_ne by exact Hne. reflexivity. Qed.

(** The second loop: every fill is replaced by its matched form, and the
    matched ones are published, in order. *)
Lemma matchLoop_run g ordermap contractData n : forall start fl sv t,
  start + n <= length fl ->
  exists fl' sv' t',
    foldM (matchStep g ordermap contractData) (fl, sv) (seq start n) t
    = (Returned (fl', sv'), t')
    /\ length fl' = length fl
    /\ (forall j, fl' !! j
                  = if decide (start <= j < start + n)
                    then matchedFill g ordermap <$> fl !! j else fl !! j)
    /\ emitted t' = (emitted t ++ omap (matchEvent g ordermap fl) (seq start n))%list.
Proof.
  induction n as [|n IH]; intros start fl sv t Hn.
  - exists fl, sv, t. simpl. rewrite app_nil_r. repeat split.
    intros j. destruct (decide _); [lia|reflexivity].
  - destruct (lookup_lt_is_Some_2 fl start) as [v Hv]; [lia|].
    destruct (matchStep_run g ordermap contractData fl sv start v t Hv) as (sv1 & lg & E1).
    simpl seq. rewrite foldM_cons, E1.
    destruct (IH (S start) (<[start := matchedFill g ordermap v]> fl) sv1
                 {| logged := lg;
                    emitted := (emitted t
                                ++ option_list (matchEvent g ordermap fl start))%list |})
      as (fl' & sv' & t' & Ef & Hlen & Hlk & Hem); [rewrite length_insert; lia|].
    exists fl', sv', t'. split; [exact Ef|]. split; [rewrite Hlen; apply length_insert|].
    split.
    + intros j. rewrite Hlk.
      destruct (decide (j = start)) as [->|Hne].
      * destruct (decide (S start <= start < S start + n)); [lia|].
        destruct (decide (start <= start < start + S n)); [|lia].
        rewrite list_lookup_insert_eq by lia. rewrite Hv. reflexivity.
      * rewrite list_lookup_insert_ne by congruence.
        destruct (decide (S start <= j < S start + n)),
                 (decide (start <= j < start + S n)); try reflexivity; lia.
    + rewrite Hem. simpl emitted. rewrite <- app_assoc. f_equal.
      rewrite omap_cons_app. f_equal.
      apply omap_seq_ext. intros i Hi. apply matchEvent_insert. lia.
Qed.

Lemma linkStep_run fl i t :
  i < length fl ->
  exists fill,
    fl !! i = Some fill
    /\ exists sellTo buyFrom,
      linkEvent fl i
      = Some (TxManagerOrderFilledEvent,
              PubOrderFilled i (fill_setCounterparties sellTo buyFrom fill))
      /\ linkStep fl i t
         = (Returned (<[i := fill_setCounterparties sellTo buyFrom fill]> fl),
            {| logged := logged t;
               emitted := (emitted t ++ option_list (linkEvent fl i))%list |}).
Proof.
  intros Hi. unfold linkStep, linkEvent, sellToIndex, buyFromIndex.
  destruct (lookup_lt_is_Some_2 fl i Hi) as [fill Hfill].
  exists fill. split; [exact Hfill|].
  assert (exists vs, fl !! (if (i =? length fl - 1)%nat then 0 else i + 1) = Some vs
            /\ (if (i =? length fl - 1)%nat then index fl 0 else index fl (i + 1)) t
               = (Returned vs, t)) as (vs & Hvs & Es).
  { destruct (Nat.eqb_spec i (length fl - 1)).
    - destruct (lookup_lt_is_Some_2 fl 0) as [x Hx]; [lia|].
      exists x. split; [exact Hx|apply index_lookup, Hx].
    - destruct (lookup_lt_is_Some_2 fl (i + 1)) as [x Hx]; [lia|].
      exists x. split; [exact Hx|apply index_lookup, Hx]. }
  assert (exists vb, fl !! (if (i =? 0)%nat then length fl - 1 else i - 1) = Some vb
            /\ (if (i =? 0)%nat then index fl (length fl - 1) else index fl (i - 1)) t
               = (Returned vb, t)) as (vb & Hvb & Eb).
  { destruct (Nat.eqb_spec i 0).
    - destruct (lookup_lt_is_Some_2 fl (length fl - 1)) as [x Hx]; [lia|].
      exists x. split; [exact Hx|apply index_lookup, Hx].
    - destruct (lookup_lt_is_Some_2 fl (i - 1)) as [x Hx]; [lia|].
      exists x. split; [exact Hx|apply index_lookup, Hx]. }
  exists (of_Owner vs), (of_Owner vb).
  rewrite Hfill, Hvs, Hvb. split; [reflexivity|].
  unfold mbind at 1, Run_bind at 1. rewrite (index_lookup _ _ _ _ Hfill).
  unfold mbind at 1, Run_bind at 1. rewrite Es.
  unfold mbind at 1, Run_bind at 1. rewrite Eb.
  step_monad. reflexivity.
Qed.

(** Setting the counterparties of one fill leaves the events of the other
    places as they were: the owners are not touched. *)
Lemma linkEvent_insert fl i j fill sellTo buyFrom :
  fl !! i = Some fill -> i <> j ->
  linkEvent (<[i := fill_setCounterparties sellTo buyFrom fill]> fl) j = linkEvent fl j.
Proof.
  intros Hfill Hne. unfold linkEvent. rewrite length_insert.
  rewrite (list_lookup_insert_ne fl i j) by exact Hne.
  destruct (fl !! j) as [v|]; [|reflexivity]. simpl.
  assert (forall k, of_Owner <$> (<[i := fill_setCounterparties sellTo buyFrom fill]> fl) !! k
                    = of_Owner <$> fl !! k) as Hown.
  { intros k. destruct (decide (i = k)) as [<-|Hk].
    - destruct (decide (i < length fl)).
      + rewrite list_lookup_insert_eq by assumption. rewrite Hfill. reflexivity.
      + apply lookup_lt_Some in Hfill. lia.
    - rewrite list_lookup_insert_ne by exact Hk. reflexivity. }
  pose proof (Hown (sellToIndex (length fl) j)) as Hs.
  pose proof (Hown (buyFromIndex (length fl) j)) as Hb.
  destruct (<[i:=_]> fl !! sellToIndex (length fl) j) as [s1|],
           (fl !! sellToIndex (length fl) j) as [s2|]; simpl in Hs; try discriminate;
    [|reflexivity].
  destruct (<[i:=_]> fl !! buyFromIndex (length fl) j) as [b1|],
           (fl !! buyFromIndex (length fl) j) as [b2|]; simpl in Hb; try discriminate;
    [|reflexivity].
  simpl. injection Hs as ->. injection Hb as ->. reflexivity.
Qed.

(** The third loop publishes every fill of the list, linked to its
    neighbours in the ring. *)
Lemma linkLoop_run n : forall start fl t,
  start + n <= length fl ->
  exists fl' t',
    foldM linkStep fl (seq start n) t = (Returned fl', t')
    /\ emitted t' = (emitted t ++ omap (linkEvent fl) (seq start n))%list.
Proof.
  induction n as [|n IH]; intros start fl t Hn.
  - exists fl, t. simpl. rewrite app_nil_r. auto.
  - destruct (linkStep_run fl start t) as (fill & Hfill & sellTo & buyFrom & _ & Es); [lia|].
    simpl seq. rewrite foldM_cons, Es.
    destruct (IH (S start) (<[start := fill_setCounterparties sellTo buyFrom fill]> fl)
                 {| logged := logged t;
                    emitted := (emitted t ++ option_list (linkEvent fl start))%list |})
      as (fl' & t' & Ef & Hem); [rewrite length_insert; lia|].
    exists fl', t'. split; [exact Ef|].
    rewrite Hem. simpl emitted. rewrite <- app_assoc. f_equal.
    rewrite omap_cons_app. f_equal.
    apply omap_seq_ext. intros i Hi. apply linkEvent_insert; [exact Hfill|lia].
Qed.

Lemma forEach_log_emitted {A} (l : list A) fmt contractData : forall t,
  exists t',
    forEach l (fun _ => Debugf fmt contractData) t = (Returned tt, t')
    /\ emitted t' = emitted t.
Proof.
  induction l as [|x l IH]; intros t; simpl.
  - exists t. auto.
  - unfold forEach in *. simpl. step_monad.
    match goal with
    | |- context [foldM _ tt l ?t0] => destruct (IH t0) as (t' & Ef & He)
    end.
    exists t'. split; [exact Ef|]. rewrite He. reflexivity.
Qed.

Lemma handleRingMinedEvent_run
    processor g contractData e topic1 ringmined fills ordermap err t :
  Event contractData = CE_RingMined e ->
  Topics contractData !! 1 = Some topic1 ->
  EthAccessor.RingMined_ConvertDown
    {| EthAccessor.RingHash := HexToHash topic1;
       EthAccessor.RingMined_data := EthAccessor.RingMined_data e |}
  = (ringmined, fills, None) ->
  Dao.GetOrdersByHash (db processor)
    (map (fun f => Hash_Hex (of_OrderHash f))
         (map (fill_setTxInfo (TxInfo contractData)) fills))
  = (ordermap, err) ->
  let fillList := map (fill_setTxInfo (TxInfo contractData)) fills in
  exists t',
    handleRingMinedEvent processor g contractData t = (Returned nilError, t')
    /\ emitted t'
       = (emitted t
          ++ [(OrderManagerExtractorRingMined,
               PubRingMined {| rm_TxInfo := TxInfo contractData;
                               rm_data := rm_data ringmined |})]
          ++ match err with
             | Some _ => []
             | None =>
                 omap (matchEvent g ordermap fillList) (seq 0 (length fills))
                 ++ omap (linkEvent (map (matchedFill g ordermap) fillList))
                         (seq 0 (length fills))
             end)%list.
Proof.
  intros He Ht Ec Eo fillList. unfold handleRingMinedEvent.
  assert ((length (Topics contractData) <? 2)%nat = false) as ->.
  { apply Nat.ltb_ge. apply lookup_lt_Some in Ht. lia. }
  rewrite He. unfold mbind, Run_bind at 1. unfold mret, Run_ret at 1.
  unfold Run_bind at 1. rewrite (index_lookup _ _ _ _ Ht).
  rewrite Ec.
  unfold Run_bind at 1. unfold Debugf at 1, logf at 1.
  unfold Run_bind at 1. unfold Emit at 1.
  unfold Run_bind at 1.
  match goal with
  | |- context [forEach fills ?f ?t0] =>
      destruct (forEach_log_emitted fills
        "extractor,tx:%s orderFilled event ringhash:%s, amountS:%s, amountB:%s, orderhash:%s, lrcFee:%s, lrcReward:%s, nextOrderhash:%s, preOrderhash:%s, ringIndex:%s"
        contractData t0) as (t1 & Ef & Hem1)
  end.
  rewrite Ef. rewrite Eo. destruct err as [msg|].
  { step_monad. eexists. split; [reflexivity|]. simpl emitted. rewrite Hem1. reflexivity. }
  unfold Run_bind at 1. fold fillList.
  destruct (matchLoop_run g ordermap contractData (length fillList) 0 fillList [] t1)
    as (fl2 & sv2 & t2 & Em & Hlen2 & Hlk2 & Hem2); [lia|].
  rewrite Em. unfold Run_bind at 1.
  assert (fl2 = map (matchedFill g ordermap) fillList) as Efl2.
  { apply list_eq. intros j. rewrite Hlk2, list_lookup_fmap.
    destruct (decide (0 <= j < 0 + length fillList)) as [|Hout]; [reflexivity|].
    rewrite lookup_ge_None_2 by lia. reflexivity. }
  destruct (linkLoop_run (length fl2) 0 fl2 t2) as (fl3 & t3 & El & Hem3); [lia|].
  rewrite El. exists t3. split; [reflexivity|].
  rewrite Hem3, Hem2, Hem1. simpl emitted. rewrite Hlen2, Efl2.
  unfold fillList at 2 4. rewrite length_map. rewrite <- !app_assoc. reflexivity.
Qed.


Lemma Forall_omap {A B} (P : B -> Prop) (f : A -> option B) (l : list A) :
  (forall x y, f x = Some y -> P y) -> Forall P (omap f l).
Proof.
  intros Hf. induction l as [|x l IH]; [apply List.Forall_nil|].
  rewrite omap_cons_app. apply Forall_app. split; [|exact IH].
  destruct (f x) as [y|] eqn:E; simpl; [|apply List.Forall_nil].
  apply List.Forall_cons; [exact (Hf x y E)|apply List.Forall_nil].
Qed.

Lemma matchEvent_txInfo g ordermap info fills i p :
  matchEvent g ordermap (map (fill_setTxInfo info) fills) i = Some p ->
  txInfoOf p.2 = info.
Proof.
  unfold matchEvent. rewrite list_lookup_fmap.
  destruct (fills !! i) as [f|]; [|discriminate]. simpl.
  destruct (ordermap !! _); [|discriminate]. intros [= <-]. reflexivity.
Qed.

Lemma linkEvent_txInfo g ordermap info fills i p :
  linkEvent (map (matchedFill g ordermap) (map (fill_setTxInfo info) fills)) i = Some p ->
  txInfoOf p.2 = info.
Proof.
  unfold linkEvent. rewrite !list_lookup_fmap.
  destruct (fills !! i) as [f|]; [|discriminate]. simpl.
  destruct (_ !! sellToIndex _ i); [|discriminate]. simpl.
  destruct (_ !! buyFromIndex _ i); [|discriminate]. simpl.
  intros [= <-]. simpl. unfold matchedFill. destruct (ordermap !! _); reflexivity.
Qed.

Ltac run_monad :=
  cbv beta iota zeta delta [mbind mret Run_bind Run_ret Debugf Errorf logf Emit panic
                            snd fst emitted logged].

Ltac close_Forall :=
  repeat (apply List.Forall_cons; [reflexivity|]); apply List.Forall_nil.

Ltac close_appends :=
  split;
  [ lazymatch goal with
    | |- exists new, ?lhs = _ /\ _ =>
        lazymatch lhs with
        | ((?a ++ ?b) ++ ?c)%list =>
            exists (b ++ c)%list; split; [symmetry; apply app_assoc|close_Forall]
        | (?a ++ ?b)%list =>
            exists b; split; [reflexivity|close_Forall]
        | _ =>
            exists []; split; [symmetry; apply app_nil_r|apply List.Forall_nil]
        end
    end
  | let Hk := fresh "Hk" in intros Hk; first [reflexivity | discriminate Hk] ].

Ltac simple_handler :=
  unfold appends;
  lazymatch goal with
  | |- context [(length (Topics ?c) <? ?n)%nat] =>
      destruct (Nat.ltb_spec (length (Topics c)) n) as [Hshort|Hlong];
      [ run_monad; close_appends | ]
  | _ => idtac
  end;
  lazymatch goal with
  | |- context [Event ?c] => destruct (Event c) eqn:Hev
  end;
  try (run_monad; close_appends; fail);
  unfold index;
  repeat lazymatch goal with
    | |- context [Topics ?c !! ?i] =>
        let Ht := fresh "Ht" in
        destruct (Topics c !! i) as [?|] eqn:Ht;
        [ | exfalso; apply lookup_ge_None in Ht; lia ]
    end;
  run_monad;
  try lazymatch goal with
      | |- context [HasSpender ?p ?x] => destruct (HasSpender p x)
      end;
  run_monad; close_appends.

Lemma handleOrderCancelledEvent_appends contractData t :
  appends OrderCancelledKind contractData t (handleOrderCancelledEvent contractData t).
Proof. unfold handleOrderCancelledEvent. simple_handler. Qed.

Lemma handleCutoffEvent_appends contractData t :
  appends CutoffKind contractData t (handleCutoffEvent contractData t).
Proof. unfold handleCutoffEvent. simple_handler. Qed.

Lemma handleCutoffPairEvent_appends contractData t :
  appends CutoffPairKind contractData t (handleCutoffPairEvent contractData t).
Proof. unfold handleCutoffPairEvent. simple_handler. Qed.

Lemma handleTransferEvent_appends contractData t :
  appends TransferKind contractData t (handleTransferEvent contractData t).
Proof. unfold handleTransferEvent. simple_handler. Qed.

Lemma handleApprovalEvent_appends processor contractData t :
  appends ApprovalKind contractData t (handleApprovalEvent processor contractData t).
Proof.
  unfold handleApprovalEvent. simple_handler.
Qed.

Lemma handleTokenRegisteredEvent_appends contractData t :
  appends TokenRegisteredKind contractData t (handleTokenRegisteredEvent contractData t).
Proof. unfold handleTokenRegisteredEvent. simple_handler. Qed.

Lemma handleTokenUnRegisteredEvent_appends contractData t :
  appends TokenUnRegisteredKind contractData t (handleTokenUnRegisteredEvent contractData t).
Proof. unfold handleTokenUnRegisteredEvent. simple_handler. Qed.

Lemma handleAddressAuthorizedEvent_appends contractData t :
  appends AddressAuthorizedKind contractData t (handleAddressAuthorizedEvent contractData t).
Proof. unfold handleAddressAuthorizedEvent. simple_handler. Qed.

Lemma handleAddressDeAuthorizedEvent_appends contractData t :
  appends AddressDeAuthorizedKind contractData t
          (handleAddressDeAuthorizedEvent contractData t).
Proof. unfold handleAddressDeAuthorizedEvent. simple_handler. Qed.

Lemma handleWethDepositEvent_appends contractData t :
  appends WethDepositKind contractData t (handleWethDepositEvent contractData t).
Proof. unfold handleWethDepositEvent. simple_handler. Qed.

Lemma handleWethWithdrawalEvent_appends contractData t :
  appends WethWithdrawalKind contractData t (handleWethWithdrawalEvent contractData t).
Proof. unfold handleWethWithdrawalEvent. simple_handler. Qed.

Lemma handleRingMinedEvent_appends processor g contractData t :
  appends RingMinedKind contractData t (handleRingMinedEvent processor g contractData t).
Proof.
  unfold appends.
  destruct (Nat.ltb_spec (length (Topics contractData)) 2) as [Hshort|Hlong].
  { unfold handleRingMinedEvent. apply Nat.ltb_lt in Hshort. rewrite Hshort.
    run_monad. close_appends. }
  destruct (Event contractData) eqn:Hev;
    try (unfold handleRingMinedEvent; rewrite Hev;
         destruct (length (Topics contractData) <? 2)%nat; run_monad; close_appends; fail).
  destruct (Topics contractData !! 1) as [topic1|] eqn:Ht;
    [|exfalso; apply lookup_ge_None in Ht; lia].
  destruct (EthAccessor.RingMined_ConvertDown
              {| EthAccessor.RingHash := HexToHash topic1;
                 EthAccessor.RingMined_data := EthAccessor.RingMined_data e |})
    as [[ringmined fills] [msg|]] eqn:Ec.
  { unfold handleRingMinedEvent. apply Nat.ltb_ge in Hlong. rewrite Hlong, Hev.
    unfold index. rewrite Ht. run_monad. rewrite Ec. run_monad. close_appends. }
  destruct (Dao.GetOrdersByHash (db processor)
              (map (fun f => Hash_Hex (of_OrderHash f))
                   (map (fill_setTxInfo (TxInfo contractData)) fills)))
    as [ordermap err] eqn:Eo.
  destruct (handleRingMinedEvent_run processor g contractData e topic1 ringmined
              fills ordermap err t Hev Ht Ec Eo) as (t' & -> & Hem).
  simpl. split; [|reflexivity].
  eexists. split; [exact Hem|].
  apply List.Forall_cons; [reflexivity|].
  destruct err; [apply List.Forall_nil|].
  apply Forall_app. split; apply Forall_omap; intros i p Hp.
  - exact (matchEvent_txInfo _ _ _ _ _ _ Hp).
  - exact (linkEvent_txInfo _ _ _ _ _ _ Hp).
Qed.

(** Every handler the [load...] functions subscribe. *)
Lemma eventWatcher_appends processor g name handler contractData t :
  eventWatcher processor g name = Some handler ->
  exists kind,
    contractEventKind name = Some kind
    /\ appends kind contractData t (handler contractData t).
Proof.
  unfold eventWatcher, contractEventKind.
  repeat match goal with
         | |- context [String.eqb name ?c] =>
             destruct (String.eqb_spec name c) as [->|?]
         end;
    simpl; intros Hw; try discriminate Hw; injection Hw as <-;
    eexists; (split; [reflexivity|]).
  - apply handleRingMinedEvent_appends.
  - apply handleOrderCancelledEvent_appends.
  - apply handleCutoffEvent_appends.
  - apply handleCutoffPairEvent_appends.
  - apply handleTransferEvent_appends.
  - apply handleApprovalEvent_appends.
  - apply handleWethDepositEvent_appends.
  - apply handleWethWithdrawalEvent_appends.
  - apply handleTokenRegisteredEvent_appends.
  - apply handleTokenUnRegisteredEvent_appends.
  - apply handleAddressAuthorizedEvent_appends.
  - apply handleAddressDeAuthorizedEvent_appends.
Qed.

(** X15.  A handler subscribed for an event name, run on a log that carries
    the struct the subscription allocated for that name, returns nil: it does
    not panic, whatever the number of topics, the converted data and the
    store's answers, and it never returns an error. *)
Theorem handlers_return_nil_on_installed_struct processor g name handler contractData t :
  eventWatcher processor g name = Some handler ->
  contractEventKind name = Some (kindOf (Event contractData)) ->
  exists t', handler contractData t = (Returned nilError, t').
Proof.
  intros Hw Hk.
  destruct (eventWatcher_appends processor g name handler contractData t Hw)
    as (kind & Hkind & _ & Hret).
  rewrite Hkind in Hk. injection Hk as ->.
  specialize (Hret eq_refl).
  destruct (handler contractData t) as [r t']. simpl in Hret. subst r. eauto.
Qed.

(** X16.  Whatever the log, a subscribed handler only appends to what has
    been published, and every event it appends carries the transaction info of
    the log it was run on. *)
Theorem handlers_publish_the_log_transaction processor g name handler contractData t :
  eventWatcher processor g name = Some handler ->
  exists new,
    emitted (handler contractData t).2 = (emitted t ++ new)%list
    /\ Forall (fun p => txInfoOf p.2 = TxInfo contractData) new.
Proof.
  intros Hw.
  destruct (eventWatcher_appends processor g name handler contractData t Hw)
    as (kind & _ & Hnew & _).
  exact Hnew.
Qed.

End HandlerOutcomes.

(** ** The address tables *)

Section AddressTables.
Import GoStrings EthCommon GoBig Types Extractor EventEmitter.
Context `{Unicode} `{Common} `{!Dao.Rows} `{BigText} `{Abi} `{!EthAccessor.Converters}.
Context `{!Zeros} `{!Types.Constants} {Address_eq_dec : EqDecision Address}.

Lemma mapSet_is_Some {V} (m : Address -> option V) k v a :
  is_Some (mapSet m k v a) <-> k = a \/ is_Some (m a).
Proof.
  unfold mapSet. destruct (decide (a = k)) as [->|Hne].
  - split; [auto|eauto].
  - split; [auto|]. intros [->|Hs]; [congruence|exact Hs].
Qed.

(** The first loop of [loadProtocolAddress]. *)
Lemma load_tokens (tokens : list Token) : forall book a,
  let book' :=
    foldl (fun bk v =>
             {| protocols := mapSet (protocols bk) (Protocol v) (Symbol v);
                book_delegates := book_delegates bk |}) book tokens in
  (is_Some (protocols book' a) <->
   is_Some (protocols book a) \/ exists v, In v tokens /\ Protocol v = a)
  /\ book_delegates book' a = book_delegates book a.
Proof.
  induction tokens as [|v tokens IH]; intros book a; simpl.
  - split; [|reflexivity]. split; [auto|]. intros [Hs|(v & [] & _)]. exact Hs.
  - match goal with
    | |- context [foldl _ ?bk tokens] => destruct (IH bk a) as [IH1 IH2]
    end.
    cbv zeta in IH1, IH2. split; [|rewrite IH2; reflexivity].
    rewrite IH1. simpl. rewrite mapSet_is_Some. split.
    + intros [[E|Hs]|(x & Hx & E)]; eauto.
    + intros [Hs|(x & [->|Hx] & E)]; eauto.
Qed.

(** The second loop of [loadProtocolAddress]. *)
Lemma load_addresses (addrs : list EthAccessor.ProtocolAddress) : forall book a,
  let book' :=
    foldl (fun bk v =>
           let protocolSymbol := "loopring" in
           let delegateSymbol := "transfer_delegate" in
           let tokenRegisterSymbol := "token_register" in
           {| protocols :=
                mapSet (mapSet (mapSet (protocols bk)
                                       (EthAccessor.ContractAddress v) protocolSymbol)
                               (EthAccessor.TokenRegistryAddress v) tokenRegisterSymbol)
                       (EthAccessor.DelegateAddress v) delegateSymbol;
              book_delegates :=
                mapSet (book_delegates bk) (EthAccessor.DelegateAddress v) delegateSymbol |})
        book addrs in
  (is_Some (protocols book' a) <->
   is_Some (protocols book a)
   \/ exists v, In v addrs
        /\ (EthAccessor.ContractAddress v = a \/ EthAccessor.TokenRegistryAddress v = a
            \/ EthAccessor.DelegateAddress v = a))
  /\ (is_Some (book_delegates book' a) <->
      is_Some (book_delegates book a)
      \/ exists v, In v addrs /\ EthAccessor.DelegateAddress v = a).
Proof.
  induction addrs as [|v addrs IH]; intros book a; simpl.
  - split; (split; [auto|]); intros [Hs|(v & [] & _)]; exact Hs.
  - match goal with
    | |- context [foldl _ ?bk addrs] => destruct (IH bk a) as [IH1 IH2]
    end.
    cbv zeta in IH1, IH2. split.
    + rewrite IH1. simpl. rewrite !mapSet_is_Some. split.
      * intros [[E|[E|[E|Hs]]]|(x & Hx & E)]; eauto 8.
      * intros [Hs|(x & [->|Hx] & E)]; [auto| |eauto].
        destruct E as [E|[E|E]]; auto.
    + rewrite IH2. simpl. rewrite mapSet_is_Some. split.
      * intros [[E|Hs]|(x & Hx & E)]; eauto.
      * intros [Hs|(x & [->|Hx] & E)]; eauto.
Qed.

Lemma loadProtocolAddress_lookup g addrs a :
  let book := loadProtocolAddress g addrs emptyBook in
  (is_Some (protocols book a) <->
   (exists token, In token (MarketUtil.rangeValues (MarketUtil.AllTokens g))
                  /\ Protocol token = a)
   \/ exists v, In v addrs
        /\ (EthAccessor.ContractAddress v = a \/ EthAccessor.TokenRegistryAddress v = a
            \/ EthAccessor.DelegateAddress v = a))
  /\ (is_Some (book_delegates book a) <->
      exists v, In v addrs /\ EthAccessor.DelegateAddress v = a).
Proof.
  unfold loadProtocolAddress. cbv zeta.
  match goal with
  | |- context [foldl _ (foldl ?f emptyBook ?l) addrs] =>
      destruct (load_addresses addrs (foldl f emptyBook l) a) as [A1 A2];
      destruct (load_tokens l emptyBook a) as [T1 T2]
  end.
  cbv zeta in A1, A2, T1, T2. split.
  - rewrite A1, T1. simpl. split.
    + intros [[Hs|Ht]|Ha]; [destruct Hs; discriminate|auto|auto].
    + intros [Ht|Ha]; auto.
  - rewrite A2, T2. simpl. split.
    + intros [Hs|Ha]; [destruct Hs; discriminate|auto].
    + auto.
Qed.

Lemma address_tables store g addrs :
  let processor := (newAbiProcessor store g addrs).1 in
  let book := (newAbiProcessor store g addrs).2 in
  (forall a,
      HasContract book a = true <->
      (exists token, In token (MarketUtil.rangeValues (MarketUtil.AllTokens g))
                     /\ Protocol token = a)
      \/ exists v, In v addrs
           /\ (EthAccessor.ContractAddress v = a \/ EthAccessor.TokenRegistryAddress v = a
               \/ EthAccessor.DelegateAddress v = a))
  /\ (forall a,
        HasSpender processor a = true <->
        exists v, In v addrs /\ EthAccessor.DelegateAddress v = a)
  /\ (forall a, HasSpender processor a = true -> HasContract book a = true).
Proof.
  cbv zeta. unfold newAbiProcessor, HasContract, HasSpender. simpl.
  split; [|split]; intros a;
    destruct (loadProtocolAddress_lookup g addrs a) as [L1 L2]; cbv zeta in L1, L2;
    rewrite ?bool_decide_eq_true.
  - exact L1.
  - exact L2.
  - rewrite L1, L2. intros (v & Hv & E). right. eauto.
Qed.

(** X17.  In a new processor, a contract is known exactly when its address
    is the address of a token of [AllTokens] or one of the three addresses of
    a protocol entry; a spender is known exactly when its address is the
    delegate address of a protocol entry; so every known spender is a known
    contract. *)
Theorem newAbiProcessor_address_tables store g addrs :
  let processor := (newAbiProcessor store g addrs).1 in
  let book := (newAbiProcessor store g addrs).2 in
  (forall a,
      HasContract book a = true <->
      (exists token, In token (MarketUtil.rangeValues (MarketUtil.AllTokens g))
                     /\ Protocol token = a)
      \/ exists v, In v addrs
           /\ (EthAccessor.ContractAddress v = a \/ EthAccessor.TokenRegistryAddress v = a
               \/ EthAccessor.DelegateAddress v = a))
  /\ (forall a,
        HasSpender processor a = true <->
        exists v, In v addrs /\ EthAccessor.DelegateAddress v = a)
  /\ (forall a, HasSpender processor a = true -> HasContract book a = true).
Proof. apply address_tables. Qed.

(** X18.  On an approval log with its two indexed topics, the handler of a
    new processor returns nil; it publishes the approval on the account topic
    and then on the transaction-manager topic when the approval's spender is
    the delegate address of a protocol entry, and on the transaction-manager
    topic alone when it is not. *)
Theorem handleApprovalEvent_asks_the_delegates
    store g addrs contractData e topic1 topic2 t :
  Event contractData = CE_Approval e ->
  Topics contractData !! 1 = Some topic1 ->
  Topics contractData !! 2 = Some topic2 ->
  let processor := (newAbiProcessor store g addrs).1 in
  let converted :=
    EthAccessor.Approval_ConvertDown
      {| EthAccessor.Approval_Owner := HexToAddress topic1;
         EthAccessor.Spender := HexToAddress topic2;
         EthAccessor.Approval_data := EthAccessor.Approval_data e |} in
  let evt :=
    {| ap_TxInfo := TxInfo contractData; ap_Spender := ap_Spender converted;
       ap_data := ap_data converted |} in
  exists t',
    handleApprovalEvent processor contractData t = (Returned nilError, t')
    /\ ((exists v, In v addrs /\ EthAccessor.DelegateAddress v = ap_Spender converted) ->
        emitted t' = (emitted t ++ [(AccountApproval, PubApproval evt);
                                    (TxManagerApproveEvent, PubApproval evt)])%list)
    /\ ((forall v, In v addrs -> EthAccessor.DelegateAddress v <> ap_Spender converted) ->
        emitted t' = (emitted t ++ [(TxManagerApproveEvent, PubApproval evt)])%list).
Proof.
  intros He Ht1 Ht2 processor converted evt.
  destruct (address_tables store g addrs) as (_ & Hsp & _).
  cbv zeta in Hsp. fold processor in Hsp. specialize (Hsp (ap_Spender converted)).
  unfold handleApprovalEvent.
  assert ((length (Topics contractData) <? 3)%nat = false) as ->.
  { apply Nat.ltb_ge. apply lookup_lt_Some in Ht2. lia. }
  rewrite He. unfold index. rewrite Ht1, Ht2.
  cbv beta iota zeta delta [mbind mret Run_bind Run_ret Debugf Errorf logf Emit panic].
  fold converted. cbn [ap_Spender].
  destruct (HasSpender processor (ap_Spender converted)) eqn:Hhas.
  - eexists. split; [reflexivity|]. simpl emitted. rewrite <- app_assoc. split.
    + intros _. reflexivity.
    + intros Hno. destruct (proj1 Hsp eq_refl) as (v & Hv & E). exfalso. exact (Hno v Hv E).
  - eexists. split; [reflexivity|]. simpl emitted. split.
    + intros Hyes. apply Hsp in Hyes. discriminate Hyes.
    + intros _. reflexivity.
Qed.

(** X19.  [FullFilled] numbers an event one above its log's index (so from
    1 on, where [setTxInfo] alone leaves 0), and wraps to the least [int64] at
    the greatest.  It takes the protocol from the log's address, where
    [setTxInfo] takes it from the transaction's recipient; the status is
    success; the gas used is 0 without a receipt.  The other fields are those
    of [setTxInfo], the topics those of the log, and the event's struct, id
    and name are kept. *)
Theorem FullFilled_numbers_logs_from_one event evtLog tx receipt blockTime :
  let info := setTxInfo tx receipt blockTime in
  let filled := TxInfo (FullFilled event evtLog tx receipt blockTime) in
  ((0 <= EthAccessor.Log_LogIndex evtLog < 2 ^ 63 - 1)%Z ->
   tx_LogIndex filled = (EthAccessor.Log_LogIndex evtLog + 1)%Z)
  /\ (EthAccessor.Log_LogIndex evtLog = (2 ^ 63 - 1)%Z ->
      tx_LogIndex filled = (- 2 ^ 63)%Z)
  /\ tx_LogIndex info = 0%Z
  /\ tx_Protocol filled = HexToAddress (EthAccessor.Log_Address evtLog)
  /\ tx_Protocol info = tx_To info
  /\ tx_Status filled = TX_STATUS_SUCCESS
  /\ tx_GasUsed filled = match receipt with
                         | Some r => EthAccessor.Receipt_GasUsed r
                         | None => 0%Z
                         end
  /\ (tx_From filled, tx_To filled, tx_BlockHash filled, tx_BlockNumber filled,
      tx_BlockTime filled, tx_TxHash filled, tx_GasLimit filled, tx_GasPrice filled,
      tx_Nonce filled, tx_Symbol filled)
     = (tx_From info, tx_To info, tx_BlockHash info, tx_BlockNumber info,
        tx_BlockTime info, tx_TxHash info, tx_GasLimit info, tx_GasPrice info,
        tx_Nonce info, tx_Symbol info)
  /\ Topics (FullFilled event evtLog tx receipt blockTime) = EthAccessor.Log_Topics evtLog
  /\ (Event (FullFilled event evtLog tx receipt blockTime),
      Id (FullFilled event evtLog tx receipt blockTime),
      Name (FullFilled event evtLog tx receipt blockTime))
     = (Event event, Id event, Name event).
Proof.
  cbv zeta. simpl. repeat split.
  - intros Hr. rewrite Int64_small by lia. apply wrapInt64_small. lia.
  - intros ->. reflexivity.
Qed.

End AddressTables.

Section MethodFacts.
Import GoStrings EthCommon GoBig Types EventEmitter Methods.
Context `{Unicode} `{Common} `{!Dao.Rows} `{BigText} `{Abi} `{!EthAccessor.Converters}.
Context `{!Zeros} `{!Types.Constants} `{!EthAccessor.MethodConverters}.
Context {Address_eq_dec : EqDecision Address}.

(** X20.  A method handler that reads the call data, run on a method whose
    input has fewer than 10 bytes, panics: it publishes nothing, logs nothing
    and does not return. *)
Theorem method_handlers_panic_on_short_input processor name handler contract t :
  methodWatcher processor name = Some handler ->
  readsInput name = true ->
  String.length (Input contract) < 10 ->
  handler contract t = (Extractor.Panicked, t).
Proof.
  unfold methodWatcher, readsInput.
  repeat match goal with
         | |- context [String.eqb name ?c] =>
             destruct (String.eqb_spec name c) as [->|?]
         end;
    simpl; intros Hw Hr Hlen; try discriminate Hw; try discriminate Hr;
    injection Hw as <-; apply Nat.ltb_lt in Hlen;
    cbv beta delta [handleCancelOrderMethod handleCutoffMethod handleCutoffPairMethod
                    handleApproveMethod handleTransferMethod handleWethWithdrawalMethod
                    sliceFrom];
    rewrite Hlen; destruct (Method contract); reflexivity.
Qed.

Ltac run_methods :=
  cbv beta iota zeta delta [mbind mret Run_bind Run_ret Debugf Errorf logf Emit panic
                            MustDecode sliceFrom snd fst emitted logged].

Ltac close_Forall :=
  repeat (apply List.Forall_cons; [reflexivity|]); apply List.Forall_nil.

Ltac refute_ok Hk :=
  let m0 := fresh "m0" in let Hk1 := fresh "Hk1" in let Hk2 := fresh "Hk2" in
  destruct Hk as (m0 & Hk1 & Hk2);
  first
    [ congruence
    | unfold inputData in Hk2;
      match goal with
      | E : (String.length _ <? 10)%nat = _ |- _ => rewrite E in Hk2
      end;
      try match goal with
          | E : EthAccessor.hexutil_Decode _ = _ |- _ => rewrite E in Hk2
          end;
      destruct Hk2 as [? Hk2]; discriminate Hk2 ].

Ltac close_appends :=
  split;
  [ lazymatch goal with
    | |- exists new, ?lhs = _ /\ _ =>
        lazymatch lhs with
        | ((?a ++ ?b) ++ ?c)%list =>
            exists (b ++ c)%list; split; [symmetry; apply app_assoc|close_Forall]
        | (?a ++ ?b)%list =>
            exists b; split; [reflexivity|close_Forall]
        | _ =>
            exists []; split; [symmetry; apply app_nil_r|apply List.Forall_nil]
        end
    end
  | let Hk := fresh "Hk" in
    intros Hk; first [ reflexivity | exfalso; refute_ok Hk ] ].

(** The part the unpacking handlers share: the type assertion, the slice,
    the decoding. *)
Ltac unpacking_handler :=
  unfold appends;
  let Hm := fresh "Hm" in
  lazymatch goal with
  | |- context [Method ?c] => destruct (Method c) eqn:Hm
  end;
  try (run_methods; close_appends; fail);
  unfold sliceFrom;
  let Hlen := fresh "Hlen" in
  lazymatch goal with
  | |- context [(String.length (Input ?c) <? 10)%nat] =>
      destruct (String.length (Input c) <? 10)%nat eqn:Hlen
  end;
  [ run_methods; close_appends | ];
  run_methods;
  let Hd := fresh "Hd" in
  lazymatch goal with
  | |- context [EthAccessor.hexutil_Decode ?x] =>
      destruct (EthAccessor.hexutil_Decode x) as [data|] eqn:Hd
  end;
  [ | run_methods; close_appends ];
  lazymatch goal with
  | |- context [EthAccessor.UnpackMethodInput ?m ?n ?d] =>
      destruct (EthAccessor.UnpackMethodInput m n d) as [? [?|]]
  end;
  [ run_methods; close_appends | ].

Lemma handleCancelOrderMethod_appends contract t :
  appends (exists m, Method contract = CM_CancelOrder m /\ is_Some (inputData contract))
          contract t (handleCancelOrderMethod contract t).
Proof.
  unfold handleCancelOrderMethod. unpacking_handler.
  match goal with
  | |- context [EthAccessor.CancelOrderMethod_ConvertDown ?m] =>
      destruct (EthAccessor.CancelOrderMethod_ConvertDown m) as [orderHash cancelAmount]
  end.
  run_methods. close_appends.
Qed.

Lemma handleCutoffMethod_appends contract t :
  appends (exists m, Method contract = CM_Cutoff m /\ is_Some (inputData contract))
          contract t (handleCutoffMethod contract t).
Proof. unfold handleCutoffMethod. unpacking_handler. run_methods. close_appends. Qed.

Lemma handleCutoffPairMethod_appends contract t :
  appends (exists m, Method contract = CM_CutoffPair m /\ is_Some (inputData contract))
          contract t (handleCutoffPairMethod contract t).
Proof. unfold handleCutoffPairMethod. unpacking_handler. run_methods. close_appends. Qed.

Lemma handleApproveMethod_appends processor contract t :
  appends (exists m, Method contract = CM_Approve m /\ is_Some (inputData contract))
          contract t (handleApproveMethod processor contract t).
Proof.
  unfold handleApproveMethod. unpacking_handler. run_methods.
  match goal with
  | |- context [Extractor.HasSpender ?p ?x] => destruct (Extractor.HasSpender p x)
  end; run_methods; close_appends.
Qed.

Lemma handleTransferMethod_appends contract t :
  appends (exists m, Method contract = CM_Transfer m /\ is_Some (inputData contract))
          contract t (handleTransferMethod contract t).
Proof. unfold handleTransferMethod. unpacking_handler. run_methods. close_appends. Qed.

Lemma handleWethWithdrawalMethod_appends contract t :
  appends (exists m, Method contract = CM_WethWithdrawal m /\ is_Some (inputData contract))
          contract t (handleWethWithdrawalMethod contract t).
Proof. unfold handleWethWithdrawalMethod. unpacking_handler. run_methods. close_appends. Qed.

Lemma handleSubmitRingMethod_appends contract t :
  appends True contract t (handleSubmitRingMethod contract t).
Proof.
  unfold handleSubmitRingMethod, appends. run_methods. split.
  - eexists. split; [reflexivity|close_Forall].
  - reflexivity.
Qed.

Lemma handleWethDepositMethod_appends contract t :
  appends True contract t (handleWethDepositMethod contract t).
Proof.
  unfold handleWethDepositMethod, appends. run_methods. split.
  - eexists. split; [symmetry; apply app_assoc|close_Forall].
  - reflexivity.
Qed.

(** Every handler the [load...] functions subscribe for a method. *)
Lemma methodWatcher_appends processor name handler contract t :
  methodWatcher processor name = Some handler ->
  exists ok : Prop,
    appends ok contract t (handler contract t)
    /\ (forall m, methodStruct name m = Some (Method contract) ->
                  (readsInput name = true -> is_Some (inputData contract)) -> ok).
Proof.
  unfold methodWatcher, methodStruct, readsInput.
  repeat match goal with
         | |- context [String.eqb name ?c] =>
             destruct (String.eqb_spec name c) as [->|?]
         end;
    simpl; intros Hw; try discriminate Hw; injection Hw as <-.
  - eexists. split; [apply handleSubmitRingMethod_appends|]. auto.
  - eexists. split; [apply handleCancelOrderMethod_appends|].
    intros m [= <-] Hin. eauto.
  - eexists. split; [apply handleCutoffMethod_appends|].
    intros m [= <-] Hin. eauto.
  - eexists. split; [apply handleCutoffPairMethod_appends|].
    intros m [= <-] Hin. eauto.
  - eexists. split; [apply handleTransferMethod_appends|].
    intros m [= <-] Hin. eauto.
  - eexists. split; [apply handleApproveMethod_appends|].
    intros m [= <-] Hin. eauto.
  - eexists. split; [apply handleWethDepositMethod_appends|]. auto.
  - eexists. split; [apply handleWethWithdrawalMethod_appends|].
    intros m [= <-] Hin. eauto.
Qed.

(** X21.  A handler subscribed for a method name, run on a method that
    carries the struct the subscription allocated for that name (none for
    [deposit]) and, where the handler reads the call data, an input of at
    least 10 bytes whose rest decodes, returns nil: it does not panic and
    never returns an error, whether or not the unpacking succeeds. *)
Theorem method_handlers_return_nil_on_decodable_input
    processor name handler contract m t :
  methodWatcher processor name = Some handler ->
  methodStruct name m = Some (Method contract) ->
  (readsInput name = true -> is_Some (inputData contract)) ->
  exists t', handler contract t = (Extractor.Returned nilError, t').
Proof.
  intros Hw Hs Hin.
  destruct (methodWatcher_appends processor name handler contract t Hw)
    as (ok & [_ Hret] & Hok).
  specialize (Hret (Hok m Hs Hin)).
  destruct (handler contract t) as [r t']. simpl in Hret. subst r. eauto.
Qed.

(** X22.  Whatever the method, a subscribed method handler only appends to
    what has been published, and every event it appends carries the
    transaction info of the method it was run on. *)
Theorem method_handlers_publish_the_transaction processor name handler contract t :
  methodWatcher processor name = Some handler ->
  exists new,
    emitted (handler contract t).2 = (emitted t ++ new)%list
    /\ Forall (fun p => txInfoOf p.2 = TxInfo contract) new.
Proof.
  intros Hw.
  destruct (methodWatcher_appends processor name handler contract t Hw)
    as (ok & [Hnew _] & _).
  exact Hnew.
Qed.

(** X23.  When the unpacking of the call data reports an error, the handler
    logs one error line, publishes nothing and returns nil. *)
Theorem method_unpack_error_publishes_nothing
    processor name handler contract m data t :
  methodWatcher processor name = Some handler ->
  readsInput name = true ->
  methodStruct name m = Some (Method contract) ->
  inputData contract = Some data ->
  (EthAccessor.UnpackMethodInput m (Name contract) data).2 <> None ->
  exists fmt, handler contract t = (Extractor.Returned nilError, withError fmt contract t).
Proof.
  unfold methodWatcher, methodStruct, readsInput, inputData.
  repeat match goal with
         | |- context [String.eqb name ?c] =>
             destruct (String.eqb_spec name c) as [->|?]
         end;
    simpl; intros Hw Hr Hs Hin Herr; try discriminate Hw; try discriminate Hr;
    injection Hw as <-; injection Hs as Hs;
    destruct (String.length (Input contract) <? 10)%nat eqn:Hlen; try discriminate Hin;
    cbv beta delta [handleCancelOrderMethod handleCutoffMethod handleCutoffPairMethod
                    handleApproveMethod handleTransferMethod handleWethWithdrawalMethod
                    sliceFrom MustDecode];
    rewrite <- Hs, Hlen; run_methods; rewrite Hin;
    destruct (EthAccessor.UnpackMethodInput m (Name contract) data) as [m' [err|]];
    try (exfalso; apply Herr; reflexivity);
    eexists; reflexivity.
Qed.

(** X24.  The submit-ring handler logs one line, publishes one event on the
    miner's topic and returns nil, whatever the method.  The event carries the
    method's transaction info and the result of [IsValid]: an error exactly
    when the status is failed, in which case [processNeeded] holds too. *)
Theorem handleSubmitRingMethod_reports_failed_transactions contract t :
  exists evt,
    handleSubmitRingMethod contract t
    = (Extractor.Returned nilError,
       {| logged := (logged t ++
                     [{| Extractor.level := Extractor.LvDebug;
                         Extractor.format :=
                           "extractor,tx:%s submitRing method gas:%s, gasprice:%s";
                         Extractor.txHash := Hash_Hex (tx_TxHash (TxInfo contract)) |}])%list;
          emitted := (emitted t ++ [(Miner_SubmitRing_Method, PubSubmitRing evt)])%list |})
    /\ sr_TxInfo evt = TxInfo contract
    /\ sr_Err evt = IsValid contract
    /\ (sr_Err evt <> None <-> tx_Status (TxInfo contract) = TX_STATUS_FAILED)
    /\ (sr_Err evt <> None -> processNeeded contract = true).
Proof.
  eexists. split; [reflexivity|]. simpl. split; [reflexivity|]. split; [reflexivity|].
  unfold IsValid, processNeeded.
  destruct (Z.eqb_spec (tx_Status (TxInfo contract)) TX_STATUS_FAILED) as [E|Hne]; simpl.
  - split; [split; [intros _; exact E|discriminate]|reflexivity].
  - split; [split; [congruence|intros E; congruence]|congruence].
Qed.

(** X25.  [handleEthTransfer] publishes one event and returns nil.  The
    event agrees with [setTxInfo] of the transaction on sender, recipient,
    block number and time, transaction hash, gas and nonce; its protocol is
    the nil address, its symbol "ETH", its status the one given, its log index
    0, and its block hash is left zero.  Sender and receiver are the
    transaction's, the value the transaction's value. *)
Theorem handleEthTransfer_leaves_block_hash_unset tx receipt time status t :
  let info := Extractor.setTxInfo tx receipt time in
  exists e,
    handleEthTransfer tx receipt time status t
    = (Extractor.Returned nilError,
       {| logged := logged t;
          emitted := (emitted t ++ [(TxManagerEthTransferEvent, PubEthTransfer e)])%list |})
    /\ et_TxInfo e
       = {| tx_Protocol := NilAddress; tx_From := tx_From info; tx_To := tx_To info;
            tx_BlockHash := Hash_zero; tx_BlockNumber := tx_BlockNumber info;
            tx_BlockTime := tx_BlockTime info; tx_TxHash := tx_TxHash info;
            tx_LogIndex := 0; tx_Status := status; tx_GasLimit := tx_GasLimit info;
            tx_GasUsed := tx_GasUsed info; tx_GasPrice := tx_GasPrice info;
            tx_Nonce := tx_Nonce info; tx_Symbol := "ETH" |}
    /\ et_Sender e = tx_From info /\ et_Receiver e = tx_To info
    /\ et_Value e = EthAccessor.Tx_Value tx.
Proof.
  cbv zeta. eexists. split; [reflexivity|]. simpl.
  destruct receipt; repeat split; reflexivity.
Qed.

(** X26.  A transaction is a plain transfer exactly when its recipient is
    not a known contract, its value is positive, and its sender or its
    recipient is unlocked.  So a transaction sent to a token of [AllTokens],
    or to one of the three addresses of a protocol entry, is never one,
    whatever its value. *)
Theorem IsValidEthTransferTransaction_skips_known_contracts
    store g addrs accountmanager tx :
  let book := (Extractor.newAbiProcessor store g addrs).2 in
  let to := HexToAddress (EthAccessor.Tx_To tx) in
  (IsValidEthTransferTransaction book accountmanager tx = true <->
   Extractor.HasContract book to = false
   /\ (0 < EthAccessor.Tx_Value tx)%Z
   /\ (HasUnlocked accountmanager (EthAccessor.Tx_From tx) = true
       \/ HasUnlocked accountmanager (EthAccessor.Tx_To tx) = true))
  /\ (((exists token, In token (MarketUtil.rangeValues (MarketUtil.AllTokens g))
                      /\ Protocol token = to)
       \/ exists v, In v addrs
            /\ (EthAccessor.ContractAddress v = to \/ EthAccessor.TokenRegistryAddress v = to
                \/ EthAccessor.DelegateAddress v = to)) ->
      IsValidEthTransferTransaction book accountmanager tx = false).
Proof.
  cbv zeta. unfold IsValidEthTransferTransaction.
  destruct (address_tables store g addrs) as (Hc & _ & _).
  cbv zeta in Hc. specialize (Hc (HexToAddress (EthAccessor.Tx_To tx))).
  destruct (Extractor.HasContract _ _) eqn:Hhas.
  - split; [|reflexivity]. split; [discriminate|intros [E _]; discriminate E].
  - split.
    + destruct (Z.leb_spec (EthAccessor.Tx_Value tx) 0).
      * split; [discriminate|intros (_ & Hv & _); lia].
      * destruct (HasUnlocked accountmanager (EthAccessor.Tx_From tx)),
                 (HasUnlocked accountmanager (EthAccessor.Tx_To tx)); simpl;
          (split; [intros E; try discriminate E; auto
                  |intros (_ & _ & [E|E]); try discriminate E; reflexivity]).
    + intros Hk. apply Hc in Hk. discriminate Hk.
Qed.

End MethodFacts.

(** ** The model run on examples *)

Section Examples.
Import GoStrings EthCommon GoBig Types MarketUtil Extractor EventEmitter Sample.
Local Existing Instances asciiText hexText rows decimalText ringData converters.

(** C1.  [Initialize] on the token lrc and the market weth, then again on the
    token omg and the market weth: [AllTokens] holds omg alone, but
    [AllMarkets] still lists "lrc-weth" and [AllTokenPairs] still holds the
    two lrc/weth pairs, before the entries of the second run. *)
Example Initialize_again_keeps_stale_entries :
  exists g1 g2,
    Initialize (rds [("lrc", "0x01")] [("weth", "0x02")]) zeroGlobals = Returns g1
    /\ Initialize (rds [("omg", "0x03")] [("weth", "0x02")]) g1 = Returns g2
    /\ rangeEntries (AllTokens g2)
       = [("omg", {| Symbol := "omg"; Protocol := "0x03" : Address |})]
    /\ AllMarkets g2 = ["lrc-weth"; "omg-weth"]
    /\ AllTokenPairs g2
       = [ {| TokenS := "0x02" : Address; TokenB := "0x01" : Address |};
           {| TokenS := "0x01" : Address; TokenB := "0x02" : Address |};
           {| TokenS := "0x03" : Address; TokenB := "0x02" : Address |};
           {| TokenS := "0x02" : Address; TokenB := "0x03" : Address |} ].
Proof.
  eexists _, _. split; [reflexivity|]. split; [reflexivity|].
  vm_compute. repeat split.
Qed.

(** The library functions on ASCII text. *)
Example strings_on_ascii :
  ToLower "WeTh" = "weth"
  /\ TrimSpace "  lrc-weth " = "lrc-weth"
  /\ Split "lrc-weth" hyphen = ["lrc"; "weth"]
  /\ Split "a--b" hyphen = ["a"; ""; "b"]
  /\ Split "" hyphen = [""]
  /\ UnWrap " LRC-WETH " = ("lrc", "weth")
  /\ UnWrap "lrc" = ("", "").
Proof. vm_compute. repeat split. Qed.

(** Neither "xyz" nor "abc" is in a table: [WrapMarket] returns the error. *)
Example WrapMarket_unsupported :
  WrapMarket lrcWeth "xyz" "abc" = ("", Some "not supported market type : xyz-abc").
Proof. vm_compute. reflexivity. Qed.

(** With lrc and weth both tokens and both markets, the result depends on the
    order of the arguments. *)
Example WrapMarket_order_matters :
  let both :=
    initialized [("lrc", "0x01"); ("weth", "0x02")] [("weth", "0x02"); ("lrc", "0x01")] in
  WrapMarket both "weth" "lrc" = ("lrc-weth", None)
  /\ WrapMarket both "lrc" "weth" = ("weth-lrc", None).
Proof. vm_compute. split; reflexivity. Qed.

(** C2 as stated fails.  With weth the one market and lrc the one token,
    [WrapMarket] returns "lrc-weth" for either order of the arguments, not
    "weth-lrc". *)
Lemma WrapMarket_market_first_fails :
  IsSupportedMarket lrcWeth "weth" = true
  /\ IsSupportedToken lrcWeth "lrc" = true
  /\ WrapMarket lrcWeth "weth" "lrc" = ("lrc-weth", None)
  /\ WrapMarket lrcWeth "lrc" "weth" = ("lrc-weth", None).
Proof. vm_compute. repeat split. Qed.

(** [WrapMarket_token_first] on the market weth and the token lrc. *)
Lemma WrapMarket_token_first_witness :
  WrapMarket lrcWeth "WETH" "lrc" = ("lrc-weth", None)
  /\ WrapMarket lrcWeth "lrc" "WETH" = ("lrc-weth", None).
Proof.
  apply (WrapMarket_token_first lrcWeth "WETH" "lrc").
  - apply IsSupportedMarket_true. vm_compute. reflexivity.
  - apply IsSupportedToken_true. vm_compute. reflexivity.
Defined.

(** C4.  Both queries return no row and no error: [Initialize] does not end
    the process in [log.Fatalf]; it returns, and leaves every table empty.
    The two guards test [err != nil] only, though their messages ("cann't
    find any token!", "cann't find any base market!") name the case of no
    row. *)
Lemma Initialize_returns_on_empty_sources :
  Initialize (rds [] []) zeroGlobals = Returns zeroGlobals.
Proof. vm_compute. reflexivity. Qed.

(** [Initialize_fatal_on_source_error] on one token row and one market row. *)
Lemma Initialize_fatal_on_source_error_witness :
  IsSupportedToken lrcWeth "lrc" = true /\ IsSupportedMarket lrcWeth "weth" = true.
Proof.
  destruct (Initialize_fatal_on_source_error
              (rds [("lrc", "0x01")] [("weth", "0x02")]) zeroGlobals) as [_ Hr].
  destruct (Hr lrcWeth eq_refl) as [Ht Hm]. split.
  - apply (Ht ("lrc", "0x01")). left. reflexivity.
  - apply (Hm ("weth", "0x02")). left. reflexivity.
Defined.

(** C5 as stated fails.  With weth the one market and lrc the one token,
    [UnWrap] of the wrapped market is (lrc, weth): the token comes first. *)
Lemma UnWrap_WrapMarket_market_first_fails :
  IsSupportedMarket lrcWeth "weth" = true
  /\ IsSupportedToken lrcWeth "lrc" = true
  /\ IsSupportedMarket lrcWeth "lrc" = false
  /\ IsSupportedToken lrcWeth "weth" = false
  /\ UnWrap (WrapMarket lrcWeth "weth" "lrc").1 = ("lrc", "weth")
  /\ UnWrap (WrapMarket lrcWeth "lrc" "weth").1 = ("lrc", "weth").
Proof. vm_compute. repeat split. Qed.

(** [UnWrap_WrapMarket_token_first] on the inputs "WETH" and "LRC", and on a
    string with two hyphens. *)
Lemma UnWrap_WrapMarket_token_first_witness :
  (exists token mkt,
      IsSupportedToken lrcWeth token = true /\ IsSupportedMarket lrcWeth mkt = true
      /\ ((token, mkt) = (ToLower "LRC", ToLower "WETH")
          \/ (token, mkt) = (ToLower "WETH", ToLower "LRC"))
      /\ UnWrap "lrc-weth" = (token, mkt))
  /\ UnWrap "lrc-weth-x" = ("", "").
Proof.
  destruct (@UnWrap_WrapMarket_token_first asciiText hexText (fun s => eq_refl))
    as [P1 P2].
  split.
  - apply (P1 lrcWeth "WETH" "LRC" "lrc-weth"); vm_compute; reflexivity.
  - apply P2. vm_compute. lia.
Defined.

(** [CalculatePrice_zero_amount] on a sell amount of 0. *)
Lemma CalculatePrice_zero_amount_witness :
  CalculatePrice lrcWeth "0" "6000000000000000000" "lrc" "weth" = Float64.zero.
Proof.
  apply (CalculatePrice_zero_amount lrcWeth "0" "6000000000000000000" "lrc" "weth").
  left. vm_compute. reflexivity.
Defined.

(** [ByteToFloat_truncates_to_int64] on 6e18, which fits in [int64], and on
    2^63, which does not. *)
Lemma ByteToFloat_truncates_to_int64_witness :
  ByteToFloat "6000000000000000000"
  = scaledAmount (UnmarshalText "6000000000000000000")
  /\ Float64.ltb (ByteToFloat "9223372036854775808")
                 (scaledAmount (UnmarshalText "9223372036854775808")) = true
  /\ CalculatePrice lrcWeth "2000000000000000000" "6000000000000000000" "lrc" "weth"
     = scaledPrice lrcWeth (UnmarshalText "2000000000000000000")
                   (UnmarshalText "6000000000000000000") "lrc".
Proof.
  destruct (ByteToFloat_truncates_to_int64 lrcWeth "6000000000000000000"
              "2000000000000000000" "6000000000000000000" "lrc" "weth")
    as (Hfit & _ & Hprice & _).
  destruct (ByteToFloat_truncates_to_int64 lrcWeth "9223372036854775808" "" "" "" "")
    as (_ & Hcut & _).
  split; [|split].
  - apply Hfit. vm_compute. split; [discriminate|reflexivity].
  - apply Hcut. vm_compute. discriminate.
  - apply Hprice; vm_compute; (split; [discriminate|reflexivity]).
Defined.

(** Selling 2e18 of the token lrc for 6e18: the price is buy/sell = 3. *)
Example CalculatePrice_three :
  CalculatePrice lrcWeth "2000000000000000000" "6000000000000000000" "lrc" "weth"
  = S754_finite false 6755399441055744 (-51).
Proof. vm_compute. reflexivity. Qed.

(** The value returned for 2^63 is negative; for 2^64 it is 0. *)
Example ByteToFloat_wraps :
  ByteToFloat "9223372036854775808" = S754_finite true 5192296858534828 (-49)
  /\ ByteToFloat "18446744073709551616" = Float64.zero.
Proof. vm_compute. split; reflexivity. Qed.

(** C3.  A ring of three fills whose second order is not in the store.  The
    order-manager topic receives the two matched fills, before their
    counterparties are set.  The transaction-manager topic receives all three
    fills, the unmatched one among them, and the matched fills are linked to
    the unmatched fill's zero owner instead of to each other. *)
Example handleRingMinedEvent_publishes_unmatched_fill :
  let r := handleRingMinedEvent processor wethMarket ringOfThree emptyTrace in
  r.1 = Returned nilError
  /\ map fillSummary (publishedOn OrderManagerExtractorFill r.2)
     = [ Some (0, "0xh1", "0xA", "", ""); Some (2, "0xh3", "0xC", "", "") ]
  /\ map fillSummary (publishedOn TxManagerOrderFilledEvent r.2)
     = [ Some (0, "0xh1", "0xA", "", "0xC");
         Some (1, "0xh2", "", "0xC", "0xA");
         Some (2, "0xh3", "0xC", "0xA", "") ]
  /\ format <$> last (logged r.2)
     = Some "extractor,tx:%s orderFilled event cann't match order %s".
Proof. vm_compute. repeat split. Qed.

(** [short_topics_publish_nothing] on a transfer log with one indexed
    topic. *)
Lemma short_topics_publish_nothing_witness :
  exists fmt,
    handleTransferEvent shortTransfer emptyTrace
    = (Returned nilError, withError fmt shortTransfer emptyTrace).
Proof.
  apply (short_topics_publish_nothing processor lrcWeth "Transfer").
  - reflexivity.
  - vm_compute. lia.
Defined.


(** *** The registry, the handlers and the methods on further examples *)

Local Existing Instances zeros constants methodConverters.

(** [Initialize_tables_hold_last_rows] on two token rows of one symbol. *)
Lemma Initialize_tables_hold_last_rows_witness :
  exists g,
    Initialize (rds [("lrc", "0x01"); ("lrc", "0x09")] [("weth", "0x02")]) zeroGlobals
    = Returns g
    /\ SupportTokens g !! "lrc" = Some {| Symbol := "lrc"; Protocol := "0x09" : Address |}
    /\ SupportTokens g !! "omg" = None
    /\ AllTokens g = SupportTokens g.
Proof.
  eexists. split; [reflexivity|].
  destruct (Initialize_tables_hold_last_rows
              (rds [("lrc", "0x01"); ("lrc", "0x09")] [("weth", "0x02")]) zeroGlobals
              _ eq_refl) as (Ht & _ & Ea).
  split; [rewrite Ht; reflexivity|]. split; [rewrite Ht; reflexivity|exact Ea].
Defined.

(** [Initialize_lists_every_combination] on one token and one market. *)
Lemma Initialize_lists_every_combination_witness :
  exists new, AllMarkets lrcWeth = new /\ length new = 1.
Proof.
  destruct (Initialize_lists_every_combination
              (rds [("lrc", "0x01")] [("weth", "0x02")]) zeroGlobals lrcWeth eq_refl)
    as (new & E & L & _).
  exists new. split; [exact E|exact L].
Defined.

(** [Initialize_pairs_join_market_and_token] on one token and one market. *)
Lemma Initialize_pairs_join_market_and_token_witness :
  exists new, AllTokenPairs lrcWeth = new /\ length new <= 2.
Proof.
  destruct (Initialize_pairs_join_market_and_token
              (rds [("lrc", "0x01")] [("weth", "0x02")]) zeroGlobals lrcWeth eq_refl)
    as (new & E & L & _).
  exists new. split; [exact E|exact L].
Defined.

(** The reverse order visits every entry once. *)
Lemma fair_backwards : fair backwards.
Proof. intros V pos m. unfold backwards. apply reverse_Permutation. Qed.

(** With the tokens lrc and omg and the market weth, the four keys of
    [pairsMap] differ. *)
Lemma lrc_omg_weth_unambiguous :
  unambiguous (setSupportTokens [("lrc", "0x01"); ("omg", "0x03")])
              (setSupportMarkets [("weth", "0x02")]).
Proof.
  assert (exists a b, rangeValues (setSupportTokens [("lrc", "0x01"); ("omg", "0x03")])
                      = [a; b]
                      /\ (Symbol a = "lrc" /\ Symbol b = "omg"
                          \/ Symbol a = "omg" /\ Symbol b = "lrc")) as (a & b & ET & Hab)
    by (eexists _, _; vm_compute; split; [reflexivity|auto]).
  assert (exists w, rangeValues (setSupportMarkets [("weth", "0x02")]) = [w]
                    /\ Symbol w = "weth") as (w & EM & Hw)
    by (eexists; vm_compute; split; reflexivity).
  intros k p p' (v & vv & Hv & Hvv & Hk) (v' & vv' & Hv' & Hvv' & Hk').
  rewrite EM in Hv, Hv'. rewrite ET in Hvv, Hvv'.
  destruct Hv as [<-|[]], Hv' as [<-|[]].
  destruct Hvv as [<-|[<-|[]]], Hvv' as [<-|[<-|[]]];
    destruct Hk as [[-> ->]|[-> ->]], Hk' as [[Ek ->]|[Ek ->]];
    try reflexivity; exfalso;
    destruct Hab as [[Ha Hb]|[Ha Hb]]; rewrite ?Ha, ?Hb, ?Hw in Ek; discriminate Ek.
Qed.

(** [Initialize_twice_duplicates] on two tokens and one market, the second
    run visiting every map in the reverse order. *)
Lemma Initialize_twice_duplicates_witness :
  exists g1 g2 added again addedPairs againPairs,
    InitializeIn inOrder (rds [("lrc", "0x01"); ("omg", "0x03")] [("weth", "0x02")])
                 zeroGlobals = Returns g1
    /\ InitializeIn backwards (rds [("lrc", "0x01"); ("omg", "0x03")] [("weth", "0x02")])
                    g1 = Returns g2
    /\ AllMarkets g1 = added
    /\ AllMarkets g2 = (added ++ again)%list
    /\ Permutation again added
    /\ length added = 2
    /\ AllTokenPairs g1 = addedPairs
    /\ AllTokenPairs g2 = (addedPairs ++ againPairs)%list
    /\ Permutation againPairs addedPairs.
Proof.
  eexists _, _.
  destruct (Initialize_twice_duplicates inOrder backwards
              (rds [("lrc", "0x01"); ("omg", "0x03")] [("weth", "0x02")])
              zeroGlobals _ _ fair_inOrder fair_backwards eq_refl eq_refl)
    as (_ & _ & _ & added & again & addedPairs & againPairs
        & A1 & A2 & P & L & B1 & B2 & _ & PP).
  exists added, again, addedPairs, againPairs.
  split; [reflexivity|]. split; [reflexivity|].
  split; [exact A1|]. split; [exact A2|]. split; [exact P|]. split; [exact L|].
  split; [exact B1|]. split; [exact B2|].
  apply PP. exact lrc_omg_weth_unambiguous.
Defined.
(** With a and b both tokens and both markets, under different addresses, the
    key "a-b" is written with two different pairs: the pair that
    [AllTokenPairs] gets depends on the order of the loop over the markets. *)
Example pairs_depend_on_order :
  let store := rds [("a", "0x01"); ("b", "0x02")] [("a", "0x03"); ("b", "0x04")] in
  exists g1 g2,
    InitializeIn inOrder store zeroGlobals = Returns g1
    /\ InitializeIn backwards store zeroGlobals = Returns g2
    /\ In {| TokenS := "0x01" : Address; TokenB := "0x04" : Address |} (AllTokenPairs g1)
    /\ ~ In {| TokenS := "0x01" : Address; TokenB := "0x04" : Address |} (AllTokenPairs g2).
Proof.
  eexists _, _. split; [reflexivity|]. split; [reflexivity|].
  vm_compute. split; [tauto|].
  intros Hin. repeat (destruct Hin as [Hin|Hin]; [discriminate Hin|]). exact Hin.
Qed.

(** [AddressToAlias_finds_token] on two tokens of one address. *)
Lemma AddressToAlias_finds_token_witness :
  (exists order,
      Permutation order (rangeEntries (AllTokens oneAddress))
      /\ AddressToAliasIn order "0x01" = "lrc")
  /\ (exists order,
        Permutation order (rangeEntries (AllTokens oneAddress))
        /\ AddressToAliasIn order "0x01" = "omg").
Proof.
  destruct (AddressToAlias_finds_token oneAddress "0x01") as (_ & Hany & _).
  split.
  - eapply (Hany "lrc"); reflexivity.
  - eapply (Hany "omg"); reflexivity.
Defined.

(** [WrapMarketByAddress_resolves_tokens_only] on the address of the market
    weth, which is not a token. *)
Lemma WrapMarketByAddress_resolves_tokens_only_witness :
  (AddressToAlias lrcWeth "0x02" = ""
   \/ IsSupportedToken lrcWeth (AddressToAlias lrcWeth "0x02") = true)
  /\ exists msg, (WrapMarketByAddress lrcWeth "0x02" "0x01").2 = Some msg.
Proof.
  destruct (WrapMarketByAddress_resolves_tokens_only
              (rds [("lrc", "0x01")] [("weth", "0x02")]) zeroGlobals lrcWeth eq_refl)
    as [Ha Hw].
  split; [apply Ha|].
  destruct (Hw "0x02" "0x01") as [Hne _].
  - change (map_Forall (fun (_ : string) (tok : Token) =>
                          Address_Hex (Protocol tok) <> "0x02") (SupportTokens lrcWeth)).
    eapply bool_decide_unpack. vm_compute. exact I.
  - reflexivity.
  - reflexivity.
  - destruct ((WrapMarketByAddress lrcWeth "0x02" "0x01").2) as [msg|];
      [exists msg; reflexivity|exfalso; apply Hne; reflexivity].
Defined.

(** [IsBuy_after_Initialize] on the symbol and on the address of lrc. *)
Lemma IsBuy_after_Initialize_witness :
  IsBuy lrcWeth "lrc" = IsSupportedToken lrcWeth "lrc" /\ IsBuy lrcWeth "0x01" = true.
Proof.
  destruct (IsBuy_after_Initialize
              (rds [("lrc", "0x01")] [("weth", "0x02")]) zeroGlobals lrcWeth "lrc" eq_refl)
    as [Hsym _].
  destruct (IsBuy_after_Initialize
              (rds [("lrc", "0x01")] [("weth", "0x02")]) zeroGlobals lrcWeth "0x01" eq_refl)
    as [_ Haddr].
  split; [apply Hsym; reflexivity|].
  apply Haddr; [reflexivity|reflexivity|].
  exists "lrc". eexists. split; reflexivity.
Defined.


(** [handlers_return_nil_on_installed_struct] on a deauthorization log. *)
Lemma handlers_return_nil_on_installed_struct_witness :
  exists t', handleAddressDeAuthorizedEvent deauthorizedLog emptyTrace
             = (Returned nilError, t').
Proof.
  apply (handlers_return_nil_on_installed_struct processor lrcWeth "AddressDeauthorized");
    reflexivity.
Defined.

(** [handlers_publish_the_log_transaction] on a deauthorization log. *)
Lemma handlers_publish_the_log_transaction_witness :
  exists new,
    emitted (handleAddressDeAuthorizedEvent deauthorizedLog emptyTrace).2
    = (emitted emptyTrace ++ new)%list
    /\ Forall (fun p => txInfoOf p.2 = TxInfo deauthorizedLog) new.
Proof.
  apply (handlers_publish_the_log_transaction processor lrcWeth "AddressDeauthorized").
  reflexivity.
Defined.

(** [handleApprovalEvent_asks_the_delegates] on an approval of the delegate
    and on an approval of another spender. *)
Lemma handleApprovalEvent_asks_the_delegates_witness :
  (exists t',
      handleApprovalEvent newProcessor.1 (approvalLog "0xD") emptyTrace
      = (Returned nilError, t')
      /\ map fst (emitted t') = [AccountApproval; TxManagerApproveEvent])
  /\ (exists t',
        handleApprovalEvent newProcessor.1 (approvalLog "0xE") emptyTrace
        = (Returned nilError, t')
        /\ map fst (emitted t') = [TxManagerApproveEvent]).
Proof.
  split.
  - destruct (handleApprovalEvent_asks_the_delegates
                (Address_eq_dec := String.eq_dec : EqDecision (@Address hexText))
                twoOrders wethMarket [protocolEntry] (approvalLog "0xD") _ "0xowner" "0xD"
                emptyTrace eq_refl eq_refl eq_refl) as (t' & E & Hyes & _).
    exists t'. split; [exact E|]. rewrite Hyes; [reflexivity|].
    exists protocolEntry. split; [left; reflexivity|reflexivity].
  - destruct (handleApprovalEvent_asks_the_delegates
                (Address_eq_dec := String.eq_dec : EqDecision (@Address hexText))
                twoOrders wethMarket [protocolEntry] (approvalLog "0xE") _ "0xowner" "0xE"
                emptyTrace eq_refl eq_refl eq_refl) as (t' & E & _ & Hno).
    exists t'. split; [exact E|]. rewrite Hno; [reflexivity|].
    intros v [<-|[]]. discriminate.
Defined.

(** [method_handlers_panic_on_short_input] on a call whose input is the
    prefix "0x" alone. *)
Lemma method_handlers_panic_on_short_input_witness :
  Methods.handleCancelOrderMethod (cancelCall "0x") Methods.emptyTrace
  = (Panicked, Methods.emptyTrace).
Proof.
  apply (method_handlers_panic_on_short_input processor "cancelOrder").
  - reflexivity.
  - reflexivity.
  - vm_compute. lia.
Defined.

(** [method_handlers_return_nil_on_decodable_input] on a call with call data. *)
Lemma method_handlers_return_nil_on_decodable_input_witness :
  exists t',
    Methods.handleCancelOrderMethod (cancelCall "0x8c59f7ca00ff") Methods.emptyTrace
    = (Returned Methods.nilError, t').
Proof.
  apply (method_handlers_return_nil_on_decodable_input processor "cancelOrder" _ _
           ([] : @Data ringData)).
  - reflexivity.
  - reflexivity.
  - intros _. vm_compute. eauto.
Defined.

(** [method_handlers_publish_the_transaction] on that call. *)
Lemma method_handlers_publish_the_transaction_witness :
  exists new,
    Methods.emitted
      (Methods.handleCancelOrderMethod (cancelCall "0x8c59f7ca00ff") Methods.emptyTrace).2
    = (Methods.emitted Methods.emptyTrace ++ new)%list
    /\ Forall (fun p => Methods.txInfoOf p.2 = Methods.TxInfo (cancelCall "0x8c59f7ca00ff"))
              new.
Proof.
  apply (method_handlers_publish_the_transaction processor "cancelOrder").
  reflexivity.
Defined.

(** [method_unpack_error_publishes_nothing] on a call without call data. *)
Lemma method_unpack_error_publishes_nothing_witness :
  exists fmt,
    Methods.handleCancelOrderMethod (cancelCall "0x8c59f7ca") Methods.emptyTrace
    = (Returned Methods.nilError,
       Methods.withError fmt (cancelCall "0x8c59f7ca") Methods.emptyTrace).
Proof.
  apply (method_unpack_error_publishes_nothing processor "cancelOrder" _ _
           ([] : @Data ringData) ("" : @EthAccessor.Bytes hexText ringData methodConverters)).
  - reflexivity.
  - reflexivity.
  - reflexivity.
  - reflexivity.
  - vm_compute. discriminate.
Defined.

End Examples.
